(** * DocuMind retrieval core: chunker, cache, vector index, query path

    A shallow embedding of the Python sources under [src/src/]
    ([chunking.py], [cache.py], [vector_store.py], [query_processor.py],
    [main.py]) together with the properties of the retrieval core that
    the design document states about them.

    Conventions of the embedding:
    - a Python [str] is a [string] whose characters are code points
      below 256; [len] counts them;
    - a Python [int] is a [Z]; a Python/numpy [float] is a binary64
      [float] of the kernel;
    - a call that may raise returns a [Py.res]; code that mutates an
      object threads the object explicitly;
    - clock readings ([time.time()], [st_mtime]) are integral ticks. *)

From Stdlib Require Import ZArith List String Ascii Lia Floats Bool.
From Stdlib Require Uint63.
From Stdlib Require Import Permutation Sorted DecimalString OrderedTypeEx.
From stdpp Require Import gmap strings list.

Set Warnings "-inexact-float,-register-all".

Local Open Scope string_scope.
Local Open Scope list_scope.
Local Open Scope Z_scope.

(** ** Python values and built-ins *)

Module Py.

Inductive exn : Type :=
| ValueError (msg : string)
| TypeError (msg : string)
| KeyError (key : string)
| FileNotFoundError
| EOFError
| UnpicklingError
| AttributeError (msg : string)
| ExternalError (name msg : string).

Inductive res (A : Type) : Type :=
| Ok (a : A)
| Raise (e : exn).
Arguments Ok {A} a.
Arguments Raise {A} e.

Definition bind {A B : Type} (m : res A) (k : A -> res B) : res B :=
  match m with
  | Ok a => k a
  | Raise e => Raise e
  end.

(** The values that flow through the cache: [Any] restricted to what
    [pickle] and [json] both serialize. A [PyDict] lists its items in
    insertion order. *)
Inductive pyobj : Type :=
| PyNone
| PyBool (b : bool)
| PyInt (z : Z)
| PyFloat (f : float)
| PyStr (s : string)
| PyList (l : list pyobj)
| PyDict (items : list (string * pyobj)).

(** [len(s)] *)
Definition len (s : string) : Z := Z.of_nat (String.length s).

(** How CPython normalises one bound of [s[i:j]] and of the optional
    bounds of [str.rfind]: a negative bound counts from the end, and
    the result is clamped to [0 .. n]. *)
Definition adjust_index (i n : Z) : Z :=
  if i <? 0 then Z.max (i + n) 0 else Z.min i n.

(** [s[start:stop]] *)
Definition slice (s : string) (start stop : Z) : string :=
  let n := len s in
  let a := adjust_index start n in
  let b := adjust_index stop n in
  substring (Z.to_nat a) (Z.to_nat (b - a)) s.

Fixpoint rfind_from (c : ascii) (s : string) (i lo hi best : Z) : Z :=
  match s with
  | EmptyString => best
  | String a s' =>
      rfind_from c s' (i + 1) lo hi
        (if (lo <=? i) && (i <? hi) && Ascii.eqb a c then i else best)
  end.

(** [s.rfind(c, start, stop)] for a one-character [c]: the highest
    index of [c] inside the normalised window, or [-1]. *)
Definition rfind (s : string) (c : ascii) (start stop : Z) : Z :=
  rfind_from c s 0 (adjust_index start (len s)) (adjust_index stop (len s)) (-1).

(** [str.isspace] on code points below 256. *)
Definition isspace (a : ascii) : bool :=
  let n := N_of_ascii a in
  ((9 <=? n) && (n <=? 13) || (28 <=? n) && (n <=? 32)
   || (n =? 133) || (n =? 160))%N.

Fixpoint lstrip (s : string) : string :=
  match s with
  | EmptyString => EmptyString
  | String a s' => if isspace a then lstrip s' else s
  end.

Fixpoint rstrip (s : string) : string :=
  match s with
  | EmptyString => EmptyString
  | String a s' =>
      match rstrip s' with
      | EmptyString => if isspace a then EmptyString else String a EmptyString
      | r => String a r
      end
  end.

(** [s.strip()] *)
Definition strip (s : string) : string := rstrip (lstrip s).

(** Truth value of a [str]: non-empty. *)
Definition str_truthy (s : string) : bool :=
  match s with
  | EmptyString => false
  | String _ _ => true
  end.

(** [c * n] for a one-character string. *)
Definition str_mul (c : ascii) (n : nat) : string :=
  string_of_list_ascii (repeat c n).

(** [str(z)] for an [int]. *)
Definition str_of_int (z : Z) : string :=
  NilZero.string_of_int (Z.to_int z).

(** Truth value of an object, as [x or y] and [if x] test it. *)
Definition truthy (o : pyobj) : bool :=
  match o with
  | PyNone => false
  | PyBool b => b
  | PyInt z => negb (z =? 0)
  | PyFloat f => negb (PrimFloat.eqb f 0%float)
  | PyStr s => str_truthy s
  | PyList l => match l with [] => false | _ => true end
  | PyDict items => match items with [] => false | _ => true end
  end.

(** [sep.join(parts)] *)
Fixpoint join (sep : string) (parts : list string) : string :=
  match parts with
  | [] => EmptyString
  | [p] => p
  | p :: rest => (p ++ sep ++ join sep rest)%string
  end.

(** *** [list.sort] and [sorted]

    CPython sorts stably with the [<] of the keys. [insert_sorted]
    places an element in front of the first one that does not sort
    strictly before it, so that [stable_sort] keeps elements that
    compare equal in their input order. With [reverse=True] CPython
    reverses the list, sorts it stably and reverses the result. *)
Section Sort.
Context {A : Type} (lt : A -> A -> bool).

Fixpoint insert_sorted (x : A) (l : list A) : list A :=
  match l with
  | [] => [x]
  | y :: l' => if lt y x then y :: insert_sorted x l' else x :: y :: l'
  end.

Definition stable_sort (l : list A) : list A :=
  List.fold_right insert_sorted [] l.

Definition sort (reverse : bool) (l : list A) : list A :=
  if reverse then List.rev (stable_sort (List.rev l)) else stable_sort l.
End Sort.

(** What the interpreter provides and the embedding leaves abstract:
    the SHA-256 digest and the shortest decimal form of a float. *)
Class Runtime : Type := {
  (** [hashlib.sha256(s.encode()).hexdigest()] *)
  sha256_hexdigest : string -> string;
  (** [float.__repr__] on a finite float *)
  float_repr : float -> string
}.

(** [str(o)] for the objects that are neither [dict] nor [list] (the
    only ones [_generate_key] passes to [str]; the [repr] of a
    container is not modelled). *)
Definition str_scalar `{Runtime} (o : pyobj) : string :=
  match o with
  | PyNone => "None"
  | PyBool b => if b then "True" else "False"
  | PyInt z => str_of_int z
  | PyFloat f => float_repr f
  | PyStr s => s
  | PyList _ | PyDict _ => EmptyString
  end.

(** *** [json.dumps(o, sort_keys=True)] *)

Definition hex_digit (n : N) : ascii :=
  match String.get (N.to_nat n) "0123456789abcdef" with
  | Some a => a
  | None => "0"%char
  end.

Definition backslash : ascii := "092"%char.
Definition dquote : ascii := "034"%char.

(** One character under [json.encoder.ESCAPE_ASCII]. *)
Definition escape_char (a : ascii) : string :=
  let n := N_of_ascii a in
  let esc (c : ascii) := String backslash (String c EmptyString) in
  if (n =? 92)%N then esc backslash
  else if (n =? 34)%N then esc dquote
  else if (n =? 8)%N then esc "b"%char
  else if (n =? 12)%N then esc "f"%char
  else if (n =? 10)%N then esc "n"%char
  else if (n =? 13)%N then esc "r"%char
  else if (n =? 9)%N then esc "t"%char
  else if ((32 <=? n) && (n <=? 126))%N then String a EmptyString
  else String backslash
         ("u00" ++ String (hex_digit (n / 16)) (String (hex_digit (n mod 16)) EmptyString))%string.

Definition encode_basestring_ascii (s : string) : string :=
  String dquote
    (String.concat EmptyString (List.map escape_char (list_ascii_of_string s))
     ++ String dquote EmptyString)%string.

(** [json.encoder.floatstr] *)
Definition json_float `{Runtime} (f : float) : string :=
  if negb (PrimFloat.eqb f f) then "NaN"
  else if PrimFloat.eqb f infinity then "Infinity"
  else if PrimFloat.eqb f neg_infinity then "-Infinity"
  else float_repr f.

(** [sorted(d.items())] on items whose second component is already
    encoded: tuples of a dict differ in their keys, so the keys
    decide. *)
Definition key_lt {B : Type} (x y : string * B) : bool :=
  String.ltb (fst x) (fst y).

Definition json_item (kv : string * string) : string :=
  (encode_basestring_ascii (fst kv) ++ ": " ++ snd kv)%string.

(** The encoder sorts the items of a dict and then encodes each value;
    here each value is encoded first (the recursion is then on the
    items as they stand) and the encoded items are sorted: the order
    looks at keys only, see [sort_items_encoded]. *)
Fixpoint json_dumps `{Runtime} (o : pyobj) : string :=
  match o with
  | PyNone => "null"
  | PyBool b => if b then "true" else "false"
  | PyInt z => str_of_int z
  | PyFloat f => json_float f
  | PyStr s => encode_basestring_ascii s
  | PyList l => ("[" ++ join ", " (List.map json_dumps l) ++ "]")%string
  | PyDict items =>
      ("{" ++ join ", "
         (List.map json_item
            (stable_sort key_lt
               (List.map (fun kv => (fst kv, json_dumps (snd kv))) items)))
       ++ "}")%string
  end.

(** [o[key]] for a string key. *)
Fixpoint dict_get (items : list (string * pyobj)) (key : string) : option pyobj :=
  match items with
  | [] => None
  | (k, v) :: rest => if String.eqb k key then Some v else dict_get rest key
  end.

Definition getitem (o : pyobj) (key : string) : res pyobj :=
  match o with
  | PyDict items =>
      match dict_get items key with
      | Some v => Ok v
      | None => Raise (KeyError key)
      end
  | PyList _ => Raise (TypeError "list indices must be integers or slices, not str")
  | PyStr _ => Raise (TypeError "string indices must be integers")
  | _ => Raise (TypeError "object is not subscriptable")
  end.

(** *** More of [str] *)

(** [c.lower()] on code points below 256: the letters A-Z and the
    capital letters of Latin-1 (192-222 without the multiplication
    sign 215) move up by 32. *)
Definition lower_char (a : ascii) : ascii :=
  let n := N_of_ascii a in
  if ((65 <=? n) && (n <=? 90) || (192 <=? n) && (n <=? 222) && negb (n =? 215))%N
  then ascii_of_N (n + 32)
  else a.

(** [s.lower()] *)
Fixpoint lower (s : string) : string :=
  match s with
  | EmptyString => EmptyString
  | String a s' => String (lower_char a) (lower s')
  end.

(** The loop of [s.split()]: [word] is the word being read. *)
Fixpoint split_from (s : string) (word : string) : list string :=
  match s with
  | EmptyString => if str_truthy word then [word] else []
  | String a s' =>
      if isspace a then
        if str_truthy word then word :: split_from s' EmptyString
        else split_from s' EmptyString
      else split_from s' (word ++ String a EmptyString)%string
  end.

(** [s.split()]: the words between runs of whitespace. *)
Definition split (s : string) : list string := split_from s EmptyString.

(** [float(n)] for an [int] that fits a machine word. *)
Definition float_of_int (n : Z) : float := PrimFloat.of_uint63 (Uint63.of_Z n).

End Py.

(** ** chunking.py *)

Module Chunking.
Import Py.

Record DocumentChunker : Type := {
  chunk_size : Z;
  chunk_overlap : Z
}.

(** [DocumentChunker()] *)
Definition default : DocumentChunker :=
  {| chunk_size := 500; chunk_overlap := 50 |}.

(** Lines 41-51 of [chunk_by_tokens]: the right edge of the window
    that starts at [start], after the sentence-boundary adjustment. *)
Definition window_end (self : DocumentChunker) (text : string) (start : Z) : Z :=
  let end_ := start + chunk_size self in
  if end_ <? len text then
    let period_idx := rfind text "."%char start end_ in
    let newline_idx := rfind text "010"%char start end_ in
    let break_idx := Z.max period_idx newline_idx in
    if break_idx >? start then break_idx + 1 else end_
  else end_.

(** One pass through the body of the [while] loop (lines 41-57), on
    the loop's variables [start] and [chunks]. *)
Definition loop_body (self : DocumentChunker) (text : string)
    (st : Z * list string) : Z * list string :=
  let '(start, chunks) := st in
  let end_ := window_end self text start in
  let chunk := strip (slice text start end_) in
  let chunks := if str_truthy chunk then (chunks ++ [chunk])%list else chunks in
  (end_ - chunk_overlap self, chunks).

(** The [while start < len(text)] loop. [fuel] bounds the number of
    passes: [None] means the bound was reached with the guard still
    true. *)
Fixpoint while_loop (fuel : nat) (self : DocumentChunker) (text : string)
    (st : Z * list string) : option (list string) :=
  if fst st <? len text then
    match fuel with
    | O => None
    | S fuel' => while_loop fuel' self text (loop_body self text st)
    end
  else Some (snd st).

Definition chunk_by_tokens (fuel : nat) (self : DocumentChunker)
    (text : string) : option (list string) :=
  if negb (str_truthy text) || (len text =? 0) then Some []
  else while_loop fuel self text (0, []).

(** The loop variables after [n] passes, guard not consulted. *)
Fixpoint iterate (n : nat) (self : DocumentChunker) (text : string)
    (st : Z * list string) : Z * list string :=
  match n with
  | O => st
  | S n' => iterate n' self text (loop_body self text st)
  end.

(** *** The paragraph and sentence strategies *)

(** After a newline at which [\n\s*\n] is tried: the number of
    characters that [\s*\n] takes from [s], which is up to and
    including the last newline of the whitespace [s] starts with
    ([\s*] is greedy and gives back until a newline follows). *)
Fixpoint blank_gap (s : string) : option nat :=
  match s with
  | EmptyString => None
  | String c r =>
      if isspace c then
        match blank_gap r with
        | Some n => Some (S n)
        | None => if Ascii.eqb c "010"%char then Some 1%nat else None
        end
      else None
  end.

(** The scan of [re.split(r'\n\s*\n', text)]: [skip] characters of a
    match are still to be passed over, [piece] is the piece being
    read. *)
Fixpoint split_paragraphs_from (s : string) (skip : nat) (piece : string) : list string :=
  match s with
  | EmptyString => [piece]
  | String c r =>
      match skip with
      | S k => split_paragraphs_from r k piece
      | O =>
          if Ascii.eqb c "010"%char then
            match blank_gap r with
            | Some n => piece :: split_paragraphs_from r n EmptyString
            | None => split_paragraphs_from r 0 (piece ++ String c EmptyString)%string
            end
          else split_paragraphs_from r 0 (piece ++ String c EmptyString)%string
      end
  end.

(** [re.split(r'\n\s*\n', text)] *)
Definition split_paragraphs (text : string) : list string :=
  split_paragraphs_from text 0 EmptyString.

Definition is_sentence_end (c : ascii) : bool :=
  Ascii.eqb c "."%char || Ascii.eqb c "!"%char || Ascii.eqb c "?"%char.

(** The scan of [re.split(r'(?<=[.!?])\s+', text)]: [after_end] says
    that the previous character is one of [.!?], [in_gap] that the
    scan is inside a matched run of whitespace. *)
Fixpoint split_sentences_from (s : string) (after_end in_gap : bool) (piece : string)
    : list string :=
  match s with
  | EmptyString => [piece]
  | String c r =>
      if isspace c && (in_gap || after_end) then
        if in_gap then split_sentences_from r false true piece
        else piece :: split_sentences_from r false true EmptyString
      else
        split_sentences_from r (is_sentence_end c) false
          (piece ++ String c EmptyString)%string
  end.

(** [re.split(r'(?<=[.!?])\s+', text)] *)
Definition split_sentences (text : string) : list string :=
  split_sentences_from text false false EmptyString.

(** The [for] loop that [chunk_by_paragraphs] and [chunk_by_sentences]
    share, on its variables [chunks] and [current_chunk]; [sep] is the
    separator the strategy puts between two units of a chunk. *)
Fixpoint pack_loop (sep : string) (self : DocumentChunker) (pieces : list string)
    (chunks : list string) (current_chunk : string) : list string * string :=
  match pieces with
  | [] => (chunks, current_chunk)
  | piece :: rest =>
      let piece := strip piece in
      if negb (str_truthy piece) then pack_loop sep self rest chunks current_chunk
      else if (len current_chunk + len piece >? chunk_size self) && str_truthy current_chunk
      then pack_loop sep self rest (chunks ++ [strip current_chunk]) piece
      else
        pack_loop sep self rest chunks
          (if str_truthy current_chunk then (current_chunk ++ sep ++ piece)%string
           else piece)
  end.

(** The loop and the flush of the last chunk after it. *)
Definition pack (sep : string) (self : DocumentChunker) (pieces : list string)
    : list string :=
  let '(chunks, current_chunk) := pack_loop sep self pieces [] EmptyString in
  if str_truthy current_chunk then chunks ++ [strip current_chunk] else chunks.

Definition paragraph_sep : string :=
  String "010"%char (String "010"%char EmptyString).

Definition chunk_by_paragraphs (self : DocumentChunker) (text : string) : list string :=
  pack paragraph_sep self (split_paragraphs text).

Definition chunk_by_sentences (self : DocumentChunker) (text : string) : list string :=
  pack " " self (split_sentences text).

(** One element of the list [chunk_document] returns. *)
Record chunk_data : Type := {
  c_text : string;
  c_chunk_id : Z;
  c_chunk_count : Z;
  c_metadata : pyobj
}.

(** The [enumerate] loop of [chunk_document], from index [i]. *)
Fixpoint wrap_chunks (all rest : list string) (i : Z) (metadata : pyobj)
    : list chunk_data :=
  match rest with
  | [] => []
  | chunk :: rest' =>
      {| c_text := chunk;
         c_chunk_id := i;
         c_chunk_count := Z.of_nat (List.length all);
         c_metadata := if truthy metadata then metadata else PyDict [] |}
      :: wrap_chunks all rest' (i + 1) metadata
  end.

(** [chunk_document]; [fuel] bounds the loop of [chunk_by_tokens] as
    above and is not used by the other strategies. *)
Definition chunk_document (fuel : nat) (self : DocumentChunker) (text : string)
    (strategy : string) (metadata : pyobj) : option (list chunk_data) :=
  let chunks :=
    if String.eqb strategy "paragraphs" then Some (chunk_by_paragraphs self text)
    else if String.eqb strategy "sentences" then Some (chunk_by_sentences self text)
    else chunk_by_tokens fuel self text in
  match chunks with
  | Some chunks => Some (wrap_chunks chunks chunks 0 metadata)
  | None => None
  end.

End Chunking.

(** ** cache.py *)

Module Cache.
Import Py.

(** What [pickle.load] meets in a cache file: the bytes [pickle.dump]
    wrote for an object, no bytes at all (a file opened for writing
    and never written), or bytes that start with no pickle opcode. *)
Inductive content : Type :=
| Pickled (o : pyobj)
| Empty
| Garbage.

Record file : Type := {
  f_content : content;
  st_mtime : Z
}.

(** The cache directory: the category sub-directories that exist, and
    the file [category/key.pkl] under the pair [(category, key)]. *)
Record fs : Type := {
  dirs : gset string;
  files : gmap (string * string) file
}.

Definition empty_fs : fs := {| dirs := ∅; files := ∅ |}.

Record CacheManager : Type := {
  ttl : Z
}.

(** [CacheManager.__init__]: the three [mkdir(exist_ok=True)] calls. *)
Definition init (ttl_ : Z) (d : fs) : CacheManager * fs :=
  ({| ttl := ttl_ |},
   {| dirs := dirs d ∪ {[ "embeddings" ]} ∪ {[ "queries" ]} ∪ {[ "responses" ]};
      files := files d |}).

Definition _generate_key `{Runtime} (data : pyobj) : string :=
  let data_str :=
    match data with
    | PyDict _ | PyList _ => json_dumps data
    | _ => str_scalar data
    end in
  sha256_hexdigest data_str.

(** *** Names

    The pair [(category, key)] stands for the file
    [cache_dir / category / f"{key}.pkl"] when both strings are plain
    names, as the SHA-256 hex digests and the three fixed categories
    are: the path then has exactly these components, two pairs that
    differ are two files, and the file system accepts the name. A
    string with a slash or a NUL, or with more bytes than a directory
    entry may have, is outside the model ([open] raises on it, or the
    path leads elsewhere), and so are the empty category and the
    categories [.] and [..], which name no sub-directory of the cache
    directory. Names are told apart by their bytes. *)

(** The number of bytes of the UTF-8 form of a string of code points
    below 256. *)
Fixpoint utf8_length (s : string) : Z :=
  match s with
  | EmptyString => 0
  | String a s' => (if (N_of_ascii a <? 128)%N then 1 else 2) + utf8_length s'
  end.

(** No slash and no NUL. *)
Fixpoint name_chars (s : string) : bool :=
  match s with
  | EmptyString => true
  | String a s' =>
      negb (Ascii.eqb a "/"%char) && negb (Ascii.eqb a "000"%char) && name_chars s'
  end.

(** The longest directory entry, in bytes. *)
Definition NAME_MAX : Z := 255.

(** [key] makes [f"{key}.pkl"] one file name. *)
Definition plain_key (key : string) : bool :=
  name_chars key && (utf8_length key + 4 <=? NAME_MAX).

(** [category] names one sub-directory of the cache directory. *)
Definition plain_category (category : string) : bool :=
  name_chars category && (utf8_length category <=? NAME_MAX)
  && str_truthy category && negb (String.eqb category ".")
  && negb (String.eqb category "..").

(** [self.cache_dir / category / f"{key}.pkl"], for plain names. *)
Definition _get_cache_path (key category : string) : string * string :=
  (category, key).

Definition _is_expired (self : CacheManager) (d : fs) (now : Z)
    (file_path : string * string) : bool :=
  match files d !! file_path with
  | None => true
  | Some f =>
      let file_age := now - st_mtime f in
      file_age >? ttl self
  end.

(** [open(cache_path, 'wb')] followed by [pickle.dump], for plain
    names: [open] raises when the directory of the category is
    missing. *)
Definition set (self : CacheManager) (d : fs) (now : Z)
    (key : string) (value : pyobj) (category : string) : res unit * fs :=
  let cache_path := _get_cache_path key category in
  if bool_decide (category ∈ dirs d) then
    (Ok tt,
     {| dirs := dirs d;
        files := <[ cache_path :=
                    {| f_content :=
                         Pickled (PyDict [("value", value); ("timestamp", PyInt now)]);
                       st_mtime := now |} ]> (files d) |})
  else (Raise FileNotFoundError, d).

(** [open(cache_path, 'rb')] followed by [pickle.load]. *)
Definition pickle_load (d : fs) (cache_path : string * string) : res pyobj :=
  match files d !! cache_path with
  | None => Raise FileNotFoundError
  | Some f =>
      match f_content f with
      | Pickled o => Ok o
      | Empty => Raise EOFError
      | Garbage => Raise UnpicklingError
      end
  end.

Definition get (self : CacheManager) (d : fs) (now : Z)
    (key category : string) : res pyobj :=
  let cache_path := _get_cache_path key category in
  if _is_expired self d now cache_path then Ok PyNone
  else
    match bind (pickle_load d cache_path) (fun data => getitem data "value") with
    | Raise FileNotFoundError | Raise UnpicklingError => Ok PyNone
    | r => r
    end.

Definition cache_query_result `{Runtime} (self : CacheManager) (d : fs) (now : Z)
    (query : string) (result : pyobj) : res unit * fs :=
  let key := _generate_key (PyStr query) in
  set self d now key result "queries".

Definition get_cached_query `{Runtime} (self : CacheManager) (d : fs) (now : Z)
    (query : string) : res pyobj :=
  let key := _generate_key (PyStr query) in
  get self d now key "queries".

(** *** The other wrappers and the maintenance operations *)

Definition cache_embedding `{Runtime} (self : CacheManager) (d : fs) (now : Z)
    (text : string) (embedding : pyobj) : res unit * fs :=
  let key := _generate_key (PyStr text) in
  set self d now key embedding "embeddings".

Definition get_cached_embedding `{Runtime} (self : CacheManager) (d : fs) (now : Z)
    (text : string) : res pyobj :=
  let key := _generate_key (PyStr text) in
  get self d now key "embeddings".

Definition response_key `{Runtime} (query context : string) : string :=
  _generate_key (PyDict [("query", PyStr query); ("context", PyStr context)]).

Definition cache_response `{Runtime} (self : CacheManager) (d : fs) (now : Z)
    (query context response : string) : res unit * fs :=
  set self d now (response_key query context) (PyStr response) "responses".

Definition get_cached_response `{Runtime} (self : CacheManager) (d : fs) (now : Z)
    (query context : string) : res pyobj :=
  get self d now (response_key query context) "responses".

(** [category_dir.glob("*.pkl")]: the entries of the category, in
    the order in which the directory lists them; nothing when the
    directory does not exist. *)
Definition glob_pkl (d : fs) (category : string) : list (string * string) :=
  if bool_decide (category ∈ dirs d) then
    List.filter (fun path => String.eqb (fst path) category)
      (List.map fst (map_to_list (files d)))
  else [].

(** [cache_file.unlink()] *)
Definition unlink (d : fs) (cache_file : string * string) : fs :=
  {| dirs := dirs d; files := base.delete cache_file (files d) |}.

(** [clear_category]: the count and the directory after the loop. *)
Definition clear_category (self : CacheManager) (d : fs) (category : string) : Z * fs :=
  List.fold_left
    (fun acc cache_file => (fst acc + 1, unlink (snd acc) cache_file))
    (glob_pkl d category) (0, d).

(** The inner loop of [clear_expired] for one category. *)
Definition clear_expired_in (self : CacheManager) (now : Z) (acc : Z * fs)
    (category : string) : Z * fs :=
  List.fold_left
    (fun acc cache_file =>
       if _is_expired self (snd acc) now cache_file
       then (fst acc + 1, unlink (snd acc) cache_file)
       else acc)
    (glob_pkl (snd acc) category) acc.

Definition fixed_categories : list string := ["embeddings"; "queries"; "responses"].

Definition clear_expired (self : CacheManager) (d : fs) (now : Z) : Z * fs :=
  List.fold_left (clear_expired_in self now) fixed_categories (0, d).

Record category_stats : Type := {
  total : Z;
  expired : Z
}.

Definition get_stats (self : CacheManager) (d : fs) (now : Z)
    : list (string * category_stats) :=
  List.map
    (fun category =>
       let files_ := glob_pkl d category in
       (category,
        {| total := Z.of_nat (List.length files_);
           expired :=
             Z.of_nat (List.length (List.filter (_is_expired self d now) files_)) |}))
    fixed_categories.

End Cache.

(** ** vector_store.py *)

Module VectorStore.
Import Py.

Record VectorDocument : Type := {
  id : string;
  content : string;
  embedding : list float;
  metadata : pyobj
}.

Record t : Type := {
  dimension : Z;
  documents : list VectorDocument;
  index_to_id : gmap nat string
}.

(** [VectorStore(dimension)] *)
Definition init (dimension_ : Z) : t :=
  {| dimension := dimension_; documents := []; index_to_id := ∅ |}.

(** [embedding.shape[0]] of a one-dimensional array. *)
Definition shape0 (v : list float) : Z := Z.of_nat (List.length v).

Definition add_document (self : t) (doc_id content_ : string)
    (embedding_ : list float) (metadata_ : pyobj) : res unit * t :=
  if negb (shape0 embedding_ =? dimension self) then
    (Raise (ValueError
              ("Embedding dimension mismatch: expected "
               ++ str_of_int (dimension self) ++ ", got "
               ++ str_of_int (shape0 embedding_))%string),
     self)
  else
    let doc := {| id := doc_id; content := content_; embedding := embedding_;
                  metadata := if truthy metadata_ then metadata_ else PyDict [] |} in
    let documents' := (documents self ++ [doc])%list in
    (Ok tt,
     {| dimension := dimension self;
        documents := documents';
        index_to_id := <[ (List.length documents' - 1)%nat := doc_id ]> (index_to_id self) |}).

(** The sum of products that [np.dot] computes for two arrays of one
    length, accumulated left to right. *)
Definition dot_sum (a b : list float) : float :=
  List.fold_left (fun acc xy => (acc + fst xy * snd xy)%float) (List.combine a b) 0%float.

(** [np.dot] of two one-dimensional arrays. *)
Definition dot (a b : list float) : res float :=
  if shape0 a =? shape0 b then Ok (dot_sum a b)
  else
    Raise (ValueError
             ("shapes (" ++ str_of_int (shape0 a) ++ ",) and (" ++ str_of_int (shape0 b)
              ++ ",) not aligned")%string).

(** [np.linalg.norm] of a one-dimensional array: the square root of
    its product with itself. *)
Definition norm (a : list float) : float := PrimFloat.sqrt (dot_sum a a).

Definition cosine_similarity (a b : list float) : res float :=
  bind (dot a b) (fun d => Ok (d / (norm a * norm b))%float).

(** The [for doc in self.documents] loop of [search]. *)
Fixpoint similarities_loop (query_embedding : list float) (threshold : float)
    (docs : list VectorDocument) (similarities : list (VectorDocument * float))
    : res (list (VectorDocument * float)) :=
  match docs with
  | [] => Ok similarities
  | doc :: rest =>
      bind (cosine_similarity query_embedding (embedding doc)) (fun similarity =>
        similarities_loop query_embedding threshold rest
          (if (threshold <=? similarity)%float
           then (similarities ++ [(doc, similarity)])%list
           else similarities))
  end.

(** The order of [key=lambda x: x[1]]. *)
Definition score_lt (x y : VectorDocument * float) : bool :=
  (snd x <? snd y)%float.

(** [l[:k]] *)
Definition take_slice {A : Type} (l : list A) (k : Z) : list A :=
  List.firstn (Z.to_nat (adjust_index k (Z.of_nat (List.length l)))) l.

Definition search (self : t) (query_embedding : list float) (top_k : Z)
    (threshold : float) : res (list (VectorDocument * float)) :=
  if (List.length (documents self) =? 0)%nat then Ok []
  else
    bind (similarities_loop query_embedding threshold (documents self) [])
      (fun similarities => Ok (take_slice (sort score_lt true similarities) top_k)).

Fixpoint get_by_id (docs : list VectorDocument) (doc_id : string) : option VectorDocument :=
  match docs with
  | [] => None
  | doc :: rest => if String.eqb (id doc) doc_id then Some doc else get_by_id rest doc_id
  end.

(** The position at which the [enumerate] loop of [delete] stops. *)
Fixpoint first_index (docs : list VectorDocument) (doc_id : string) (i : nat) : option nat :=
  match docs with
  | [] => None
  | doc :: rest => if String.eqb (id doc) doc_id then Some i else first_index rest doc_id (S i)
  end.

(** [{j: d.id for j, d in enumerate(docs)}] *)
Definition rebuild_index (docs : list VectorDocument) : gmap nat string :=
  map_seq 0 (id <$> docs).

Definition delete (self : t) (doc_id : string) : bool * t :=
  match first_index (documents self) doc_id 0 with
  | Some i =>
      let documents' := base.delete i (documents self) in
      (true,
       {| dimension := dimension self;
          documents := documents';
          index_to_id := rebuild_index documents' |})
  | None => (false, self)
  end.

Definition clear (self : t) : t :=
  {| dimension := dimension self; documents := []; index_to_id := ∅ |}.

Definition size (self : t) : Z := Z.of_nat (List.length (documents self)).

(** The operations a client can apply to a store. *)
Inductive op : Type :=
| Insert (doc_id content_ : string) (embedding_ : list float) (metadata_ : pyobj)
| Delete (doc_id : string)
| Clear.

Definition apply (self : t) (o : op) : t :=
  match o with
  | Insert doc_id content_ embedding_ metadata_ =>
      snd (add_document self doc_id content_ embedding_ metadata_)
  | Delete doc_id => snd (delete self doc_id)
  | Clear => clear self
  end.

(** The stores a sequence of operations reaches from a new store. *)
Inductive reachable : t -> Prop :=
| reachable_init (d : Z) : reachable (init d)
| reachable_step (s : t) (o : op) : reachable s -> reachable (apply s o).

End VectorStore.

(** ** The external collaborators and the observable effects *)

Module World.
Import Py.

(** The embedding model ([src.embeddings], not part of the core), the
    language model behind [ResponseGenerator.generate_answer], and how
    the interpreter prints an exception. *)
Class Collaborators : Type := {
  (** [EmbeddingGenerator.embed_query] *)
  embed_query : string -> res (list float);
  (** [client.chat.completions.create(...).choices[0].message.content]
      for a query and its context *)
  chat_completion : string -> string -> res string;
  response_model_name : string;
  (** [str(error)] *)
  str_exn : exn -> string;
  (** [traceback.format_exc()] while [error] is handled *)
  format_exc : exn -> string
}.

(** What a run does besides computing its result, in the order in
    which it happens: calls of the collaborators, scans of the index
    and log records. *)
Inductive event : Type :=
| EmbedQuery (query : string)
| IndexSearch
| Generate (query context : string)
| LogInfo (message : string)
| LogError (message : string).

End World.

(** ** query_processor.py *)

Module QueryProcessor.
Import Py World.

(** One formatted result of [process_query]. *)
Record result : Type := {
  r_content : string;
  r_score : float;
  r_metadata : pyobj;
  r_doc_id : string
}.

Definition format_result (x : VectorStore.VectorDocument * float) : result :=
  {| r_content := VectorStore.content (fst x);
     r_score := snd x;
     r_metadata := VectorStore.metadata (fst x);
     r_doc_id := VectorStore.id (fst x) |}.

Definition process_query `{Collaborators} (vector_store : VectorStore.t)
    (query : string) (top_k : Z) (threshold : float)
    : res (list result) * list event :=
  match embed_query query with
  | Raise e => (Raise e, [EmbedQuery query])
  | Ok query_embedding =>
      match VectorStore.search vector_store query_embedding top_k threshold with
      | Raise e => (Raise e, [EmbedQuery query; IndexSearch])
      | Ok results =>
          (Ok (List.map format_result results), [EmbedQuery query; IndexSearch])
      end
  end.

(** The [for result in results] loop of [get_context_for_generation],
    on its variables [context_parts] and [total_length]. *)
Fixpoint context_loop (results : list result) (max_context_length : Z)
    (context_parts : list string) (total_length : Z) : list string * Z :=
  match results with
  | [] => (context_parts, total_length)
  | r :: rest =>
      let content := r_content r in
      if total_length + len content <=? max_context_length then
        context_loop rest max_context_length
          (context_parts ++ [content])%list (total_length + len content)
      else (context_parts, total_length)
  end.

Definition double_newline : string :=
  String "010"%char (String "010"%char EmptyString).

Record context_data : Type := {
  c_query : string;
  c_context : string;
  c_sources : list result;
  c_num_sources : Z
}.

(** Lines 136-153: the assembly of the context from the results. *)
Definition assemble (query : string) (results : list result)
    (max_context_length : Z) : context_data :=
  let context_parts := fst (context_loop results max_context_length [] 0) in
  {| c_query := query;
     c_context := join double_newline context_parts;
     c_sources := results;
     c_num_sources := Z.of_nat (List.length context_parts) |}.

Definition get_context_for_generation `{Collaborators} (vector_store : VectorStore.t)
    (query : string) (top_k : Z) (max_context_length : Z)
    : res context_data * list event :=
  match process_query vector_store query top_k 0.7%float with
  | (Raise e, evs) => (Raise e, evs)
  | (Ok results, evs) => (Ok (assemble query results max_context_length), evs)
  end.

(** *** Query expansion and re-ranking *)

(** [s.endswith('?')] *)
Fixpoint ends_with_question (s : string) : bool :=
  match s with
  | EmptyString => false
  | String c EmptyString => Ascii.eqb c "?"%char
  | String _ s' => ends_with_question s'
  end.

Definition expand_query (query : string) : list string :=
  if negb (ends_with_question query) then [query; (query ++ "?")%string]
  else [query].

(** [set(s.lower().split())] *)
Definition terms (s : string) : gset string := list_to_set (split (lower s)).

(** [len(query_terms.intersection(content_terms))] *)
Definition keyword_overlap (query_terms content_terms : gset string) : Z :=
  Z.of_nat (base.size (query_terms ∩ content_terms)).

(** The value stored under ['rerank_score']. *)
Definition rerank_score (query_terms : gset string) (r : result) : float :=
  (r_score r + float_of_int (keyword_overlap query_terms (terms (r_content r))) * 0.01)%float.

(** The order of [key=lambda x: x.get('rerank_score', x['score'])];
    every result has its ['rerank_score'] when the list is sorted. *)
Definition rerank_lt (x y : result * float) : bool := (snd x <? snd y)%float.

(** [rerank_results]: each result with the ['rerank_score'] it was
    given, in the order of the returned list. *)
Definition rerank_results (query : string) (results : list result)
    : list (result * float) :=
  let query_terms := terms query in
  sort rerank_lt true
    (List.map (fun r => (r, rerank_score query_terms r)) results).

End QueryProcessor.

(** ** response_generator.py and main.py *)

Module DocuMind.
Import Py World QueryProcessor.

(** [ResponseGenerator.generate_with_sources]: the answer and the
    source list it attaches (the other keys of [answer_data] are not
    read by [query]). *)
Definition source_entry (src : result) : pyobj :=
  PyDict [("doc_id", PyStr (r_doc_id src));
          ("score", PyFloat (r_score src));
          ("snippet", PyStr (slice (r_content src) 0 100 ++ "...")%string)].

Definition generate_with_sources `{Collaborators} (query context : string)
    (sources : list result) : res (string * pyobj) :=
  bind (chat_completion query context) (fun answer =>
    Ok (answer, PyList (List.map source_entry (VectorStore.take_slice sources 3)))).

Record t : Type := {
  use_cache : bool;
  cache : option Cache.CacheManager;
  vector_store : VectorStore.t;
  disk : Cache.fs;
  trace : list event
}.

(** The part of [DocuMind.__init__] that concerns the core. *)
Definition init (use_cache_ : bool) (cache_ttl : Z) (dimension : Z)
    (d : Cache.fs) : t :=
  let '(cache_, d') :=
    if use_cache_ then
      let '(cm, d') := Cache.init cache_ttl d in (Some cm, d')
    else (None, d) in
  {| use_cache := use_cache_;
     cache := cache_;
     vector_store := VectorStore.init dimension;
     disk := d';
     trace := [LogInfo "DocuMind initialized successfully"] |}.

Definition emit (self : t) (evs : list event) : t :=
  {| use_cache := use_cache self; cache := cache self;
     vector_store := vector_store self; disk := disk self;
     trace := (trace self ++ evs)%list |}.

Definition with_disk (self : t) (d : Cache.fs) : t :=
  {| use_cache := use_cache self; cache := cache self;
     vector_store := vector_store self; disk := d;
     trace := trace self |}.

Definition exn_name (e : exn) : string :=
  match e with
  | ValueError _ => "ValueError"
  | TypeError _ => "TypeError"
  | KeyError _ => "KeyError"
  | FileNotFoundError => "FileNotFoundError"
  | EOFError => "EOFError"
  | UnpicklingError => "UnpicklingError"
  | AttributeError _ => "AttributeError"
  | ExternalError name _ => name
  end.

(** [ErrorHandler.handle_error(e, context)] with [reraise=False]. *)
Definition handle_error `{Collaborators} (self : t) (error : exn)
    (context : string) : pyobj * t :=
  let error_details :=
    PyDict [("error_type", PyStr (exn_name error));
            ("error_message", PyStr (str_exn error));
            ("context", PyStr context);
            ("traceback", PyStr (format_exc error))] in
  (error_details,
   emit self [LogError ("Error in " ++ context ++ ": " ++ str_exn error)%string]).

Definition no_cache_attribute (attr : string) : exn :=
  AttributeError ("'NoneType' object has no attribute '" ++ attr ++ "'")%string.

(** [self.cache.get_cached_query(question)] *)
Definition read_cache `{Runtime} (self : t) (now : Z) (question : string) : res pyobj :=
  match cache self with
  | Some cm => Cache.get_cached_query cm (disk self) now question
  | None => Raise (no_cache_attribute "get_cached_query")
  end.

(** [self.cache.cache_query_result(question, result)] *)
Definition write_cache `{Runtime} (self : t) (now : Z) (question : string)
    (result_ : pyobj) : res unit * t :=
  match cache self with
  | Some cm =>
      let '(r, d) := Cache.cache_query_result cm (disk self) now question result_ in
      (r, with_disk self d)
  | None => (Raise (no_cache_attribute "cache_query_result"), self)
  end.

(** Lines 143-169 of [query]: the path taken when the cache gave
    nothing. *)
Definition compute `{Runtime} `{Collaborators} (self : t) (now : Z)
    (question : string) (top_k : Z) : res pyobj * t :=
  let '(context_r, evs) :=
    get_context_for_generation (vector_store self) question top_k 2000 in
  let self := emit self evs in
  match context_r with
  | Raise e => (Raise e, self)
  | Ok context_data =>
      let self := emit self [Generate question (c_context context_data)] in
      match generate_with_sources question (c_context context_data)
              (c_sources context_data) with
      | Raise e => (Raise e, self)
      | Ok (answer, sources) =>
          let result_ :=
            PyDict [("status", PyStr "success");
                    ("query", PyStr question);
                    ("answer", PyStr answer);
                    ("sources", sources);
                    ("num_sources", PyInt (c_num_sources context_data))] in
          let '(written, self) :=
            if use_cache self then write_cache self now question result_
            else (Ok tt, self) in
          match written with
          | Raise e => (Raise e, self)
          | Ok _ => (Ok result_, emit self [LogInfo "Query processed successfully"])
          end
      end
  end.

(** The body of the [try] of [query]. *)
Definition query_body `{Runtime} `{Collaborators} (self : t) (now : Z)
    (question : string) (top_k : Z) : res pyobj * t :=
  let self := emit self [LogInfo ("Processing query: " ++ question)%string] in
  if use_cache self then
    match read_cache self now question with
    | Raise e => (Raise e, self)
    | Ok PyNone => compute self now question top_k
    | Ok cached_result =>
        (Ok cached_result, emit self [LogInfo "Returning cached query result"])
    end
  else compute self now question top_k.

(** [DocuMind.query(question, top_k)] called when the clock reads [now]. *)
Definition query `{Runtime} `{Collaborators} (self : t) (now : Z)
    (question : string) (top_k : Z) : pyobj * t :=
  match query_body self now question top_k with
  | (Ok r, self') => (r, self')
  | (Raise e, self') => handle_error self' e "query"
  end.

(** *** Statistics, cache clearing and ingestion *)

Definition stats_obj (st : string * Cache.category_stats) : string * pyobj :=
  (fst st, PyDict [("total", PyInt (Cache.total (snd st)));
                   ("expired", PyInt (Cache.expired (snd st)))]).

(** [DocuMind.get_stats()] called when the clock reads [now]. *)
Definition get_stats (self : t) (now : Z) : res pyobj :=
  let stats :=
    [("documents_in_store", PyInt (VectorStore.size (vector_store self)));
     ("cache_enabled", PyBool (use_cache self))] in
  if use_cache self then
    match cache self with
    | Some cm =>
        Ok (PyDict (stats ++
                    [("cache_stats",
                      PyDict (List.map stats_obj (Cache.get_stats cm (disk self) now)))]))
    | None => Raise (no_cache_attribute "get_stats")
    end
  else Ok (PyDict stats).

(** [DocuMind.clear_cache()] called when the clock reads [now]. *)
Definition clear_cache (self : t) (now : Z) : res pyobj * t :=
  if negb (use_cache self) then
    (Ok (PyDict [("status", PyStr "error"); ("message", PyStr "Cache not enabled")]), self)
  else
    match cache self with
    | Some cm =>
        let '(expired, d) := Cache.clear_expired cm (disk self) now in
        (Ok (PyDict [("status", PyStr "success");
                     ("expired_entries_cleared", PyInt expired)]),
         with_disk self d)
    | None => (Raise (no_cache_attribute "clear_expired"), self)
    end.

(** The PDF extractor and the embedding model, as [process_pdf] uses
    them. *)
Class Ingestion : Type := {
  (** [PDFProcessor.process_document(file_path)]: the text and the
      metadata of the record it returns *)
  process_document : string -> res (string * pyobj);
  (** [EmbeddingGenerator.embed_text] *)
  embed_text : string -> res (list float)
}.

(** An embedding array as an object of the cache: the list of its
    components. *)
Definition array_obj (v : list float) : pyobj := PyList (List.map PyFloat v).

Fixpoint floats_of (l : list pyobj) : option (list float) :=
  match l with
  | [] => Some []
  | PyFloat f :: l' =>
      match floats_of l' with
      | Some v => Some (f :: v)
      | None => None
      end
  | _ => None
  end.

(** What [embedding.shape] finds when [embedding] is an object read
    from the cache. *)
Definition as_array (o : pyobj) : res (list float) :=
  match o with
  | PyList l =>
      match floats_of l with
      | Some v => Ok v
      | None => Raise (AttributeError "object has no attribute 'shape'")
      end
  | _ => Raise (AttributeError "object has no attribute 'shape'")
  end.

Definition with_vector_store (self : t) (vs : VectorStore.t) : t :=
  {| use_cache := use_cache self; cache := cache self;
     vector_store := vs; disk := disk self;
     trace := trace self |}.

(** Lines 91-100 of [process_pdf]: the embedding of one chunk, and
    the text handed to the embedding model when it was called. *)
Definition chunk_embedding `{Runtime} `{Ingestion} (self : t) (now : Z) (text : string)
    : res pyobj * t * list string :=
  if use_cache self then
    match cache self with
    | None => (Raise (no_cache_attribute "get_cached_embedding"), self, [])
    | Some cm =>
        match Cache.get_cached_embedding cm (disk self) now text with
        | Raise e => (Raise e, self, [])
        | Ok PyNone =>
            match embed_text text with
            | Raise e => (Raise e, self, [text])
            | Ok embedding =>
                let '(written, d) :=
                  Cache.cache_embedding cm (disk self) now text (array_obj embedding) in
                match written with
                | Raise e => (Raise e, with_disk self d, [text])
                | Ok _ => (Ok (array_obj embedding), with_disk self d, [text])
                end
            end
        | Ok cached_embedding => (Ok cached_embedding, self, [])
        end
    end
  else
    match embed_text text with
    | Raise e => (Raise e, self, [text])
    | Ok embedding => (Ok (array_obj embedding), self, [text])
    end.

(** [f"{file_path}_{chunk['chunk_id']}"] *)
Definition chunk_doc_id (file_path : string) (chunk : Chunking.chunk_data) : string :=
  (file_path ++ "_" ++ str_of_int (Chunking.c_chunk_id chunk))%string.

(** The [for chunk in chunks] loop of [process_pdf]; [embedded]
    collects the texts handed to the embedding model. *)
Fixpoint ingest_loop `{Runtime} `{Ingestion} (file_path : string) (now : Z)
    (chunks : list Chunking.chunk_data) (self : t) (embedded : list string)
    : res unit * t * list string :=
  match chunks with
  | [] => (Ok tt, self, embedded)
  | chunk :: rest =>
      let '(embedding_r, self, called) :=
        chunk_embedding self now (Chunking.c_text chunk) in
      let embedded := embedded ++ called in
      match bind embedding_r as_array with
      | Raise e => (Raise e, self, embedded)
      | Ok embedding =>
          match VectorStore.add_document (vector_store self)
                  (chunk_doc_id file_path chunk) (Chunking.c_text chunk) embedding
                  (Chunking.c_metadata chunk) with
          | (Raise e, _) => (Raise e, self, embedded)
          | (Ok _, vs) =>
              ingest_loop file_path now rest (with_vector_store self vs) embedded
          end
      end
  end.

(** The body of the [try] of [process_pdf]; [chunker] is
    [self.chunker]. With the paragraph strategy [chunk_document]
    always has a result, so the default is never taken. *)
Definition process_pdf_body `{Runtime} `{Ingestion} (chunker : Chunking.DocumentChunker)
    (self : t) (now : Z) (file_path : string) : res pyobj * t * list string :=
  let self := emit self [LogInfo ("Processing PDF: " ++ file_path)%string] in
  match process_document file_path with
  | Raise e => (Raise e, self, [])
  | Ok (text, metadata) =>
      let chunks :=
        default [] (Chunking.chunk_document 0 chunker text "paragraphs" metadata) in
      match ingest_loop file_path now chunks self [] with
      | (Raise e, self, embedded) => (Raise e, self, embedded)
      | (Ok _, self, embedded) =>
          (Ok (PyDict [("status", PyStr "success");
                       ("chunks_processed", PyInt (Z.of_nat (List.length chunks)));
                       ("file_path", PyStr file_path)]),
           emit self
             [LogInfo ("Successfully processed "
                       ++ str_of_int (Z.of_nat (List.length chunks))
                       ++ " chunks from PDF")%string],
           embedded)
      end
  end.

(** [DocuMind.process_pdf(file_path)] called when the clock reads
    [now]: the record returned, the application afterwards, and the
    texts that were embedded. *)
Definition process_pdf `{Runtime} `{Collaborators} `{Ingestion}
    (chunker : Chunking.DocumentChunker) (self : t) (now : Z) (file_path : string)
    : pyobj * t * list string :=
  match process_pdf_body chunker self now file_path with
  | (Ok r, self', embedded) => (r, self', embedded)
  | (Raise e, self', embedded) =>
      let '(r, self'') := handle_error self' e "process_pdf" in (r, self'', embedded)
  end.

End DocuMind.

(** ** [src/rag_pipeline.py] *)

Module RagPipeline.
Import Py.

Record Document : Type := {
  content : string;
  metadata : pyobj;
  doc_id : string;
  chunk_id : Z
}.

(** A value of [processed_docs]: the record with the keys [content],
    [metadata] and [chunks]. *)
Record processed : Type := {
  p_content : string;
  p_metadata : pyobj;
  p_chunks : list pyobj
}.

(** [processed_docs] is a [dict]: its items in insertion order. *)
Record t : Type := {
  documents : list Document;
  processed_docs : list (string * processed)
}.

(** [RAGPipeline()] *)
Definition init : t := {| documents := []; processed_docs := [] |}.

(** [d[key] = value]: a key that is present keeps its place, a new
    one goes to the end. *)
Fixpoint dict_set {V : Type} (items : list (string * V)) (key : string) (value : V)
    : list (string * V) :=
  match items with
  | [] => [(key, value)]
  | (k, v) :: rest =>
      if String.eqb k key then (k, value) :: rest
      else (k, v) :: dict_set rest key value
  end.

(** [d.get(key)] *)
Fixpoint dict_lookup {V : Type} (items : list (string * V)) (key : string) : option V :=
  match items with
  | [] => None
  | (k, v) :: rest => if String.eqb k key then Some v else dict_lookup rest key
  end.

Definition add_document (self : t) (content_ : string) (metadata_ : pyobj)
    (doc_id_ : string) : t :=
  let doc := {| content := content_; metadata := metadata_; doc_id := doc_id_;
                chunk_id := 0 |} in
  {| documents := documents self ++ [doc];
     processed_docs :=
       dict_set (processed_docs self) doc_id_
         {| p_content := content_; p_metadata := metadata_; p_chunks := [] |} |}.

(** [get_document]: [None] is Python's [None]. *)
Definition get_document (self : t) (doc_id_ : string) : option processed :=
  dict_lookup (processed_docs self) doc_id_.

Definition list_documents (self : t) : list string :=
  List.map fst (processed_docs self).

Definition clear (self : t) : t := {| documents := []; processed_docs := [] |}.

Record stats : Type := {
  total_documents : Z;
  total_chunks : Z;
  document_ids : list string
}.

Definition get_stats (self : t) : stats :=
  {| total_documents := Z.of_nat (List.length (documents self));
     total_chunks :=
       List.fold_left (fun acc kv => acc + Z.of_nat (List.length (p_chunks (snd kv))))
         (processed_docs self) 0;
     document_ids := list_documents self |}.

(** The calls that change a pipeline. *)
Inductive op : Type :=
| Add (content_ : string) (metadata_ : pyobj) (doc_id_ : string)
| Clear.

Definition apply (self : t) (o : op) : t :=
  match o with
  | Add content_ metadata_ doc_id_ => add_document self content_ metadata_ doc_id_
  | Clear => clear self
  end.

End RagPipeline.

(** ** Concrete inputs used by the examples below *)

Module Scenario.
Import Py World.

(** Sixty letters, one full stop, six hundred letters. *)
Definition looping_text : string :=
  (str_mul "x"%char 60 ++ "." ++ str_mul "x"%char 600)%string.

(** The three-vector index of the design document. *)
Definition abc_store : VectorStore.t :=
  List.fold_left VectorStore.apply
    [VectorStore.Insert "a" "alpha" [1; 0; 0]%float PyNone;
     VectorStore.Insert "b" "beta" [0; 1; 0]%float PyNone;
     VectorStore.Insert "c" "gamma" [0.9; 0.1; 0]%float PyNone]
    (VectorStore.init 3).

(** A stand-in interpreter and stand-in collaborators, to run the
    query path on concrete inputs. *)
Definition toy_runtime : Runtime :=
  {| sha256_hexdigest := fun s => ("sha256:" ++ s)%string;
     float_repr := fun _ => "0.0" |}.

Definition toy_collaborators : Collaborators :=
  {| embed_query := fun q =>
       if String.eqb q "boom" then Raise (ExternalError "RuntimeError" "model down")
       else Ok [1; 0; 0]%float;
     chat_completion := fun q _ => Ok ("answer to " ++ q)%string;
     response_model_name := "gpt-4";
     str_exn := fun e => DocuMind.exn_name e;
     format_exc := fun e => DocuMind.exn_name e |}.

(** A cache directory as [CacheManager()] leaves it. *)
Definition fresh_cache : Cache.CacheManager * Cache.fs :=
  Cache.init 3600 Cache.empty_fs.

(** The same directory with a zero-length entry [queries/k.pkl]
    last modified at tick 100. *)
Definition truncated_entry : Cache.fs :=
  {| Cache.dirs := Cache.dirs (snd fresh_cache);
     Cache.files :=
       <[ ("queries", "k") := {| Cache.f_content := Cache.Empty; Cache.st_mtime := 100 |} ]>
         (Cache.files (snd fresh_cache)) |}.

(** Two stored chunks of two characters each, both in the direction
    of the query of the stand-in embedding model. *)
Definition two_chunk_store : VectorStore.t :=
  List.fold_left VectorStore.apply
    [VectorStore.Insert "a" "ab" [1; 0; 0]%float PyNone;
     VectorStore.Insert "b" "cd" [1; 0; 0]%float PyNone]
    (VectorStore.init 3).

(** Four results of five hundred characters each. *)
Definition four_long_results : list QueryProcessor.result :=
  List.map
    (fun i => {| QueryProcessor.r_content := str_mul "x"%char 500;
                 QueryProcessor.r_score := 1;
                 QueryProcessor.r_metadata := PyDict [];
                 QueryProcessor.r_doc_id := i |})
    ["d_0"; "d_1"; "d_2"; "d_3"].

End Scenario.

(** * Properties *)

(** ** The embedding on the inputs of the test suite *)

Module UnitTests.
Import Py.

(** [tests/test_chunking.py] *)
Example test_chunk_empty_text :
  Chunking.chunk_by_tokens 1
    {| Chunking.chunk_size := 100; Chunking.chunk_overlap := 10 |} EmptyString = Some [].
Proof. reflexivity. Qed.

Example test_chunk_short_text :
  Chunking.chunk_by_tokens 1
    {| Chunking.chunk_size := 100; Chunking.chunk_overlap := 10 |} "This is a short text."
  = Some ["This is a short text."].
Proof. vm_compute. reflexivity. Qed.

(** [tests/test_vector_store.py] *)
Example test_initialization :
  VectorStore.dimension (VectorStore.init 128) = 128
  /\ VectorStore.size (VectorStore.init 128) = 0.
Proof. split; reflexivity. Qed.

Example test_add_document_wrong_dimension :
  fst (VectorStore.add_document (VectorStore.init 128) "test_1" "Test content"
         (List.repeat 0.5%float 64) PyNone)
  = Raise (ValueError "Embedding dimension mismatch: expected 128, got 64").
Proof. vm_compute. reflexivity. Qed.

Example test_delete :
  let store :=
    snd (VectorStore.add_document (VectorStore.init 128) "test_1" "Test content"
           (List.repeat 0.5%float 128) PyNone) in
  VectorStore.size store = 1
  /\ VectorStore.size (snd (VectorStore.delete store "test_1")) = 0.
Proof. split; vm_compute; reflexivity. Qed.

(** The built-ins on inputs whose results are known. *)
Example rfind_examples :
  rfind "a.b.c" "."%char 0 5 = 3 /\ rfind "a.b.c" "."%char 0 3 = 1
  /\ rfind "a.b.c" "."%char (-2) 5 = 3 /\ rfind "a.b.c" "."%char 4 5 = -1
  /\ rfind "a.b.c" "."%char (-100) (-1) = 3.
Proof. repeat split. Qed.

Example slice_examples :
  slice "hello" (-3) 10 = "llo" /\ slice "hello" 4 2 = EmptyString
  /\ strip (String "009"%char " a b " ++ String "010"%char EmptyString)%string = "a b".
Proof. repeat split. Qed.

Example sort_reverse_example :
  sort (fun x y : Z * string => fst x <? fst y) true
    [(1, "a"); (3, "b"); (1, "c"); (3, "d"); (2, "e")]
  = [(3, "b"); (3, "d"); (2, "e"); (1, "a"); (1, "c")].
Proof. reflexivity. Qed.

Definition quoted (s : string) : string :=
  String dquote (s ++ String dquote EmptyString)%string.

Example json_dumps_example :
  @json_dumps Scenario.toy_runtime
    (PyDict [("b", PyList [PyInt 2; PyNone; PyBool true; PyStr (String "010"%char "x")]);
             ("a", PyDict [])])
  = ("{" ++ quoted "a" ++ ": {}, " ++ quoted "b" ++ ": [2, null, true, "
         ++ quoted (String backslash "nx") ++ "]}")%string.
Proof. vm_compute. reflexivity. Qed.

End UnitTests.

(** ** Chunker *)

Module ChunkingFacts.
Import Py Chunking Scenario.

Lemma loop_body_start self text start chunks :
  fst (loop_body self text (start, chunks)) = window_end self text start - chunk_overlap self.
Proof. reflexivity. Qed.

Lemma while_loop_step fuel self text st :
  while_loop (S fuel) self text st =
  if fst st <? len text then while_loop fuel self text (loop_body self text st)
  else Some (snd st).
Proof. reflexivity. Qed.

(** The window is either the full [chunk_size] or ends one past a
    boundary character that lies strictly after [start]. *)
Lemma window_end_cases self text start :
  window_end self text start = start + chunk_size self
  \/ (start + chunk_size self < len text
      /\ start + 2 <= window_end self text start
      /\ window_end self text start =
         Z.max (rfind text "."%char start (start + chunk_size self))
               (rfind text "010"%char start (start + chunk_size self)) + 1).
Proof.
  unfold window_end.
  destruct (start + chunk_size self <? len text) eqn:Hend; [|now left].
  apply Z.ltb_lt in Hend.
  destruct (_ >? start) eqn:Hbreak; [|now left].
  right. apply Z.gtb_lt in Hbreak. repeat split; [assumption|lia].
Qed.

Lemma looping_text_len : len looping_text = 661.
Proof. vm_compute. reflexivity. Qed.

Lemma looping_window_0 : window_end default looping_text 0 = 61.
Proof. vm_compute. reflexivity. Qed.

Lemma looping_window_11 : window_end default looping_text 11 = 61.
Proof. vm_compute. reflexivity. Qed.

(** Once [start] is 11 it stays 11. *)
Lemma looping_from_11 fuel chunks :
  while_loop fuel default looping_text (11, chunks) = None.
Proof.
  revert chunks. induction fuel as [|fuel IH]; intros chunks.
  - unfold while_loop. rewrite looping_text_len. reflexivity.
  - rewrite while_loop_step, looping_text_len.
    change (fst (11, chunks) <? 661) with true. cbv iota.
    destruct (loop_body default looping_text (11, chunks)) as [start' chunks'] eqn:Hbody.
    assert (start' = 11) as ->.
    { change start' with (fst (start', chunks')). rewrite <- Hbody.
      rewrite loop_body_start, looping_window_11. reflexivity. }
    apply IH.
Qed.

(** C2. [chunk_by_tokens] does not return on every input: with the
    default configuration (chunk_size 500, chunk_overlap 50) and a
    text whose only sentence boundary is at position 60, the second
    window starts at 11, is cut after the same full stop, and the
    third starts at 11 again; however many passes are allowed, the
    loop guard [start < len(text)] is still true. *)
Theorem chunk_by_tokens_diverges :
  forall fuel : nat, chunk_by_tokens fuel default looping_text = None.
Proof.
  intros fuel. unfold chunk_by_tokens.
  replace (negb (str_truthy looping_text) || (len looping_text =? 0)) with false
    by (vm_compute; reflexivity).
  destruct fuel as [|fuel].
  - unfold while_loop. rewrite looping_text_len. reflexivity.
  - rewrite while_loop_step, looping_text_len.
    change (fst (0, @nil string) <? 661) with true. cbv iota.
    destruct (loop_body default looping_text (0, [])) as [start' chunks'] eqn:Hbody.
    assert (start' = 11) as ->.
    { change start' with (fst (start', chunks')). rewrite <- Hbody.
      rewrite loop_body_start, looping_window_0. reflexivity. }
    apply looping_from_11.
Qed.

(** Every pass moves [start] forward when the overlap is at most one
    character and smaller than the chunk size. *)
Lemma loop_body_advances self text start chunks :
  0 <= chunk_overlap self <= 1 -> chunk_overlap self < chunk_size self ->
  start < fst (loop_body self text (start, chunks)).
Proof.
  intros Hov Hsize. rewrite loop_body_start.
  destruct (window_end_cases self text start) as [-> | (_ & Hge & _)]; lia.
Qed.

Lemma while_loop_terminates self text :
  0 <= chunk_overlap self <= 1 -> chunk_overlap self < chunk_size self ->
  forall fuel st, len text - fst st <= Z.of_nat fuel ->
  exists chunks, while_loop (S fuel) self text st = Some chunks.
Proof.
  intros Hov Hsize. induction fuel as [|fuel IH]; intros [start chunks] Hfuel;
    rewrite while_loop_step; cbn [fst snd] in *.
  - destruct (start <? len text) eqn:Hguard; [|eauto].
    apply Z.ltb_lt in Hguard. lia.
  - destruct (start <? len text) eqn:Hguard; [|eauto].
    destruct (loop_body self text (start, chunks)) as [start' chunks'] eqn:Hbody.
    apply IH. cbn [fst].
    pose proof (loop_body_advances self text start chunks Hov Hsize) as Hadv.
    rewrite Hbody in Hadv. cbn [fst] in Hadv. lia.
Qed.

(** With an overlap of at most one character, smaller than the chunk
    size, [chunk_by_tokens] returns within [len(text)] passes. *)
Theorem chunk_by_tokens_terminates_small_overlap self text :
  0 <= chunk_overlap self <= 1 -> chunk_overlap self < chunk_size self ->
  exists chunks, chunk_by_tokens (S (String.length text)) self text = Some chunks.
Proof.
  intros Hov Hsize. unfold chunk_by_tokens.
  destruct (negb (str_truthy text) || (len text =? 0)); [eauto|].
  apply while_loop_terminates; try assumption.
  cbn [fst]. unfold len. lia.
Qed.

Lemma chunk_by_tokens_terminates_small_overlap_witness :
  exists chunks,
    chunk_by_tokens (S (String.length "One. Two."))
      {| chunk_size := 4; chunk_overlap := 1 |} "One. Two." = Some chunks.
Proof.
  apply (chunk_by_tokens_terminates_small_overlap
           {| chunk_size := 4; chunk_overlap := 1 |} "One. Two."); simpl; lia.
Defined.



End ChunkingFacts.

(** ** Vector index *)

Module VectorStoreFacts.
Import Py VectorStore Scenario.

(** The error of an insert whose embedding has the wrong length. *)
Definition DimensionMismatch (e : exn) : Prop :=
  exists expected got : Z,
    expected <> got
    /\ e = ValueError ("Embedding dimension mismatch: expected "
                       ++ str_of_int expected ++ ", got " ++ str_of_int got)%string.

(** The position-to-id mapping agrees with the document list. *)
Definition index_consistent (s : t) : Prop :=
  forall i : nat, index_to_id s !! i = id <$> documents s !! i.

(** Every stored embedding has the dimension of the index. *)
Definition well_dimensioned (s : t) : Prop :=
  Forall (fun doc => shape0 (embedding doc) = dimension s) (documents s).

Lemma add_document_mismatch self doc_id content_ embedding_ metadata_ :
  shape0 embedding_ <> dimension self ->
  exists e, DimensionMismatch e
    /\ add_document self doc_id content_ embedding_ metadata_ = (Raise e, self).
Proof.
  intros Hne. unfold add_document.
  destruct (shape0 embedding_ =? dimension self) eqn:Heq.
  - apply Z.eqb_eq in Heq. contradiction.
  - cbn [negb]. eexists. split; [|reflexivity].
    exists (dimension self), (shape0 embedding_). split; [congruence|reflexivity].
Qed.

Lemma add_document_ok self doc_id content_ embedding_ metadata_ :
  shape0 embedding_ = dimension self ->
  add_document self doc_id content_ embedding_ metadata_ =
  (Ok tt,
   {| dimension := dimension self;
      documents :=
        documents self ++
        [{| id := doc_id; content := content_; embedding := embedding_;
            metadata := if truthy metadata_ then metadata_ else PyDict [] |}];
      index_to_id := <[ List.length (documents self) := doc_id ]> (index_to_id self) |}).
Proof.
  intros Heq. unfold add_document.
  apply Z.eqb_eq in Heq. rewrite Heq. cbn [negb].
  replace (List.length (documents self ++ _) - 1)%nat with (List.length (documents self))
    by (rewrite length_app; cbn; lia).
  reflexivity.
Qed.

(** C6. An insert whose embedding length differs from the dimension
    of the index raises the dimension-mismatch [ValueError] and leaves
    the store as it was; an insert of the right length succeeds and
    appends exactly one document, carrying the given id, content and
    embedding. *)
Theorem add_document_dimension_check self doc_id content_ embedding_ metadata_ :
  (shape0 embedding_ <> dimension self ->
   exists e, DimensionMismatch e
     /\ add_document self doc_id content_ embedding_ metadata_ = (Raise e, self))
  /\ (shape0 embedding_ = dimension self ->
      exists doc self',
        add_document self doc_id content_ embedding_ metadata_ = (Ok tt, self')
        /\ documents self' = documents self ++ [doc]
        /\ dimension self' = dimension self
        /\ id doc = doc_id /\ content doc = content_ /\ embedding doc = embedding_).
Proof.
  split.
  - apply add_document_mismatch.
  - intros Heq. rewrite (add_document_ok _ _ _ _ _ Heq).
    eexists _, _. split; [reflexivity|]. cbn. repeat split.
Qed.

Lemma add_document_dimension_check_witness :
  (exists e, DimensionMismatch e
     /\ add_document abc_store "d" "delta" [1; 0]%float PyNone = (Raise e, abc_store))
  /\ (exists doc self',
        add_document abc_store "d" "delta" [0; 0; 1]%float PyNone = (Ok tt, self')
        /\ documents self' = documents abc_store ++ [doc]
        /\ dimension self' = dimension abc_store
        /\ id doc = "d" /\ content doc = "delta" /\ embedding doc = [0; 0; 1]%float).
Proof.
  split.
  - apply (proj1 (add_document_dimension_check abc_store "d" "delta" [1; 0]%float PyNone)).
    vm_compute. discriminate.
  - apply (proj2 (add_document_dimension_check abc_store "d" "delta" [0; 0; 1]%float PyNone)).
    vm_compute. reflexivity.
Defined.

(** *** The position-to-id mapping *)

Lemma index_consistent_rebuild docs : forall i : nat,
  rebuild_index docs !! i = id <$> docs !! i.
Proof.
  intros i. unfold rebuild_index. rewrite lookup_map_seq_0. apply list_lookup_fmap.
Qed.

Lemma index_consistent_eq s :
  index_consistent s -> index_to_id s = rebuild_index (documents s).
Proof.
  intros H. apply map_eq. intros i. rewrite index_consistent_rebuild. apply H.
Qed.

Lemma index_consistent_size s :
  index_consistent s -> base.size (index_to_id s) = List.length (documents s).
Proof.
  intros H. rewrite (index_consistent_eq s H). unfold rebuild_index.
  rewrite <- size_dom, dom_seq_L, size_set_seq. apply length_fmap.
Qed.

Lemma index_consistent_init d : index_consistent (init d).
Proof. intros i. cbn. rewrite lookup_empty. reflexivity. Qed.

Lemma index_consistent_add s doc_id content_ embedding_ metadata_ :
  index_consistent s ->
  index_consistent (snd (add_document s doc_id content_ embedding_ metadata_)).
Proof.
  intros H. destruct (Z.eq_dec (shape0 embedding_) (dimension s)) as [Heq|Hne].
  - rewrite (add_document_ok _ _ _ _ _ Heq). intros i. cbn [snd index_to_id documents].
    destruct (decide (i = List.length (documents s))) as [->|Hi].
    + rewrite lookup_insert_eq.
      rewrite lookup_app_r by lia. rewrite Nat.sub_diag. reflexivity.
    + rewrite lookup_insert_ne by congruence. rewrite H.
      destruct (decide (i < List.length (documents s))%nat) as [Hlt|Hge].
      * rewrite lookup_app_l by assumption. reflexivity.
      * rewrite (lookup_ge_None_2 (documents s)) by lia.
        rewrite lookup_ge_None_2; [reflexivity|].
        rewrite length_app. cbn. lia.
  - destruct (add_document_mismatch s doc_id content_ embedding_ metadata_ Hne)
      as (e & _ & ->). exact H.
Qed.

Lemma index_consistent_delete s doc_id :
  index_consistent s -> index_consistent (snd (delete s doc_id)).
Proof.
  intros H. unfold delete.
  destruct (first_index (documents s) doc_id 0); [|exact H].
  intros i. cbn [snd index_to_id documents]. apply index_consistent_rebuild.
Qed.

Lemma index_consistent_clear s : index_consistent (clear s).
Proof. intros i. cbn. rewrite lookup_empty. reflexivity. Qed.

Lemma index_consistent_apply s o :
  index_consistent s -> index_consistent (apply s o).
Proof.
  intros H. destruct o; cbn [apply].
  - now apply index_consistent_add.
  - now apply index_consistent_delete.
  - apply index_consistent_clear.
Qed.

(** C10. In every store reached from a new one by inserts (failed
    ones included), deletes and clears, the position-to-id mapping has
    one entry per stored document and sends every position to the id
    of the document stored there (and no other position to
    anything). *)
Theorem reachable_index_consistent s :
  reachable s ->
  base.size (index_to_id s) = List.length (documents s)
  /\ forall i : nat, index_to_id s !! i = id <$> documents s !! i.
Proof.
  intros Hreach.
  assert (index_consistent s) as H.
  { induction Hreach as [d|s o _ IH].
    - apply index_consistent_init.
    - now apply index_consistent_apply. }
  split; [now apply index_consistent_size | exact H].
Qed.

Lemma abc_store_reachable : reachable abc_store.
Proof. unfold abc_store. cbn [List.fold_left]. repeat constructor. Qed.

Lemma reachable_index_consistent_witness :
  base.size (index_to_id (snd (delete abc_store "b"))) =
    List.length (documents (snd (delete abc_store "b")))
  /\ forall i : nat,
       index_to_id (snd (delete abc_store "b")) !! i =
       id <$> documents (snd (delete abc_store "b")) !! i.
Proof.
  apply (reachable_index_consistent (apply abc_store (Delete "b"))).
  apply reachable_step, abc_store_reachable.
Defined.

End VectorStoreFacts.

(** ** The sort of the interpreter *)

Module SortFacts.
Import Py.

Section Stable.
Context {A : Type} (lt : A -> A -> bool).

Lemma insert_sorted_perm x l : Permutation (insert_sorted lt x l) (x :: l).
Proof.
  induction l as [|y l IH]; cbn; [reflexivity|].
  destruct (lt y x); [|reflexivity].
  rewrite IH. apply perm_swap.
Qed.

Lemma stable_sort_perm l : Permutation (stable_sort lt l) l.
Proof.
  induction l as [|x l IH]; cbn; [reflexivity|].
  rewrite insert_sorted_perm. now constructor.
Qed.

Lemma sort_perm reverse l : Permutation (sort lt reverse l) l.
Proof.
  unfold sort. destruct reverse; [|apply stable_sort_perm].
  rewrite <- Permutation_rev, stable_sort_perm. symmetry. apply Permutation_rev.
Qed.

(** Stability. [P] selects a class of elements that compare equal:
    nothing that sorts strictly before a member is a member. The
    members keep their input order. *)
Section Class.
Variable P : A -> bool.
Hypothesis P_class : forall x y, lt y x = true -> P x = true -> P y = false.

Lemma insert_sorted_filter x l :
  List.filter P (insert_sorted lt x l) = List.filter P (x :: l).
Proof.
  induction l as [|y l IH]; [reflexivity|].
  cbn [insert_sorted]. destruct (lt y x) eqn:Hlt; [|reflexivity].
  cbn [List.filter] in *. rewrite IH.
  destruct (P x) eqn:Hx; [|reflexivity].
  rewrite (P_class x y Hlt Hx). reflexivity.
Qed.

Lemma stable_sort_filter l :
  List.filter P (stable_sort lt l) = List.filter P l.
Proof.
  induction l as [|x l IH]; [reflexivity|].
  cbn [stable_sort List.fold_right]. rewrite insert_sorted_filter.
  cbn [List.filter]. unfold stable_sort in IH. rewrite IH. reflexivity.
Qed.

Lemma sort_filter reverse l :
  List.filter P (sort lt reverse l) = List.filter P l.
Proof.
  unfold sort. destruct reverse; [|apply stable_sort_filter].
  rewrite List.filter_rev, stable_sort_filter, List.filter_rev.
  apply List.rev_involutive.
Qed.
End Class.

(** Order. [R x y] reads: [x] may stand before [y]. *)
Section Order.
Variable R : A -> A -> Prop.
Variable ok : A -> Prop.
Hypothesis lt_R : forall x y, lt y x = true -> R y x.
Hypothesis nlt_R : forall x y, ok x -> ok y -> lt y x = false -> R x y.
Hypothesis R_trans : forall x y z, R x y -> R y z -> R x z.

Lemma insert_sorted_strongly x l :
  ok x -> Forall ok l -> StronglySorted R l ->
  StronglySorted R (insert_sorted lt x l).
Proof.
  intros Hx Hok Hs. induction Hs as [|y l Hs IH Hy]; cbn.
  - repeat constructor.
  - apply Forall_cons_iff in Hok as [Hoky Hok].
    destruct (lt y x) eqn:Hlt.
    + constructor; [now apply IH|].
      rewrite (insert_sorted_perm x l). constructor; [now apply lt_R | assumption].
    + assert (R x y) as Hxy by now apply nlt_R.
      constructor; [now constructor|].
      constructor; [assumption|].
      eapply List.Forall_impl; [|exact Hy]. intros z Hz. now apply R_trans with y.
Qed.

Lemma stable_sort_strongly l :
  Forall ok l -> StronglySorted R (stable_sort lt l).
Proof.
  induction l as [|x l IH]; intros Hok; cbn; [constructor|].
  apply Forall_cons_iff in Hok as [Hx Hok].
  apply insert_sorted_strongly; [assumption| |now apply IH].
  fold (stable_sort lt l). now rewrite stable_sort_perm.
Qed.
End Order.

Lemma StronglySorted_snoc (R : A -> A -> Prop) l x :
  StronglySorted R l -> Forall (fun y => R y x) l -> StronglySorted R (l ++ [x]).
Proof.
  induction 1 as [|y l Hs IH Hy]; intros Hall; cbn.
  - repeat constructor.
  - apply Forall_cons_iff in Hall as [Hyx Hall].
    constructor; [now apply IH|].
    apply Forall_app. split; [assumption|now constructor].
Qed.

Lemma StronglySorted_rev (R : A -> A -> Prop) l :
  StronglySorted R l -> StronglySorted (fun x y => R y x) (List.rev l).
Proof.
  induction 1 as [|y l Hs IH Hy]; cbn; [constructor|].
  apply StronglySorted_snoc; [assumption|].
  now rewrite <- Permutation_rev.
Qed.
End Stable.

(** Mapping a function that the order does not see commutes with the
    sort. *)
Lemma stable_sort_map {A B : Type} (ltA : A -> A -> bool) (ltB : B -> B -> bool)
    (f : A -> B) (l : list A) :
  (forall x y, ltB (f x) (f y) = ltA x y) ->
  stable_sort ltB (List.map f l) = List.map f (stable_sort ltA l).
Proof.
  intros Hf. induction l as [|x l IH]; [reflexivity|].
  cbn [List.map stable_sort List.fold_right].
  fold (stable_sort ltB (List.map f l)). fold (stable_sort ltA l). rewrite IH.
  generalize (stable_sort ltA l) as s. intros s.
  induction s as [|y s IHs]; [reflexivity|].
  cbn [List.map insert_sorted]. rewrite Hf.
  destruct (ltA y x); cbn [List.map]; [now rewrite IHs | reflexivity].
Qed.

(** When the order is a strict total order on keys and no two
    elements share a key, the sorted list depends on the elements
    only, not on the order in which they were given. *)
Section Keyed.
Context {A K : Type} (key : A -> K) (ltk : K -> K -> bool).
Hypothesis ltk_asym : forall a b, ltk a b = true -> ltk b a = false.
Hypothesis ltk_trans : forall a b c, ltk a b = true -> ltk b c = true -> ltk a c = true.
Hypothesis ltk_total : forall a b, a <> b -> ltk a b = false -> ltk b a = true.

Definition by_key (x y : A) : bool := ltk (key x) (key y).

Lemma by_key_trans_l x y z :
  by_key z y = true -> by_key z x = false -> key x <> key y -> by_key x y = true.
Proof.
  unfold by_key. intros Hzy Hzx Hne.
  destruct (ltk (key x) (key y)) eqn:E; [reflexivity|].
  apply ltk_total in E; [|assumption].
  rewrite (ltk_trans _ _ _ Hzy E) in Hzx. discriminate.
Qed.

Lemma by_key_cases x y :
  key x <> key y ->
  (by_key x y = true /\ by_key y x = false)
  \/ (by_key x y = false /\ by_key y x = true).
Proof.
  unfold by_key. intros Hne. destruct (ltk (key x) (key y)) eqn:E.
  - left. split; [reflexivity|]. now apply ltk_asym.
  - right. split; [reflexivity|]. now apply ltk_total.
Qed.

Lemma insert_sorted_comm x y l :
  key x <> key y ->
  insert_sorted by_key x (insert_sorted by_key y l) =
  insert_sorted by_key y (insert_sorted by_key x l).
Proof.
  intros Hxy. induction l as [|z l IH].
  - cbn [insert_sorted].
    destruct (by_key_cases x y Hxy) as [[H1 H2]|[H1 H2]]; rewrite H1, H2; reflexivity.
  - cbn [insert_sorted].
    destruct (by_key z y) eqn:Hzy, (by_key z x) eqn:Hzx;
      cbn [insert_sorted]; rewrite ?Hzy, ?Hzx.
    + now rewrite IH.
    + rewrite (by_key_trans_l x y z Hzy Hzx Hxy). reflexivity.
    + rewrite (by_key_trans_l y x z Hzx Hzy) by congruence. reflexivity.
    + destruct (by_key_cases x y Hxy) as [[H1 H2]|[H1 H2]]; rewrite H1, H2;
        cbn [insert_sorted]; rewrite ?Hzy, ?Hzx; reflexivity.
Qed.

Lemma stable_sort_perm_eq l1 l2 :
  Permutation l1 l2 -> List.NoDup (List.map key l1) ->
  stable_sort by_key l1 = stable_sort by_key l2.
Proof.
  induction 1 as [|x l1 l2 Hp IH|x y l|l1 l2 l3 Hp1 IH1 Hp2 IH2]; intros Hnd.
  - reflexivity.
  - cbn. unfold stable_sort in IH. rewrite IH; [reflexivity|].
    now inversion Hnd.
  - cbn. apply insert_sorted_comm.
    cbn in Hnd. inversion Hnd as [|? ? Hin _]; subst.
    intros Heq. apply Hin. left. congruence.
  - rewrite IH1 by assumption. apply IH2.
    eapply Permutation_NoDup; [|exact Hnd]. now apply Permutation_map.
Qed.
End Keyed.

End SortFacts.

(** ** The order of binary64 numbers *)

Module FloatFacts.

Lemma SFcompare_antisym x y :
  SFcompare y x = option_map CompOpp (SFcompare x y).
Proof.
  destruct x as [sx|sx| |sx mx ex], y as [sy|sy| |sy my ey]; cbn;
    try reflexivity; try (destruct sx; reflexivity); try (destruct sy; reflexivity);
    try (destruct sx, sy; reflexivity).
  destruct sx, sy; try reflexivity;
    rewrite (Z.compare_antisym ex ey); destruct (ex ?= ey); cbn; try reflexivity;
    change (PosDef.Pos.compare_cont Eq) with Pos.compare;
    rewrite (Pos.compare_antisym mx my); destruct (Pos.compare mx my); reflexivity.
Qed.

Lemma SFcompare_Eq_l x s y :
  SFcompare x s = Some Eq -> SFcompare x y = SFcompare s y.
Proof.
  destruct x as [sx|sx| |sx mx ex], s as [ss|ss| |ss ms es]; cbn; try discriminate;
    try (destruct sx; discriminate); try (destruct ss; discriminate).
  - reflexivity.
  - destruct sx, ss; try discriminate; reflexivity.
  - destruct sx, ss; try discriminate; destruct (ex ?= es) eqn:He; try discriminate;
      apply Z.compare_eq in He; subst;
      change (PosDef.Pos.compare_cont Eq) with Pos.compare;
      destruct (Pos.compare mx ms) eqn:Hm; try discriminate;
      apply Pos.compare_eq in Hm; subst; reflexivity.
Qed.

Lemma SFleb_trans x y z :
  SFleb x y = true -> SFleb y z = true -> SFleb x z = true.
Proof.
  unfold SFleb.
  destruct x as [sx|sx| |sx mx ex], y as [sy|sy| |sy my ey], z as [sz|sz| |sz mz ez]; cbn;
    try discriminate; try reflexivity;
    repeat match goal with s : bool |- _ => destruct s end;
    cbn; try discriminate; try reflexivity;
    change (PosDef.Pos.compare_cont Eq) with Pos.compare;
    destruct (Z.compare_spec ex ey), (Z.compare_spec ey ez), (Z.compare_spec ex ez);
    subst; cbn; try discriminate; try reflexivity; try lia;
    destruct (Pos.compare_spec mx my), (Pos.compare_spec my mz), (Pos.compare_spec mx mz);
    subst; cbn; try discriminate; try reflexivity; try lia.
Qed.

(** A number, as opposed to a NaN: it compares with itself. *)
Definition is_number (x : float) : Prop := (x =? x)%float = true.

Lemma leb_trans x y z :
  (x <=? y)%float = true -> (y <=? z)%float = true -> (x <=? z)%float = true.
Proof. rewrite !leb_spec. apply SFleb_trans. Qed.

Lemma ltb_leb x y : (x <? y)%float = true -> (x <=? y)%float = true.
Proof.
  rewrite ltb_spec, leb_spec. unfold SFltb, SFleb.
  destruct (SFcompare _ _) as [[]|]; congruence.
Qed.

Lemma SFcompare_refl y : y <> S754_nan -> SFcompare y y = Some Eq.
Proof.
  destruct y as [sy|sy| |sy my ey]; cbn; intros Hy; try congruence.
  - destruct sy; reflexivity.
  - rewrite Z.compare_refl. change (PosDef.Pos.compare_cont Eq) with Pos.compare.
    rewrite Pos.compare_refl. destruct sy; reflexivity.
Qed.

Lemma leb_is_number_r x y : (x <=? y)%float = true -> is_number y.
Proof.
  unfold is_number. rewrite leb_spec, FloatAxioms.eqb_spec. unfold SFleb, SFeqb.
  intros Hle. rewrite SFcompare_refl; [reflexivity|].
  intros Hnan. rewrite Hnan in Hle.
  destruct (Prim2SF x); discriminate.
Qed.

Lemma is_number_not_nan x : is_number x -> Prim2SF x <> S754_nan.
Proof.
  unfold is_number. rewrite FloatAxioms.eqb_spec. unfold SFeqb.
  intros H Hnan. rewrite Hnan in H. discriminate.
Qed.

Lemma SFcompare_some x y :
  x <> S754_nan -> y <> S754_nan -> exists c, SFcompare x y = Some c.
Proof.
  destruct x, y; cbn; intros Hx Hy; try congruence; eauto.
Qed.

(** Two numbers are comparable. *)
Lemma nltb_leb x y :
  is_number x -> is_number y -> (x <? y)%float = false -> (y <=? x)%float = true.
Proof.
  intros Hx%is_number_not_nan Hy%is_number_not_nan.
  rewrite ltb_spec, leb_spec. unfold SFltb, SFleb.
  rewrite (SFcompare_antisym (Prim2SF x) (Prim2SF y)).
  destruct (SFcompare_some _ _ Hx Hy) as [c ->].
  destruct c; cbn; congruence.
Qed.

(** Nothing strictly below a number equals what that number equals. *)
Lemma ltb_eqb_class s x y :
  (y <? x)%float = true -> (x =? s)%float = true -> (y =? s)%float = false.
Proof.
  rewrite ltb_spec, !FloatAxioms.eqb_spec. unfold SFltb, SFeqb.
  intros Hlt Heq.
  destruct (SFcompare (Prim2SF x) (Prim2SF s)) as [[]|] eqn:Hxs; try discriminate.
  rewrite (SFcompare_antisym (Prim2SF s) (Prim2SF y)).
  rewrite <- (SFcompare_Eq_l _ _ _ Hxs).
  rewrite (SFcompare_antisym (Prim2SF y) (Prim2SF x)).
  destruct (SFcompare (Prim2SF y) (Prim2SF x)) as [[]|]; cbn; congruence.
Qed.

End FloatFacts.

(** ** Similarity search *)

Module SearchFacts.
Import Py VectorStore Scenario VectorStoreFacts.

(** [dot(a, b) / (norm(a) * norm(b))] *)
Definition cosine (a b : list float) : float :=
  (dot_sum a b / (norm a * norm b))%float.

(** The stored entries whose similarity to the query reaches the
    threshold, each with its similarity, in insertion order. *)
Definition retained (query_embedding : list float) (threshold : float)
    (docs : list VectorDocument) : list (VectorDocument * float) :=
  List.filter (fun x => (threshold <=? snd x)%float)
    (List.map (fun doc => (doc, cosine query_embedding (embedding doc))) docs).

(** The entries of a result list whose similarity equals [s]. *)
Definition tied (s : float) (l : list (VectorDocument * float))
    : list (VectorDocument * float) :=
  List.filter (fun x => (snd x =? s)%float) l.

(** [x] may stand before [y] in a descending ranking. *)
Definition ranks_before (x y : VectorDocument * float) : Prop :=
  (snd y <=? snd x)%float = true.

Lemma cosine_similarity_ok a b :
  shape0 a = shape0 b -> cosine_similarity a b = Ok (cosine a b).
Proof.
  intros Heq. unfold cosine_similarity, dot.
  apply Z.eqb_eq in Heq. rewrite Heq. reflexivity.
Qed.

Lemma similarities_loop_retained q threshold docs : forall acc,
  Forall (fun doc => shape0 (embedding doc) = shape0 q) docs ->
  similarities_loop q threshold docs acc = Ok (acc ++ retained q threshold docs).
Proof.
  induction docs as [|doc docs IH]; intros acc Hdim.
  - cbn. now rewrite app_nil_r.
  - apply Forall_cons_iff in Hdim as [Hdoc Hdim].
    cbn [similarities_loop]. rewrite cosine_similarity_ok by congruence.
    cbn [bind]. rewrite IH by assumption.
    unfold retained. cbn [List.map List.filter snd].
    destruct (threshold <=? cosine q (embedding doc))%float.
    + now rewrite <- app_assoc.
    + reflexivity.
Qed.

Lemma dimension_apply s o : dimension (apply s o) = dimension s.
Proof.
  destruct o; cbn [apply]; [|unfold delete|reflexivity].
  - unfold add_document. destruct (negb _); reflexivity.
  - destruct (first_index _ _ _); reflexivity.
Qed.

Lemma well_dimensioned_apply s o :
  well_dimensioned s -> well_dimensioned (apply s o).
Proof.
  unfold well_dimensioned. intros H. rewrite dimension_apply.
  destruct o as [doc_id content_ embedding_ metadata_|doc_id|]; cbn [apply].
  - destruct (Z.eq_dec (shape0 embedding_) (dimension s)) as [Heq|Hne].
    + rewrite (add_document_ok _ _ _ _ _ Heq). cbn [snd documents].
      apply Forall_app. split; [assumption|]. now repeat constructor.
    + destruct (add_document_mismatch s doc_id content_ embedding_ metadata_ Hne)
        as (e & _ & ->). exact H.
  - unfold delete. destruct (first_index _ _ _); [|exact H].
    cbn [snd documents]. now apply Forall_delete.
  - constructor.
Qed.

Lemma reachable_well_dimensioned s : reachable s -> well_dimensioned s.
Proof.
  induction 1 as [d|s o _ IH]; [constructor|now apply well_dimensioned_apply].
Qed.

Lemma take_slice_nonneg {A : Type} (l : list A) (k : Z) :
  0 <= k -> take_slice l k = List.firstn (Z.to_nat k) l.
Proof.
  intros Hk. unfold take_slice, adjust_index.
  destruct (k <? 0) eqn:Hneg; [apply Z.ltb_lt in Hneg; lia|].
  destruct (Z.le_gt_cases k (Z.of_nat (List.length l))) as [Hle|Hgt].
  - now rewrite Z.min_l.
  - rewrite Z.min_r by lia. rewrite Nat2Z.id.
    rewrite List.firstn_all. symmetry. apply List.firstn_all2. lia.
Qed.

Lemma ranked_properties q threshold docs :
  let ranked := sort score_lt true (retained q threshold docs) in
  Permutation ranked (retained q threshold docs)
  /\ StronglySorted ranks_before ranked
  /\ forall s, tied s ranked = tied s (retained q threshold docs).
Proof.
  cbv zeta. split; [apply SortFacts.sort_perm|]. split.
  - unfold sort.
    apply (SortFacts.StronglySorted_rev (fun x y => (snd x <=? snd y)%float = true)).
    apply (SortFacts.stable_sort_strongly score_lt _
             (fun x => FloatFacts.is_number (snd x))).
    + intros x y. apply FloatFacts.ltb_leb.
    + intros x y Hx Hy. now apply FloatFacts.nltb_leb.
    + intros x y z. apply FloatFacts.leb_trans.
    + rewrite <- Permutation_rev. unfold retained.
      apply List.Forall_forall. intros x [_ Hx]%List.filter_In.
      now apply FloatFacts.leb_is_number_r in Hx.
  - intros s. apply SortFacts.sort_filter.
    intros x y. apply FloatFacts.ltb_eqb_class.
Qed.

(** C5. On a store reached by inserts, deletes and clears, for a
    query of the dimension of the index and a count [top_k >= 0],
    [search] returns the first [top_k] entries of a ranking that
    holds exactly the stored entries whose cosine similarity to the
    query is at least the threshold, each with that similarity, in
    descending order of similarity, entries of equal similarity in
    insertion order. On an empty index it returns the empty list,
    whatever the query. On the three-vector index a, b, c with query
    [1,0,0], [top_k = 2] and threshold 0.0 it returns a with
    similarity 1.0 and then c with a similarity between 0.9935 and
    0.9945. *)
Theorem search_ranked :
  (forall (self : t) (query_embedding : list float) (top_k : Z) (threshold : float),
     reachable self -> shape0 query_embedding = dimension self -> 0 <= top_k ->
     exists ranked,
       search self query_embedding top_k threshold = Ok (List.firstn (Z.to_nat top_k) ranked)
       /\ Permutation ranked (retained query_embedding threshold (documents self))
       /\ StronglySorted ranks_before ranked
       /\ forall s, tied s ranked = tied s (retained query_embedding threshold (documents self)))
  /\ (forall (self : t) (query_embedding : list float) (top_k : Z) (threshold : float),
        documents self = [] -> search self query_embedding top_k threshold = Ok [])
  /\ (exists a c : VectorDocument, exists sa sc : float,
        search abc_store [1; 0; 0]%float 2 0%float = Ok [(a, sa); (c, sc)]
        /\ id a = "a" /\ id c = "c"
        /\ (sa =? 1)%float = true
        /\ (0.9935 <? sc)%float = true /\ (sc <? 0.9945)%float = true).
Proof.
  split; [|split].
  - intros self q top_k threshold Hreach Hq Hk.
    exists (sort score_lt true (retained q threshold (documents self))).
    split; [|apply ranked_properties].
    unfold search. destruct (List.length (documents self) =? 0)%nat eqn:Hlen.
    + apply Nat.eqb_eq in Hlen. apply List.length_zero_iff_nil in Hlen.
      rewrite Hlen. cbn. now rewrite List.firstn_nil.
    + rewrite similarities_loop_retained.
      * cbn [bind app]. now rewrite take_slice_nonneg.
      * eapply List.Forall_impl; [|apply (reachable_well_dimensioned self Hreach)].
        cbn. intros doc Hdoc. congruence.
  - intros self q top_k threshold Hempty. unfold search. now rewrite Hempty.
  - vm_compute. eexists _, _, _, _. repeat split.
Qed.

Lemma search_ranked_witness :
  exists ranked,
    search abc_store [1; 0; 0]%float 2 0%float = Ok (List.firstn (Z.to_nat 2) ranked)
    /\ Permutation ranked (retained [1; 0; 0]%float 0%float (documents abc_store))
    /\ StronglySorted ranks_before ranked
    /\ forall s, tied s ranked = tied s (retained [1; 0; 0]%float 0%float (documents abc_store)).
Proof.
  apply (proj1 search_ranked abc_store [1; 0; 0]%float 2 0%float).
  - apply abc_store_reachable.
  - reflexivity.
  - lia.
Defined.

End SearchFacts.

(** ** Context assembly *)

Module ContextFacts.
Import Py QueryProcessor Scenario.

(** The cumulative character length of a list of contents: the sum of
    their lengths (separators are not counted, as in the loop). *)
Definition cumulative_length (parts : list string) : Z :=
  List.fold_right (fun p acc => len p + acc) 0 parts.

Definition contents (results : list result) : list string :=
  List.map r_content results.

Lemma cumulative_length_app l1 l2 :
  cumulative_length (l1 ++ l2) = cumulative_length l1 + cumulative_length l2.
Proof.
  unfold cumulative_length. induction l1 as [|p l1 IH]; cbn; [reflexivity|].
  rewrite IH. lia.
Qed.

Lemma len_nonneg s : 0 <= len s.
Proof. unfold len. lia. Qed.

(** The loop includes a prefix of the results and stops at the first
    result that does not fit. *)
Lemma context_loop_prefix results max_context_length : forall context_parts total_length,
  exists n : nat,
    (n <= List.length results)%nat
    /\ context_loop results max_context_length context_parts total_length =
       (context_parts ++ contents (List.firstn n results),
        total_length + cumulative_length (contents (List.firstn n results)))
    /\ (total_length <= max_context_length ->
        total_length + cumulative_length (contents (List.firstn n results))
        <= max_context_length)
    /\ (forall r, results !! n = Some r ->
        max_context_length <
        total_length + cumulative_length (contents (List.firstn n results))
        + len (r_content r)).
Proof.
  induction results as [|r results IH]; intros parts total.
  - exists 0%nat. cbn. rewrite app_nil_r, Z.add_0_r.
    split; [lia|]. split; [reflexivity|]. split; [trivial|discriminate].
  - cbn [context_loop].
    destruct (total + len (r_content r) <=? max_context_length) eqn:Hfit.
    + apply Z.leb_le in Hfit.
      destruct (IH (parts ++ [r_content r]) (total + len (r_content r)))
        as (n & Hn & Hloop & Hbound & Hstop).
      exists (S n). cbn [List.firstn contents List.map cumulative_length List.fold_right
                          List.length].
      fold (contents (List.firstn n results)).
      fold (cumulative_length (contents (List.firstn n results))).
      split; [lia|]. split; [|split].
      * rewrite Hloop, <- app_assoc. cbn [app]. f_equal. lia.
      * intros _. specialize (Hbound Hfit). lia.
      * intros r' Hr'. cbn in Hr'. specialize (Hstop r' Hr'). lia.
    + apply Z.leb_gt in Hfit.
      exists 0%nat. cbn. rewrite app_nil_r, Z.add_0_r.
      split; [lia|]. split; [reflexivity|]. split; [lia|].
      intros r' [= <-]. lia.
Qed.

(** What the loop does keep within a budget [max_context_length >= 0]:
    the context is the contents of the first [n] results, in ranked
    order and each one whole, joined by two newlines; the sum of their
    lengths, which is what the loop counts, is within the budget; and
    either every result is included or the result at position [n],
    the first one left out, would take that sum over the budget;
    nothing after it is included. [n] is the [num_sources] the
    function reports. *)
Theorem context_within_budget query results max_context_length :
  0 <= max_context_length ->
  exists n : nat,
    let included := contents (List.firstn n results) in
    (n <= List.length results)%nat
    /\ c_context (assemble query results max_context_length) =
       join double_newline included
    /\ c_num_sources (assemble query results max_context_length) = Z.of_nat n
    /\ cumulative_length included <= max_context_length
    /\ (forall r, results !! n = Some r ->
        max_context_length < cumulative_length included + len (r_content r)).
Proof.
  intros Hmax.
  destruct (context_loop_prefix results max_context_length [] 0)
    as (n & Hn & Hloop & Hbound & Hstop).
  exists n. cbv zeta. unfold assemble. rewrite Hloop. cbn [fst app c_context c_num_sources].
  split; [assumption|]. split; [reflexivity|]. split; [|split].
  - unfold contents. rewrite length_map, List.length_firstn. f_equal. lia.
  - specialize (Hbound Hmax). lia.
  - intros r Hr. specialize (Hstop r Hr). lia.
Qed.

Lemma context_within_budget_witness :
  exists n : nat,
    let results :=
      [ {| r_content := "ab"; r_score := 1; r_metadata := PyDict []; r_doc_id := "a" |};
        {| r_content := "cde"; r_score := 1; r_metadata := PyDict []; r_doc_id := "b" |};
        {| r_content := "f"; r_score := 1; r_metadata := PyDict []; r_doc_id := "c" |} ] in
    let included := contents (List.firstn n results) in
    (n <= List.length results)%nat
    /\ c_context (assemble "q" results 4) = join double_newline included
    /\ c_num_sources (assemble "q" results 4) = Z.of_nat n
    /\ cumulative_length included <= 4
    /\ (forall r, results !! n = Some r -> 4 < cumulative_length included + len (r_content r)).
Proof.
  apply (context_within_budget "q"
           [ {| r_content := "ab"; r_score := 1; r_metadata := PyDict []; r_doc_id := "a" |};
             {| r_content := "cde"; r_score := 1; r_metadata := PyDict []; r_doc_id := "b" |};
             {| r_content := "f"; r_score := 1; r_metadata := PyDict []; r_doc_id := "c" |} ]
           4).
  lia.
Defined.

Lemma len_append s1 s2 : len (s1 ++ s2)%string = len s1 + len s2.
Proof.
  unfold len. induction s1 as [|a s1 IH]; [reflexivity|].
  change (String a s1 ++ s2)%string with (String a (s1 ++ s2)%string).
  cbn [String.length]. lia.
Qed.

(** C9. The assembled context does exceed the budget, which the
    function documents as the maximum context length in characters:
    the loop counts the contents only, and the two newlines between
    them come on top. With a budget of 4 and two stored chunks [ab]
    and [cd], [get_context_for_generation] includes both (2 + 2 <= 4)
    and returns a context of 6 characters. With the default budget of
    2000, four results of 500 characters are all included and the
    context has 2006 characters. *)
Theorem context_exceeds_budget :
  (exists data evs,
     @get_context_for_generation toy_collaborators two_chunk_store "q" 5 4
       = (Ok data, evs)
     /\ c_context data = ("ab" ++ double_newline ++ "cd")%string
     /\ c_num_sources data = 2
     /\ len (c_context data) = 6
     /\ 4 < len (c_context data))
  /\ c_num_sources (assemble "q" four_long_results 2000) = 4
  /\ len (c_context (assemble "q" four_long_results 2000)) = 2006
  /\ 2000 < len (c_context (assemble "q" four_long_results 2000)).
Proof.
  split; [|split; [|split]].
  - vm_compute. eexists _, _. repeat split.
  - vm_compute. reflexivity.
  - vm_compute. reflexivity.
  - vm_compute. reflexivity.
Qed.

(** The separators come on top of the cumulative length: the returned
    string is longer than the sum of its parts by two characters for
    each part after the first. *)
Lemma join_length parts :
  len (join double_newline parts) =
  cumulative_length parts + 2 * Z.of_nat (List.length parts - 1).
Proof.
  induction parts as [|p parts IH]; [reflexivity|].
  destruct parts as [|p' parts].
  - cbn. lia.
  - change (join double_newline (p :: p' :: parts))
      with (p ++ double_newline ++ join double_newline (p' :: parts))%string.
    rewrite !len_append, IH.
    cbn [cumulative_length List.fold_right List.length].
    change (len double_newline) with 2. lia.
Qed.

End ContextFacts.

(** ** Cache keys *)

Module KeyFacts.
Import Py Cache Scenario.

(** The order of [str]: strict and total. *)
Lemma ltb_asym a b : String.ltb a b = true -> String.ltb b a = false.
Proof.
  unfold String.ltb. rewrite (String.compare_antisym a b).
  destruct (String.compare b a); cbn; congruence.
Qed.

Lemma ltb_total a b : a <> b -> String.ltb a b = false -> String.ltb b a = true.
Proof.
  unfold String.ltb. intros Hne. rewrite (String.compare_antisym b a).
  destruct (String.compare a b) eqn:Hc; cbn; try congruence.
  apply String.compare_eq_iff in Hc. contradiction.
Qed.

Lemma ltb_lt a b : String.ltb a b = true <-> String_as_OT.lt a b.
Proof.
  unfold String.ltb. rewrite <- String_as_OT.cmp_lt. unfold String_as_OT.cmp.
  destruct (String.compare a b); split; congruence.
Qed.

Lemma ltb_trans a b c :
  String.ltb a b = true -> String.ltb b c = true -> String.ltb a c = true.
Proof. rewrite !ltb_lt. apply String_as_OT.lt_trans. Qed.

(** The items of a dict, each value encoded. *)
Definition encoded `{Runtime} (items : list (string * pyobj)) : list (string * string) :=
  List.map (fun kv => (fst kv, json_dumps (snd kv))) items.

Lemma json_dumps_dict `{Runtime} items :
  json_dumps (PyDict items) =
  ("{" ++ join ", " (List.map json_item (stable_sort key_lt (encoded items))) ++ "}")%string.
Proof. reflexivity. Qed.

(** Sorting the items and then encoding the values, as the encoder
    does, gives what encoding and then sorting gives. *)
Lemma sort_items_encoded `{Runtime} items :
  stable_sort key_lt (encoded items) = encoded (stable_sort key_lt items).
Proof. apply SortFacts.stable_sort_map. reflexivity. Qed.

Lemma encoded_keys `{Runtime} items :
  List.map fst (encoded items) = List.map fst items.
Proof. unfold encoded. rewrite List.map_map. reflexivity. Qed.

(** Items in any order are sorted into one list, when keys are
    distinct. *)
Lemma sorted_items_unique {B : Type} (l1 l2 : list (string * B)) :
  Permutation l1 l2 -> List.NoDup (List.map fst l1) ->
  stable_sort key_lt l1 = stable_sort key_lt l2.
Proof.
  apply (SortFacts.stable_sort_perm_eq fst String.ltb ltb_asym ltb_trans ltb_total).
Qed.

(** Two objects with the same content: equal atoms, lists with the
    same content at each position, dicts with the same keys and, under
    each key, the same content, whatever the insertion order. *)
Inductive same_value : pyobj -> pyobj -> Prop :=
| same_none : same_value PyNone PyNone
| same_bool b : same_value (PyBool b) (PyBool b)
| same_int z : same_value (PyInt z) (PyInt z)
| same_float f : same_value (PyFloat f) (PyFloat f)
| same_str s : same_value (PyStr s) (PyStr s)
| same_list l1 l2 :
    Forall2 same_value l1 l2 -> same_value (PyList l1) (PyList l2)
| same_dict d1 d1' d2 :
    List.NoDup (List.map fst d1) ->
    Permutation d1 d1' ->
    Forall2 (fun x y => fst x = fst y /\ same_value (snd x) (snd y)) d1' d2 ->
    same_value (PyDict d1) (PyDict d2).

(** Induction on objects that reaches inside lists and dicts. *)
Section PyobjInd.
Variable P : pyobj -> Prop.
Hypothesis P_none : P PyNone.
Hypothesis P_bool : forall b, P (PyBool b).
Hypothesis P_int : forall z, P (PyInt z).
Hypothesis P_float : forall f, P (PyFloat f).
Hypothesis P_str : forall s, P (PyStr s).
Hypothesis P_list : forall l, Forall P l -> P (PyList l).
Hypothesis P_dict : forall items, Forall (fun kv => P (snd kv)) items -> P (PyDict items).

Fixpoint pyobj_nested_ind (o : pyobj) : P o :=
  match o with
  | PyNone => P_none
  | PyBool b => P_bool b
  | PyInt z => P_int z
  | PyFloat f => P_float f
  | PyStr s => P_str s
  | PyList l =>
      P_list l
        ((fix go (l : list pyobj) : Forall P l :=
            match l with
            | [] => @List.Forall_nil _ P
            | x :: l' => @List.Forall_cons _ P x l' (pyobj_nested_ind x) (go l')
            end) l)
  | PyDict items =>
      P_dict items
        ((fix go (items : list (string * pyobj)) : Forall (fun kv => P (snd kv)) items :=
            match items with
            | [] => @List.Forall_nil _ _
            | kv :: items' =>
                @List.Forall_cons _ (fun kv => P (snd kv)) kv items'
                  (pyobj_nested_ind (snd kv)) (go items')
            end) items)
  end.
End PyobjInd.

Lemma json_dumps_same_value `{Runtime} o1 :
  forall o2, same_value o1 o2 -> json_dumps o1 = json_dumps o2.
Proof.
  induction o1 as [| | | | |l IH|items IH] using pyobj_nested_ind;
    intros o2 Hsame; inversion Hsame; subst; try reflexivity.
  - (* lists *)
    match goal with H : Forall2 same_value l ?l2 |- _ => rename H into Hl end.
    assert (List.map json_dumps l = List.map json_dumps l2) as Hmap.
    { clear Hsame. induction Hl as [|x y l l2 Hxy Hl IHl]; [reflexivity|].
      apply Forall_cons_iff in IH as [Hx IH]. cbn [List.map].
      rewrite (Hx y Hxy). f_equal. now apply IHl. }
    cbn [json_dumps]. now rewrite Hmap.
  - (* dicts *)
    match goal with
    | Hnd : List.NoDup _, Hp : Permutation items ?d1', Hf : Forall2 _ ?d1' ?d2 |- _ =>
        rename Hnd into Hkeys; rename Hp into Hperm; rename Hf into Hitems
    end.
    assert (stable_sort key_lt (encoded items) = stable_sort key_lt (encoded d2)) as Hsort.
    { transitivity (stable_sort key_lt (encoded d1')).
      - apply sorted_items_unique.
        + unfold encoded. now apply Permutation_map.
        + now rewrite encoded_keys.
      - f_equal. rewrite Hperm in IH. clear Hperm Hkeys Hsame.
        induction Hitems as [|x y l l2 [Hk Hv] Hl IHl]; [reflexivity|].
        apply Forall_cons_iff in IH as [Hx IH].
        unfold encoded in *. cbn [List.map].
        rewrite Hk, (Hx _ Hv). f_equal. now apply IHl. }
    rewrite !json_dumps_dict. now rewrite Hsort.
Qed.

Lemma generate_key_dict `{Runtime} items :
  _generate_key (PyDict items) = sha256_hexdigest (json_dumps (PyDict items)).
Proof. reflexivity. Qed.

(** C8. Two mappings with the same key-value pairs, whatever their
    insertion orders, get the same key. The same holds when values
    that are themselves mappings differ in insertion order, at any
    depth ([same_value]). In particular the keys of a:1, b:2 and of
    b:2, a:1 are equal. *)
Theorem generate_key_order_independent `{Runtime} :
  (forall d1 d2 : list (string * pyobj),
     List.NoDup (List.map fst d1) -> List.NoDup (List.map fst d2) ->
     (forall kv, List.In kv d1 <-> List.In kv d2) ->
     _generate_key (PyDict d1) = _generate_key (PyDict d2))
  /\ (forall o1 o2 : pyobj, same_value o1 o2 -> _generate_key o1 = _generate_key o2)
  /\ _generate_key (PyDict [("a", PyInt 1); ("b", PyInt 2)]) =
     _generate_key (PyDict [("b", PyInt 2); ("a", PyInt 1)]).
Proof.
  split; [|split].
  - intros d1 d2 Hk1 Hk2 Hsame.
    assert (stable_sort key_lt (encoded d1) = stable_sort key_lt (encoded d2)) as Hsort.
    { apply sorted_items_unique; [|now rewrite encoded_keys].
      unfold encoded. apply Permutation_map.
      apply Permutation.NoDup_Permutation; [| |assumption].
      - now apply List.NoDup_map_inv in Hk1.
      - now apply List.NoDup_map_inv in Hk2. }
    rewrite !generate_key_dict, !json_dumps_dict. now rewrite Hsort.
  - intros o1 o2 Hsame.
    pose proof (json_dumps_same_value o1 o2 Hsame) as Hdumps.
    destruct Hsame; try reflexivity; unfold _generate_key; now rewrite Hdumps.
  - reflexivity.
Qed.

Lemma generate_key_order_independent_witness :
  @_generate_key toy_runtime
     (PyDict [("query", PyStr "q"); ("context", PyStr "c")]) =
  @_generate_key toy_runtime
     (PyDict [("context", PyStr "c"); ("query", PyStr "q")])
  /\ @_generate_key toy_runtime
       (PyDict [("k", PyDict [("x", PyInt 1); ("y", PyNone)]); ("j", PyList [])]) =
     @_generate_key toy_runtime
       (PyDict [("j", PyList []); ("k", PyDict [("y", PyNone); ("x", PyInt 1)])]).
Proof.
  split.
  - apply (proj1 (@generate_key_order_independent toy_runtime)).
    + vm_compute. repeat constructor; cbn; intuition discriminate.
    + vm_compute. repeat constructor; cbn; intuition discriminate.
    + intros kv. cbn. tauto.
  - apply (proj1 (proj2 (@generate_key_order_independent toy_runtime))).
    apply (same_dict _ [("j", PyList []); ("k", PyDict [("x", PyInt 1); ("y", PyNone)])]).
    + cbn. repeat constructor; cbn; intuition discriminate.
    + apply perm_swap.
    + constructor; [split; [reflexivity|repeat constructor]|].
      constructor; [|constructor]. split; [reflexivity|].
      apply (same_dict _ [("y", PyNone); ("x", PyInt 1)]).
      * cbn. repeat constructor; cbn; intuition discriminate.
      * apply perm_swap.
      * repeat constructor.
Defined.

End KeyFacts.

(** ** Cache entries *)

Module CacheFacts.
Import Py Cache Scenario.

Lemma is_expired_fresh self d now path f :
  files d !! path = Some f -> now - st_mtime f <= ttl self ->
  _is_expired self d now path = false.
Proof.
  intros Hf Hage. unfold _is_expired. rewrite Hf.
  rewrite Z.gtb_ltb. apply Z.ltb_ge. assumption.
Qed.

Lemma getitem_not_caught o key :
  match getitem o key with
  | Raise FileNotFoundError | Raise UnpicklingError => Ok PyNone
  | r => r
  end = getitem o key.
Proof.
  destruct o; cbn; try reflexivity. destruct (dict_get items key); reflexivity.
Qed.

(** What [get] does with an entry that is present and not expired. *)
Lemma get_unexpired self d now key category f :
  files d !! (category, key) = Some f -> now - st_mtime f <= ttl self ->
  get self d now key category =
  match f_content f with
  | Pickled o => getitem o "value"
  | Empty => Raise EOFError
  | Garbage => Ok PyNone
  end.
Proof.
  intros Hf Hage. unfold get, _get_cache_path.
  rewrite (is_expired_fresh self d now _ f Hf Hage).
  unfold pickle_load. rewrite Hf.
  destruct (f_content f); cbn [bind]; [apply getitem_not_caught|reflexivity|reflexivity].
Qed.

(** An entry older than [ttl], like a missing one, is a miss. *)
Lemma get_expired self d now key category :
  (forall f, files d !! (category, key) = Some f -> ttl self < now - st_mtime f) ->
  get self d now key category = Ok PyNone.
Proof.
  intros Hold. unfold get, _get_cache_path, _is_expired.
  destruct (files d !! (category, key)) as [f|] eqn:Hf; [|reflexivity].
  specialize (Hold f eq_refl). apply Z.gtb_lt in Hold. now rewrite Hold.
Qed.

Lemma set_in_category self d now key value category :
  category ∈ dirs d ->
  set self d now key value category =
  (Ok tt,
   {| dirs := dirs d;
      files := <[ (category, key) :=
                  {| f_content :=
                       Pickled (PyDict [("value", value); ("timestamp", PyInt now)]);
                     st_mtime := now |} ]> (files d) |}).
Proof.
  intros Hdir. unfold set. rewrite bool_decide_eq_true_2 by assumption. reflexivity.
Qed.

(** For a key and a category that are plain names, in a category
    whose directory exists, an entry read back within [ttl] of its
    write is the value written; read back later it is a miss. *)
Theorem set_get_roundtrip self d now now' key value category :
  plain_key key = true -> plain_category category = true ->
  category ∈ dirs d ->
  (now' - now <= ttl self ->
   get self (snd (set self d now key value category)) now' key category = Ok value)
  /\ (ttl self < now' - now ->
      get self (snd (set self d now key value category)) now' key category = Ok PyNone).
Proof.
  intros _ _ Hdir. rewrite (set_in_category _ _ _ _ _ _ Hdir). cbn [snd].
  split; intros Hage.
  - rewrite (get_unexpired _ _ _ _ _
               {| f_content := Pickled (PyDict [("value", value); ("timestamp", PyInt now)]);
                  st_mtime := now |}).
    + reflexivity.
    + cbn [files]. apply lookup_insert_eq.
    + assumption.
  - apply get_expired. cbn [files]. rewrite lookup_insert_eq. intros f [= <-]. assumption.
Qed.

Lemma set_get_roundtrip_witness :
  get (fst fresh_cache)
    (snd (set (fst fresh_cache) (snd fresh_cache) 100 "k" (PyStr "v") "embeddings"))
    3700 "k" "embeddings" = Ok (PyStr "v")
  /\ get (fst fresh_cache)
       (snd (set (fst fresh_cache) (snd fresh_cache) 100 "k" (PyStr "v") "embeddings"))
       3701 "k" "embeddings" = Ok PyNone.
Proof.
  assert ("embeddings" ∈ dirs (snd fresh_cache)) as Hdir by (vm_compute; set_solver).
  split.
  - apply (proj1 (set_get_roundtrip (fst fresh_cache) (snd fresh_cache)
                    100 3700 "k" (PyStr "v") "embeddings" eq_refl eq_refl Hdir)).
    vm_compute. discriminate.
  - apply (proj2 (set_get_roundtrip (fst fresh_cache) (snd fresh_cache)
                    100 3701 "k" (PyStr "v") "embeddings" eq_refl eq_refl Hdir)).
    vm_compute. reflexivity.
Defined.

(** C7. The round trip does not hold for every category: on the
    directory that [CacheManager()] creates, [set] with its own
    default category [general] raises [FileNotFoundError] (the
    constructor makes the directories of [embeddings], [queries] and
    [responses] only, and [set] makes none), nothing is stored, and a
    [get] of the same key finds nothing. *)
Theorem set_default_category_raises :
  set (fst fresh_cache) (snd fresh_cache) 100 "k" (PyInt 1) "general"
    = (Raise FileNotFoundError, snd fresh_cache)
  /\ get (fst fresh_cache) (snd fresh_cache) 100 "k" "general" = Ok PyNone.
Proof. split; vm_compute; reflexivity. Qed.

(** C3. A present, unexpired entry that cannot be read is not always a
    miss: [get] catches [FileNotFoundError] and [UnpicklingError] only.
    On a zero-length entry (what [open(path, 'wb')] leaves until
    [pickle.dump] has written) [pickle.load] raises [EOFError], and so
    does [get]. With bytes that are no pickle at all in the place of
    the same entry, [get] is a miss, as intended. *)
Theorem get_raises_on_truncated_entry :
  _is_expired (fst fresh_cache) truncated_entry 200 ("queries", "k") = false
  /\ get (fst fresh_cache) truncated_entry 200 "k" "queries" = Raise EOFError
  /\ get (fst fresh_cache)
       {| dirs := dirs truncated_entry;
          files := <[ ("queries", "k") := {| f_content := Garbage; st_mtime := 100 |} ]>
                     (files truncated_entry) |}
       200 "k" "queries" = Ok PyNone.
Proof. repeat split; vm_compute; reflexivity. Qed.

End CacheFacts.

(** ** The query entry point *)

Module QueryFacts.
Import Py World Cache QueryProcessor DocuMind Scenario CacheFacts.

(** The events that are embedding, search or generation work. *)
Definition is_work (e : event) : bool :=
  match e with
  | EmbedQuery _ | IndexSearch | Generate _ _ => true
  | LogInfo _ | LogError _ => false
  end.

(** The result of an invocation that ran to its end. *)
Definition succeeded (r : pyobj) : Prop :=
  getitem r "status" = Ok (PyStr "success").

(** What the second of two invocations added to the trace. *)
Definition second_run_events `{Runtime} `{Collaborators} (self : t)
    (now1 now2 : Z) (question : string) (top_k : Z) : list event :=
  let self1 := snd (query self now1 question top_k) in
  List.skipn (List.length (trace self1)) (trace (snd (query self1 now2 question top_k))).

Lemma emit_emit self evs1 evs2 : emit (emit self evs1) evs2 = emit self (evs1 ++ evs2).
Proof. unfold emit. cbn. now rewrite app_assoc. Qed.

(** Recording events changes the trace only. *)
Lemma use_cache_emit self evs : use_cache (emit self evs) = use_cache self.
Proof. reflexivity. Qed.

Lemma cache_emit self evs : cache (emit self evs) = cache self.
Proof. reflexivity. Qed.

Lemma disk_emit self evs : disk (emit self evs) = disk self.
Proof. reflexivity. Qed.

Lemma vector_store_emit self evs : vector_store (emit self evs) = vector_store self.
Proof. reflexivity. Qed.

Ltac emit_fields :=
  rewrite ?use_cache_emit, ?cache_emit, ?disk_emit, ?vector_store_emit.

Ltac emit_fields_in H :=
  rewrite ?use_cache_emit, ?cache_emit, ?disk_emit, ?vector_store_emit in H.

Lemma handle_error_not_succeeded `{Collaborators} self e context :
  ~ succeeded (fst (handle_error self e context)).
Proof. unfold succeeded. cbn. discriminate. Qed.

Lemma get_cached_query_key `{Runtime} cm d now question :
  get_cached_query cm d now question = get cm d now (sha256_hexdigest question) "queries".
Proof. reflexivity. Qed.

(** An invocation that went through [handle_error] did not succeed. *)
Ltac failed_run Hquery Hsucc :=
  exfalso; injection Hquery as <- _;
  unfold succeeded in Hsucc; cbn in Hsucc; discriminate Hsucc.

(** A hit stays a hit while the entry is within [ttl]. *)
Lemma get_stable self d now1 now2 key category c :
  get self d now1 key category = Ok c -> c <> PyNone ->
  (forall f, files d !! (category, key) = Some f -> now2 - st_mtime f <= ttl self) ->
  get self d now2 key category = Ok c.
Proof.
  intros Hget Hc Hage. unfold get, _get_cache_path in *.
  destruct (files d !! (category, key)) as [f|] eqn:Hf.
  - rewrite (is_expired_fresh self d now2 _ f Hf (Hage f eq_refl)).
    destruct (_is_expired self d now1 (category, key)); [congruence|exact Hget].
  - unfold _is_expired in Hget. rewrite Hf in Hget. congruence.
Qed.

(** The path of [query] on a hit. *)
Lemma query_hit `{Runtime} `{Collaborators} self now question top_k cm c :
  use_cache self = true -> cache self = Some cm ->
  get cm (disk self) now (sha256_hexdigest question) "queries" = Ok c ->
  c <> PyNone ->
  query self now question top_k =
  (c, emit self [LogInfo ("Processing query: " ++ question)%string;
                 LogInfo "Returning cached query result"]).
Proof.
  intros Huse Hcache Hget Hc. unfold query, query_body, read_cache.
  emit_fields. rewrite Huse, Hcache, get_cached_query_key, Hget.
  destruct c; try congruence; rewrite emit_emit; reflexivity.
Qed.

(** How an invocation with the cache enabled can have succeeded:
    through a hit, or by computing and storing its result. *)
Lemma query_succeeded_cases `{Runtime} `{Collaborators} self now question top_k r self1 :
  use_cache self = true ->
  query self now question top_k = (r, self1) ->
  succeeded r ->
  exists cm,
    cache self = Some cm /\ cache self1 = Some cm /\ use_cache self1 = true
    /\ r <> PyNone
    /\ ((get cm (disk self) now (sha256_hexdigest question) "queries" = Ok r
         /\ disk self1 = disk self)
        \/ ("queries" ∈ dirs (disk self)
            /\ disk self1 =
               snd (set cm (disk self) now (sha256_hexdigest question) r "queries"))).
Proof.
  intros Huse Hquery Hsucc.
  assert (r <> PyNone) as Hr by (intros ->; discriminate Hsucc).
  unfold query, query_body, read_cache in Hquery. emit_fields_in Hquery.
  rewrite Huse in Hquery.
  destruct (cache self) as [cm|] eqn:Hcache.
  2:{ failed_run Hquery Hsucc. }
  exists cm. split; [reflexivity|].
  rewrite get_cached_query_key in Hquery.
  destruct (get cm (disk self) now (sha256_hexdigest question) "queries")
    as [c|e] eqn:Hget.
  2:{ failed_run Hquery Hsucc. }
  assert (c = PyNone \/ c <> PyNone) as [->|Hc]
    by (destruct c; (now left) || (right; discriminate)).
  - (* a miss: the result is computed *)
    unfold compute in Hquery. emit_fields_in Hquery.
    destruct (get_context_for_generation _ _ _ _) as [[context_data|e] evs].
    2:{ failed_run Hquery Hsucc. }
    destruct (generate_with_sources _ _ _) as [[answer sources]|e].
    2:{ failed_run Hquery Hsucc. }
    emit_fields_in Hquery. rewrite Huse in Hquery.
    unfold write_cache, cache_query_result in Hquery. emit_fields_in Hquery.
    rewrite Hcache in Hquery.
    change (_generate_key (PyStr question)) with (sha256_hexdigest question) in Hquery.
    destruct (decide ("queries" ∈ dirs (disk self))) as [Hdir|Hdir].
    + rewrite set_in_category in Hquery by assumption.
      cbn in Hquery. injection Hquery as <- <-.
      rewrite set_in_category by assumption. cbn.
      repeat split; try assumption. right. split; [assumption|reflexivity].
    + unfold set in Hquery.
      rewrite bool_decide_eq_false_2 in Hquery by assumption.
      cbn in Hquery. failed_run Hquery Hsucc.
  - (* a hit *)
    assert ((r, self1) =
            (c, emit (emit self [LogInfo ("Processing query: " ++ question)%string])
                  [LogInfo "Returning cached query result"])) as Heq.
    { rewrite <- Hquery. destruct c; try congruence; reflexivity. }
    injection Heq as -> ->. cbn.
    repeat split; try assumption. left. split; reflexivity.
Qed.

(** C1 as stated fails. With stand-in collaborators, a second
    identical query embeds, searches and generates again (1) when the
    application was built with [use_cache=False], (2) when the entry
    of the first invocation is older than [ttl], and (3) when the
    first invocation failed, since a failure is not stored. *)
Lemma repeated_query_recomputes :
  @second_run_events toy_runtime toy_collaborators
     (init false 3600 3 empty_fs) 100 200 "hi" 5 =
   [LogInfo "Processing query: hi"; EmbedQuery "hi"; IndexSearch;
    Generate "hi" EmptyString; LogInfo "Query processed successfully"]
  /\ @second_run_events toy_runtime toy_collaborators
       (init true 3600 3 empty_fs) 100 3701 "hi" 5 =
     [LogInfo "Processing query: hi"; EmbedQuery "hi"; IndexSearch;
      Generate "hi" EmptyString; LogInfo "Query processed successfully"]
  /\ @second_run_events toy_runtime toy_collaborators
       (init true 3600 3 empty_fs) 100 200 "boom" 5 =
     [LogInfo "Processing query: boom"; EmbedQuery "boom";
      LogError "Error in query: RuntimeError"].
Proof. repeat split; vm_compute; reflexivity. Qed.

(** C1, amended. When the cache is enabled, the first invocation ran
    to its end with a success result, and the entry of the query is
    within [ttl] at the second invocation, then the second invocation
    with the same question (whatever its [top_k]) returns the result
    of the first and adds only log records to the trace: no call of
    the embedding model, no index search, no generation. The entry is
    the one of category [queries] under the SHA-256 digest of the
    query text, and it holds that result. *)
Theorem repeated_query_short_circuits `{Runtime} `{Collaborators}
    (self self1 : t) (now1 now2 : Z) (question : string) (top_k1 top_k2 : Z)
    (r : pyobj) :
  use_cache self = true ->
  query self now1 question top_k1 = (r, self1) ->
  succeeded r ->
  (forall cm f,
     cache self1 = Some cm ->
     files (disk self1) !! ("queries", sha256_hexdigest question) = Some f ->
     now2 - st_mtime f <= ttl cm) ->
  exists cm evs,
    cache self1 = Some cm
    /\ get cm (disk self1) now2 (sha256_hexdigest question) "queries" = Ok r
    /\ query self1 now2 question top_k2 = (r, emit self1 evs)
    /\ Forall (fun e => is_work e = false) evs.
Proof.
  intros Huse Hquery Hsucc Hage.
  destruct (query_succeeded_cases self now1 question top_k1 r self1 Huse Hquery Hsucc)
    as (cm & Hcache & Hcache1 & Huse1 & Hr & Hcases).
  specialize (Hage cm).
  assert (get cm (disk self1) now2 (sha256_hexdigest question) "queries" = Ok r) as Hget.
  { destruct Hcases as [[Hget Hdisk]|[Hdir Hdisk]].
    - rewrite Hdisk in *. apply (get_stable cm (disk self) now1 now2); auto.
    - rewrite Hdisk in *. rewrite (set_in_category _ _ _ _ _ _ Hdir) in *.
      cbn [snd files] in *.
      rewrite (get_unexpired _ _ _ _ _
                 {| f_content :=
                      Pickled (PyDict [("value", r); ("timestamp", PyInt now1)]);
                    st_mtime := now1 |}).
      + reflexivity.
      + apply lookup_insert_eq.
      + apply (Hage _ Hcache1). apply lookup_insert_eq. }
  exists cm, [LogInfo ("Processing query: " ++ question)%string;
              LogInfo "Returning cached query result"].
  split; [assumption|]. split; [assumption|]. split.
  - now apply query_hit with cm.
  - repeat constructor.
Qed.

Lemma repeated_query_short_circuits_witness :
  exists cm evs,
    cache (snd (@query toy_runtime toy_collaborators (init true 3600 3 empty_fs) 100 "hi" 5))
      = Some cm
    /\ get cm
         (disk (snd (@query toy_runtime toy_collaborators
                       (init true 3600 3 empty_fs) 100 "hi" 5)))
         3700 (@sha256_hexdigest toy_runtime "hi") "queries"
       = Ok (fst (@query toy_runtime toy_collaborators (init true 3600 3 empty_fs) 100 "hi" 5))
    /\ @query toy_runtime toy_collaborators
         (snd (@query toy_runtime toy_collaborators (init true 3600 3 empty_fs) 100 "hi" 5))
         3700 "hi" 2
       = (fst (@query toy_runtime toy_collaborators (init true 3600 3 empty_fs) 100 "hi" 5),
          emit (snd (@query toy_runtime toy_collaborators
                       (init true 3600 3 empty_fs) 100 "hi" 5)) evs)
    /\ Forall (fun e => is_work e = false) evs.
Proof.
  apply (@repeated_query_short_circuits toy_runtime toy_collaborators
           (init true 3600 3 empty_fs) _ 100 3700 "hi" 5 2).
  - reflexivity.
  - apply surjective_pairing.
  - vm_compute. reflexivity.
  - intros cm f Hcm Hf. vm_compute in Hcm. injection Hcm as <-.
    vm_compute in Hf. injection Hf as <-. vm_compute. discriminate.
Defined.

End QueryFacts.

(** ** Lookup and deletion in the vector index *)

Module StoreOps.
Import Py VectorStore Scenario VectorStoreFacts.

(** No document of the list carries the id. *)
Definition absent (doc_id : string) (docs : list VectorDocument) : Prop :=
  Forall (fun doc => id doc <> doc_id) docs.

Lemma get_by_id_app docs1 docs2 doc_id :
  get_by_id (docs1 ++ docs2) doc_id =
  match get_by_id docs1 doc_id with
  | Some doc => Some doc
  | None => get_by_id docs2 doc_id
  end.
Proof.
  induction docs1 as [|doc docs1 IH]; [reflexivity|].
  cbn. destruct (String.eqb (id doc) doc_id); [reflexivity|exact IH].
Qed.

Lemma get_by_id_absent docs doc_id :
  absent doc_id docs -> get_by_id docs doc_id = None.
Proof.
  induction 1 as [|doc docs Hne _ IH]; [reflexivity|].
  cbn. apply String.eqb_neq in Hne. now rewrite Hne.
Qed.

(** [get_by_id] returns the first document, in insertion order, that
    carries the id, and nothing exactly when no stored document
    carries it. *)
Theorem get_by_id_first_match (docs : list VectorDocument) (doc_id : string) :
  match get_by_id docs doc_id with
  | Some doc =>
      exists before after,
        docs = before ++ doc :: after /\ id doc = doc_id /\ absent doc_id before
  | None => absent doc_id docs
  end.
Proof.
  induction docs as [|doc docs IH]; [constructor|].
  cbn. destruct (String.eqb (id doc) doc_id) eqn:Heq.
  - apply String.eqb_eq in Heq. exists [], docs. repeat split; [assumption|constructor].
  - apply String.eqb_neq in Heq.
    destruct (get_by_id docs doc_id) as [found|].
    + destruct IH as (before & after & -> & Hid & Habs).
      exists (doc :: before), after. repeat split; [assumption|now constructor].
    + now constructor.
Qed.

(** After a successful insert, a lookup of the inserted id finds the
    document that carried the id before, when there was one (the new
    entry is stored behind it and is not reachable by id), and the new
    document otherwise; lookups of other ids are unchanged. *)
Theorem add_document_then_get_by_id self doc_id content_ embedding_ metadata_ self' :
  add_document self doc_id content_ embedding_ metadata_ = (Ok tt, self') ->
  get_by_id (documents self') doc_id =
    match get_by_id (documents self) doc_id with
    | Some older => Some older
    | None =>
        Some {| id := doc_id; content := content_; embedding := embedding_;
                metadata := if truthy metadata_ then metadata_ else PyDict [] |}
    end
  /\ (forall other, other <> doc_id ->
      get_by_id (documents self') other = get_by_id (documents self) other)
  /\ size self' = size self + 1.
Proof.
  intros Hadd.
  destruct (Z.eq_dec (shape0 embedding_) (dimension self)) as [Heq|Hne].
  - rewrite (add_document_ok _ _ _ _ _ Heq) in Hadd. injection Hadd as <-.
    cbn [documents]. split; [|split].
    + rewrite get_by_id_app. cbn. now rewrite String.eqb_refl.
    + intros other Hother. rewrite get_by_id_app. cbn.
      apply not_eq_sym, String.eqb_neq in Hother. rewrite Hother.
      now destruct (get_by_id (documents self) other).
    + unfold size. cbn [documents]. rewrite length_app. cbn. lia.
  - destruct (add_document_mismatch self doc_id content_ embedding_ metadata_ Hne)
      as (e & _ & Hraise). rewrite Hraise in Hadd. discriminate.
Qed.

Lemma add_document_then_get_by_id_witness :
  get_by_id (documents (snd (add_document abc_store "a" "again" [0; 0; 1]%float PyNone))) "a"
  = match get_by_id (documents abc_store) "a" with
    | Some older => Some older
    | None =>
        Some {| id := "a"; content := "again"; embedding := [0; 0; 1]%float;
                metadata := if truthy PyNone then PyNone else PyDict [] |}
    end
  /\ (forall other, other <> "a" ->
      get_by_id (documents (snd (add_document abc_store "a" "again" [0; 0; 1]%float PyNone)))
        other = get_by_id (documents abc_store) other)
  /\ size (snd (add_document abc_store "a" "again" [0; 0; 1]%float PyNone))
     = size abc_store + 1.
Proof.
  apply (add_document_then_get_by_id abc_store "a" "again" [0; 0; 1]%float PyNone).
  vm_compute. reflexivity.
Defined.

Lemma first_index_split docs doc_id : forall i,
  match first_index docs doc_id i with
  | Some j =>
      exists before doc after,
        docs = before ++ doc :: after /\ id doc = doc_id /\ absent doc_id before
        /\ j = (i + List.length before)%nat
  | None => absent doc_id docs
  end.
Proof.
  induction docs as [|doc docs IH]; intros i; [constructor|].
  cbn. destruct (String.eqb (id doc) doc_id) eqn:Heq.
  - apply String.eqb_eq in Heq. exists [], doc, docs. cbn.
    repeat split; [assumption|constructor|lia].
  - apply String.eqb_neq in Heq. specialize (IH (S i)).
    destruct (first_index docs doc_id (S i)) as [j|].
    + destruct IH as (before & found & after & -> & Hid & Habs & ->).
      exists (doc :: before), found, after. cbn.
      repeat split; [assumption|now constructor|lia].
    + now constructor.
Qed.

Lemma delete_at_length {A : Type} (before after : list A) (x : A) :
  base.delete (0 + List.length before)%nat (before ++ x :: after) = before ++ after.
Proof.
  cbn [Nat.add]. induction before as [|b before IH]; [reflexivity|].
  cbn. f_equal. exact IH.
Qed.

(** [delete] removes the first document that carries the id, keeps
    every other document in place, and rebuilds the position index;
    a later duplicate of the id then becomes the one a lookup finds.
    When no document carries the id it reports [False] and leaves the
    store as it is. *)
Theorem delete_first_match (self : t) (doc_id : string) :
  (absent doc_id (documents self) /\ delete self doc_id = (false, self))
  \/ (exists before doc after,
        documents self = before ++ doc :: after
        /\ id doc = doc_id /\ absent doc_id before
        /\ delete self doc_id =
           (true, {| dimension := dimension self;
                     documents := before ++ after;
                     index_to_id := rebuild_index (before ++ after) |})
        /\ get_by_id (before ++ after) doc_id = get_by_id after doc_id
        /\ size (snd (delete self doc_id)) = size self - 1).
Proof.
  unfold delete. pose proof (first_index_split (documents self) doc_id 0) as Hsplit.
  destruct (first_index (documents self) doc_id 0) as [j|].
  - right. destruct Hsplit as (before & doc & after & Hdocs & Hid & Habs & ->).
    exists before, doc, after.
    assert (base.delete (0 + List.length before)%nat (documents self) = before ++ after)
      as Hdel by (rewrite Hdocs; apply delete_at_length).
    rewrite Hdel. repeat split; try assumption.
    + rewrite get_by_id_app, (get_by_id_absent _ _ Habs). reflexivity.
    + unfold size. cbn [snd documents]. rewrite Hdocs, !length_app. cbn. lia.
  - left. split; [assumption|reflexivity].
Qed.

Lemma similarities_loop_members q threshold docs : forall acc sims,
  similarities_loop q threshold docs acc = Ok sims ->
  exists new,
    sims = acc ++ new
    /\ (List.length new <= List.length docs)%nat
    /\ Forall (fun x => List.In (fst x) docs
                        /\ cosine_similarity q (embedding (fst x)) = Ok (snd x)
                        /\ (threshold <=? snd x)%float = true) new.
Proof.
  induction docs as [|doc docs IH]; intros acc sims Hloop; cbn in Hloop.
  - injection Hloop as <-. exists []. rewrite app_nil_r.
    split; [reflexivity|]. split; [cbn; lia|constructor].
  - destruct (cosine_similarity q (embedding doc)) as [s|e] eqn:Hcos; [|discriminate].
    cbn [bind] in Hloop. destruct (threshold <=? s)%float eqn:Hth.
    + destruct (IH _ _ Hloop) as (new & -> & Hlen & Hall).
      exists ((doc, s) :: new). rewrite <- app_assoc. cbn [app].
      split; [reflexivity|]. split; [cbn; lia|].
      constructor; [cbn; auto|].
      eapply List.Forall_impl; [|exact Hall]. cbn. intros x (Hin & Hx & Hx'). auto.
    + destruct (IH _ _ Hloop) as (new & -> & Hlen & Hall).
      exists new. split; [reflexivity|]. split; [cbn; lia|].
      eapply List.Forall_impl; [|exact Hall]. cbn. intros x (Hin & Hx & Hx'). auto.
Qed.

Lemma take_slice_incl {A : Type} (l : list A) (k : Z) :
  List.incl (take_slice l k) l /\ (List.length (take_slice l k) <= List.length l)%nat
  /\ (0 <= k -> Z.of_nat (List.length (take_slice l k)) <= k).
Proof.
  unfold take_slice. split; [|split].
  - intros x Hx.
    rewrite <- (List.firstn_skipn
                  (Z.to_nat (adjust_index k (Z.of_nat (List.length l)))) l).
    apply List.in_or_app. now left.
  - rewrite List.length_firstn. lia.
  - intros Hk. rewrite List.length_firstn. unfold adjust_index.
    destruct (k <? 0) eqn:Hneg; [apply Z.ltb_lt in Hneg; lia|]. lia.
Qed.

(** What [search] returns, whenever it returns: stored documents,
    each with its cosine similarity to the query, none below the
    threshold; no more of them than the store holds, and no more than
    [top_k] when [top_k] is not negative. *)
Theorem search_bounds self query_embedding top_k threshold results :
  search self query_embedding top_k threshold = Ok results ->
  Forall (fun x => List.In (fst x) (documents self)
                   /\ cosine_similarity query_embedding (embedding (fst x)) = Ok (snd x)
                   /\ (threshold <=? snd x)%float = true) results
  /\ Z.of_nat (List.length results) <= size self
  /\ (0 <= top_k -> Z.of_nat (List.length results) <= top_k).
Proof.
  unfold search, size. intros Hsearch.
  destruct (List.length (documents self) =? 0)%nat.
  { injection Hsearch as <-. cbn. split; [constructor|]. split; lia. }
  destruct (similarities_loop query_embedding threshold (documents self) [])
    as [sims|e] eqn:Hloop; [|discriminate].
  cbn [bind] in Hsearch. injection Hsearch as <-.
  destruct (similarities_loop_members _ _ _ _ _ Hloop) as (new & -> & Hlen & Hall).
  cbn [app] in *.
  destruct (take_slice_incl (sort score_lt true new) top_k) as (Hincl & Hle & Hk).
  pose proof (SortFacts.sort_perm score_lt true new) as Hperm.
  unfold sort in *.
  split; [|split].
  - apply List.Forall_forall. intros x Hx. apply Hincl in Hx.
    rewrite List.Forall_forall in Hall. apply Hall.
    eapply Permutation_in; [exact Hperm|exact Hx].
  - rewrite (Permutation_length Hperm) in Hle. lia.
  - exact Hk.
Qed.

Lemma search_bounds_witness :
  exists results,
    search abc_store [1; 0; 0]%float 2 0.5%float = Ok results
    /\ Forall (fun x => List.In (fst x) (documents abc_store)
                        /\ cosine_similarity [1; 0; 0]%float (embedding (fst x)) = Ok (snd x)
                        /\ (0.5 <=? snd x)%float = true) results
    /\ Z.of_nat (List.length results) <= size abc_store
    /\ (0 <= 2 -> Z.of_nat (List.length results) <= 2).
Proof.
  eexists. split; [vm_compute; reflexivity|].
  apply (search_bounds abc_store [1; 0; 0]%float 2 0.5%float).
  vm_compute. reflexivity.
Defined.

End StoreOps.

(** ** Cache maintenance *)

Module CacheMaintenance.
Import Py Cache Scenario CacheFacts.

(** [_is_expired] and [get] look at one file only. *)
Lemma is_expired_ext self d1 d2 now path :
  files d1 !! path = files d2 !! path ->
  _is_expired self d1 now path = _is_expired self d2 now path.
Proof. intros Heq. unfold _is_expired. now rewrite Heq. Qed.

Lemma get_ext self d1 d2 now key category :
  files d1 !! (category, key) = files d2 !! (category, key) ->
  get self d1 now key category = get self d2 now key category.
Proof.
  intros Heq. unfold get, pickle_load, _get_cache_path.
  rewrite (is_expired_ext self d1 d2 now _ Heq). now rewrite Heq.
Qed.

Lemma get_missing self d now key category :
  files d !! (category, key) = None -> get self d now key category = Ok PyNone.
Proof.
  intros Hnone. apply get_expired. intros f Hf. rewrite Hnone in Hf. discriminate.
Qed.

Lemma get_of_expired self d now key category :
  _is_expired self d now (category, key) = true ->
  get self d now key category = Ok PyNone.
Proof. intros Hexp. unfold get, _get_cache_path. now rewrite Hexp. Qed.

(** The entries [glob] lists: the files of the category, once each,
    when its directory exists. *)
Lemma in_glob_pkl d category path :
  path ∈ glob_pkl d category <->
  category ∈ dirs d /\ fst path = category /\ is_Some (files d !! path).
Proof.
  rewrite list_elem_of_In.
  unfold glob_pkl. destruct (bool_decide (category ∈ dirs d)) eqn:Hdir.
  - apply bool_decide_eq_true in Hdir.
    rewrite List.filter_In, String.eqb_eq.
    change (List.map fst (map_to_list (files d))) with ((map_to_list (files d)).*1).
    rewrite <- list_elem_of_In, list_elem_of_fmap.
    split.
    + intros [((p & f) & -> & Hin) Hcat]. apply elem_of_map_to_list in Hin.
      cbn in *. repeat split; [assumption|assumption|eauto].
    + intros (_ & Hcat & f & Hf). split; [|assumption].
      exists (path, f). split; [reflexivity|]. now apply elem_of_map_to_list.
  - apply bool_decide_eq_false in Hdir. cbn. tauto.
Qed.

Lemma NoDup_glob_pkl d category : List.NoDup (glob_pkl d category).
Proof.
  unfold glob_pkl. destruct (bool_decide _); [|constructor].
  apply List.NoDup_filter.
  change (List.map fst (map_to_list (files d))) with ((map_to_list (files d)).*1).
  apply NoDup_ListNoDup, NoDup_fst_map_to_list.
Qed.

Lemma filter_length_perm {A : Type} (f : A -> bool) (l1 l2 : list A) :
  Permutation l1 l2 ->
  List.length (List.filter f l1) = List.length (List.filter f l2).
Proof.
  induction 1 as [|x l1 l2 _ IH|x y l|l1 l2 l3 _ IH1 _ IH2]; cbn.
  - reflexivity.
  - destruct (f x); cbn; congruence.
  - destruct (f x), (f y); reflexivity.
  - congruence.
Qed.

Lemma filter_length_split {A : Type} (f : A -> bool) (l : list A) :
  (List.length (List.filter f l)
   + List.length (List.filter (fun x => negb (f x)) l) = List.length l)%nat.
Proof. induction l as [|x l IH]; cbn; [reflexivity|]. destruct (f x); cbn; lia. Qed.

(** Two directories with the same files in a category list the same
    entries there, possibly in another order. *)
Lemma glob_pkl_perm d1 d2 category :
  dirs d1 = dirs d2 ->
  (forall path, fst path = category -> files d1 !! path = files d2 !! path) ->
  Permutation (glob_pkl d1 category) (glob_pkl d2 category).
Proof.
  intros Hdirs Hfiles. apply Permutation.NoDup_Permutation; try apply NoDup_glob_pkl.
  intros path. rewrite <- !list_elem_of_In, !in_glob_pkl, Hdirs.
  split; intros (Hdir & Hcat & Hf); repeat split; try assumption.
  - now rewrite <- Hfiles.
  - now rewrite Hfiles.
Qed.

Lemma bool_decide_cons {A : Type} `{EqDecision A} (x y : A) (l : list A) :
  bool_decide (x ∈ y :: l) = bool_decide (x = y) || bool_decide (x ∈ l).
Proof.
  destruct (decide (x = y)) as [->|Hne].
  - rewrite (bool_decide_eq_true_2 (y = y)) by reflexivity.
    now rewrite bool_decide_eq_true_2 by (apply elem_of_cons; now left).
  - rewrite (bool_decide_eq_false_2 (x = y)) by assumption. cbn [orb].
    apply bool_decide_ext. rewrite elem_of_cons. tauto.
Qed.

(** The loop of [clear_category] over any list of files. *)
Lemma unlink_loop l : forall n d,
  let r := List.fold_left
             (fun acc cache_file => (fst acc + 1, unlink (snd acc) cache_file)) l (n, d) in
  fst r = n + Z.of_nat (List.length l)
  /\ dirs (snd r) = dirs d
  /\ forall path,
       files (snd r) !! path =
       if bool_decide (path ∈ l) then None else files d !! path.
Proof.
  induction l as [|x l IH]; intros n d; cbn zeta.
  - cbn. split; [lia|]. split; [reflexivity|]. intros path.
    now rewrite bool_decide_eq_false_2 by apply not_elem_of_nil.
  - cbn [List.fold_left fst snd].
    destruct (IH (n + 1) (unlink d x)) as (Hn & Hdirs & Hfiles).
    split; [rewrite Hn; cbn [List.length]; lia|]. split; [exact Hdirs|].
    intros path. rewrite Hfiles, bool_decide_cons. cbn [unlink files].
    rewrite lookup_delete.
    destruct (decide (x = path)) as [->|Hne].
    + rewrite (bool_decide_eq_true_2 (path = path)) by reflexivity.
      now destruct (bool_decide _).
    + rewrite (bool_decide_eq_false_2 (path = x)) by congruence. reflexivity.
Qed.

(** For a category that is a plain name, [clear_category] removes
    exactly the entries of the category and returns how many there
    were; the entries of every other category are the same files as
    before, so their counts and every [get] in them are unchanged,
    and every [get] in the cleared category is a miss. The other
    categories and the keys are plain names too. *)
Theorem clear_category_isolation (self : CacheManager) (d : fs) (category : string) :
  plain_category category = true ->
  let r := clear_category self d category in
  fst r = Z.of_nat (List.length (glob_pkl d category))
  /\ dirs (snd r) = dirs d
  /\ glob_pkl (snd r) category = []
  /\ (forall other key,
        plain_category other = true -> plain_key key = true -> other <> category ->
        files (snd r) !! (other, key) = files d !! (other, key))
  /\ (forall other, plain_category other = true -> other <> category ->
      List.length (glob_pkl (snd r) other) = List.length (glob_pkl d other))
  /\ (forall other key now,
        plain_category other = true -> plain_key key = true -> other <> category ->
        get self (snd r) now key other = get self d now key other)
  /\ (forall key now, plain_key key = true -> category ∈ dirs d ->
      get self (snd r) now key category = Ok PyNone).
Proof.
  intros _. cbv zeta. unfold clear_category.
  destruct (unlink_loop (glob_pkl d category) 0 d) as (Hn & Hdirs & Hfiles).
  cbv zeta in *.
  set (r := List.fold_left _ _ _) in *.
  assert (forall path, fst path <> category -> files (snd r) !! path = files d !! path)
    as Hother.
  { intros path Hne. rewrite Hfiles. rewrite bool_decide_eq_false_2; [reflexivity|].
    rewrite in_glob_pkl. intros (_ & Hcat & _). contradiction. }
  assert (forall path, category ∈ dirs d -> fst path = category ->
                       files (snd r) !! path = None) as Hgone.
  { intros path Hdir Hcat. rewrite Hfiles.
    destruct (bool_decide (path ∈ glob_pkl d category)) eqn:Hin; [reflexivity|].
    apply bool_decide_eq_false in Hin. rewrite in_glob_pkl in Hin.
    destruct (files d !! path) eqn:Hf; [|reflexivity].
    exfalso. apply Hin. repeat split; [assumption|assumption|eauto]. }
  split; [lia|]. split; [assumption|]. split; [|split; [|split; [|split]]].
  - apply elem_of_nil_inv. intros path Hin.
    apply in_glob_pkl in Hin as (Hdir & Hcat & Hsome).
    rewrite Hdirs in Hdir. rewrite (Hgone path Hdir Hcat) in Hsome.
    now destruct Hsome.
  - intros other key _ _ Hne. now apply Hother.
  - intros other _ Hne. apply Permutation_length, glob_pkl_perm; [assumption|].
    intros path Hcat. apply Hother. congruence.
  - intros other key now _ _ Hne. apply get_ext, Hother. cbn. assumption.
  - intros key now _ Hdir. apply get_missing, Hgone; [assumption|reflexivity].
Qed.

Lemma clear_category_isolation_witness :
  fst (clear_category (fst fresh_cache) truncated_entry "queries")
  = Z.of_nat (List.length (glob_pkl truncated_entry "queries"))
  /\ get (fst fresh_cache)
       (snd (clear_category (fst fresh_cache) truncated_entry "queries"))
       200 "k" "queries" = Ok PyNone.
Proof.
  assert ("queries" ∈ dirs truncated_entry) as Hdir by (vm_compute; set_solver).
  pose proof (clear_category_isolation (fst fresh_cache) truncated_entry "queries"
                eq_refl) as Hclear.
  cbv zeta in Hclear.
  destruct Hclear as (Hcount & _ & _ & _ & _ & _ & Hmiss).
  split; [exact Hcount|]. apply Hmiss; [reflexivity|exact Hdir].
Defined.

(** The inner loop of [clear_expired] over a list of distinct files. *)
Lemma sweep_loop self now l : List.NoDup l -> forall n d,
  let r := List.fold_left
             (fun acc cache_file =>
                if _is_expired self (snd acc) now cache_file
                then (fst acc + 1, unlink (snd acc) cache_file)
                else acc) l (n, d) in
  fst r = n + Z.of_nat (List.length (List.filter (_is_expired self d now) l))
  /\ dirs (snd r) = dirs d
  /\ forall path,
       files (snd r) !! path =
       if bool_decide (path ∈ l) && _is_expired self d now path
       then None else files d !! path.
Proof.
  induction 1 as [|x l Hx Hnd IH]; intros n d; cbn zeta.
  - cbn. split; [lia|]. split; [reflexivity|]. intros path.
    now rewrite bool_decide_eq_false_2 by apply not_elem_of_nil.
  - cbn [List.fold_left fst snd List.filter].
    destruct (_is_expired self d now x) eqn:Hexp.
    + destruct (IH (n + 1) (unlink d x)) as (Hn & Hdirs & Hfiles).
      assert (forall path, path <> x ->
                _is_expired self (unlink d x) now path = _is_expired self d now path)
        as Hsame.
      { intros path Hne. apply is_expired_ext. cbn [unlink files].
        now rewrite lookup_delete_ne by congruence. }
      split; [|split; [exact Hdirs|]].
      * rewrite Hn. cbn [List.length].
        rewrite (List.filter_ext_in (_is_expired self (unlink d x) now)
                   (_is_expired self d now)); [lia|].
        intros path Hin. apply Hsame. intros ->. contradiction.
      * intros path. rewrite Hfiles, bool_decide_cons. cbn [unlink files].
        rewrite lookup_delete.
        destruct (decide (x = path)) as [<-|Hne].
        -- rewrite (bool_decide_eq_true_2 (x = x)) by reflexivity.
           rewrite Hexp. cbn. now destruct (_ && _).
        -- rewrite Hsame by congruence.
           rewrite (bool_decide_eq_false_2 (path = x)) by congruence. reflexivity.
    + destruct (IH n d) as (Hn & Hdirs & Hfiles).
      split; [exact Hn|]. split; [exact Hdirs|].
      intros path. rewrite Hfiles, bool_decide_cons.
      destruct (decide (x = path)) as [<-|Hne].
      * rewrite Hexp, !andb_false_r. reflexivity.
      * rewrite (bool_decide_eq_false_2 (path = x)) by congruence. reflexivity.
Qed.

(** The expired entries of a category, as [get_stats] counts them. *)
Definition count_expired (self : CacheManager) (d : fs) (now : Z) (category : string) : Z :=
  Z.of_nat (List.length (List.filter (_is_expired self d now) (glob_pkl d category))).

(** The files that a sweep of the categories [cs] removes. *)
Definition swept (cs : list string) (self : CacheManager) (d : fs) (now : Z)
    (path : string * string) : bool :=
  bool_decide (fst path ∈ cs) && bool_decide (fst path ∈ dirs d)
  && _is_expired self d now path.

Lemma sweep_category self now n d category :
  let r := clear_expired_in self now (n, d) category in
  fst r = n + count_expired self d now category
  /\ dirs (snd r) = dirs d
  /\ forall path,
       files (snd r) !! path =
       if swept [category] self d now path then None else files d !! path.
Proof.
  cbv zeta. unfold clear_expired_in. cbn [snd].
  destruct (sweep_loop self now (glob_pkl d category) (NoDup_glob_pkl d category) n d)
    as (Hn & Hdirs & Hfiles).
  split; [exact Hn|]. split; [exact Hdirs|].
  intros path. rewrite Hfiles. unfold swept.
  destruct (_is_expired self d now path) eqn:Hexp; rewrite ?andb_false_r; [|reflexivity].
  rewrite !andb_true_r.
  destruct (bool_decide (path ∈ glob_pkl d category)) eqn:Hin.
  - apply bool_decide_eq_true, in_glob_pkl in Hin as (Hdir & Hcat & _).
    rewrite (bool_decide_eq_true_2 (fst path ∈ [category]))
      by (apply list_elem_of_singleton; assumption).
    rewrite Hcat. now rewrite bool_decide_eq_true_2.
  - apply bool_decide_eq_false in Hin. rewrite in_glob_pkl in Hin.
    destruct (files d !! path) eqn:Hf; [|now destruct (_ && _)].
    rewrite (proj2 (andb_false_iff _ _)); [reflexivity|].
    destruct (bool_decide (fst path ∈ [category])) eqn:Hcat; [right|now left].
    apply bool_decide_eq_true, list_elem_of_singleton in Hcat.
    apply bool_decide_eq_false. intros Hdir. apply Hin.
    repeat split; [congruence|congruence|eauto].
Qed.

Lemma count_expired_ext self d1 d2 now category :
  dirs d1 = dirs d2 ->
  (forall path, fst path = category -> files d1 !! path = files d2 !! path) ->
  count_expired self d1 now category = count_expired self d2 now category.
Proof.
  intros Hdirs Hfiles. unfold count_expired. f_equal.
  rewrite (filter_length_perm _ _ _ (glob_pkl_perm d1 d2 category Hdirs Hfiles)).
  f_equal. apply List.filter_ext_in. intros path Hin.
  apply list_elem_of_In, in_glob_pkl in Hin as (_ & Hcat & _).
  apply is_expired_ext, Hfiles, Hcat.
Qed.

Lemma fold_sum_ext {A : Type} (f g : A -> Z) (l : list A) :
  (forall x, List.In x l -> f x = g x) ->
  List.fold_right (fun c acc => f c + acc) 0 l
  = List.fold_right (fun c acc => g c + acc) 0 l.
Proof.
  induction l as [|x l IH]; intros Hfg; [reflexivity|].
  cbn [List.fold_right]. rewrite IH, (Hfg x); [reflexivity|now left|].
  intros y Hy. apply Hfg. now right.
Qed.

Lemma sweep_categories self now cs : List.NoDup cs -> forall n d,
  let r := List.fold_left (clear_expired_in self now) cs (n, d) in
  fst r = n + List.fold_right (fun c acc => count_expired self d now c + acc) 0 cs
  /\ dirs (snd r) = dirs d
  /\ forall path,
       files (snd r) !! path =
       if swept cs self d now path then None else files d !! path.
Proof.
  induction 1 as [|c cs Hc Hnd IH]; intros n d; cbn zeta.
  - cbn. split; [lia|]. split; [reflexivity|]. intros path. unfold swept.
    now rewrite (bool_decide_eq_false_2 (fst path ∈ [])) by apply not_elem_of_nil.
  - cbn [List.fold_left List.fold_right].
    destruct (sweep_category self now n d c) as (Hn1 & Hdirs1 & Hfiles1).
    cbv zeta in *.
    destruct (clear_expired_in self now (n, d) c) as [n1 d1] eqn:Hstep.
    cbn [fst snd] in *.
    destruct (IH n1 d1) as (Hn & Hdirs & Hfiles).
    assert (forall path, fst path <> c -> files d1 !! path = files d !! path) as Hkeep.
    { intros path Hne. rewrite Hfiles1. unfold swept.
      rewrite (bool_decide_eq_false_2 (fst path ∈ [c])); [reflexivity|].
      rewrite list_elem_of_singleton. assumption. }
    split; [|split; [congruence|]].
    + rewrite Hn, Hn1.
      assert (List.fold_right (fun c acc => count_expired self d1 now c + acc) 0 cs
              = List.fold_right (fun c acc => count_expired self d now c + acc) 0 cs)
        as ->; [|lia].
      apply fold_sum_ext. intros c' Hin. apply count_expired_ext; [assumption|].
      intros path Hcat. apply Hkeep. intros Heq. apply Hc. congruence.
    + intros path. rewrite Hfiles. unfold swept in *. rewrite Hdirs1, bool_decide_cons.
      destruct (decide (fst path = c)) as [Hcat|Hcat].
      * rewrite (bool_decide_eq_false_2 (fst path ∈ cs))
          by (rewrite Hcat, list_elem_of_In; exact Hc).
        cbn [andb]. rewrite Hfiles1.
        rewrite (bool_decide_eq_true_2 (fst path ∈ [c]))
          by (apply list_elem_of_singleton; assumption).
        rewrite (bool_decide_eq_true_2 (fst path = c)) by assumption.
        reflexivity.
      * rewrite (is_expired_ext self d1 d now path (Hkeep path Hcat)), (Hkeep path Hcat).
        rewrite (bool_decide_eq_false_2 (fst path = c)) by assumption. reflexivity.
Qed.

Lemma NoDup_fixed_categories : List.NoDup fixed_categories.
Proof. unfold fixed_categories. repeat constructor; cbn; intuition discriminate. Qed.

Lemma clear_expired_files self d now :
  let r := clear_expired self d now in
  fst r = count_expired self d now "embeddings" + count_expired self d now "queries"
          + count_expired self d now "responses"
  /\ dirs (snd r) = dirs d
  /\ forall path,
       files (snd r) !! path =
       if swept fixed_categories self d now path then None else files d !! path.
Proof.
  cbv zeta. unfold clear_expired.
  destruct (sweep_categories self now fixed_categories NoDup_fixed_categories 0 d)
    as (Hn & Hdirs & Hfiles).
  cbv zeta in *. set (r := List.fold_left _ _ _) in *.
  split; [rewrite Hn; cbn; lia|]. split; [exact Hdirs|exact Hfiles].
Qed.

(** [clear_expired] removes exactly the entries of the three fixed
    categories that are expired when it runs, and returns their
    number. It never changes what [get] returns at that time, for any
    key and category, and it leaves every other category alone,
    expired entries included. *)
Theorem clear_expired_sweeps (self : CacheManager) (d : fs) (now : Z) :
  let r := clear_expired self d now in
  fst r = count_expired self d now "embeddings" + count_expired self d now "queries"
          + count_expired self d now "responses"
  /\ dirs (snd r) = dirs d
  /\ (forall path,
        files (snd r) !! path =
        if swept fixed_categories self d now path then None else files d !! path)
  /\ (forall key category, get self (snd r) now key category = get self d now key category)
  /\ (forall path, fst path ∉ fixed_categories ->
        files (snd r) !! path = files d !! path).
Proof.
  cbv zeta. destruct (clear_expired_files self d now) as (Hn & Hdirs & Hfiles).
  cbv zeta in *. set (r := clear_expired self d now) in *.
  split; [exact Hn|]. split; [exact Hdirs|]. split; [exact Hfiles|]. split.
  - intros key category. specialize (Hfiles (category, key)).
    destruct (swept fixed_categories self d now (category, key)) eqn:Hswept.
    + rewrite (get_missing _ _ _ _ _ Hfiles). symmetry. apply get_of_expired.
      unfold swept in Hswept. now apply andb_true_iff in Hswept as [_ Hexp].
    + now apply get_ext.
  - intros path Hout. rewrite Hfiles. unfold swept.
    now rewrite (bool_decide_eq_false_2 (fst path ∈ fixed_categories)).
Qed.

Lemma filter_none {A : Type} (f : A -> bool) (l : list A) :
  (forall x, List.In x l -> f x = false) -> List.filter f l = [].
Proof.
  induction l as [|x l IH]; intros Hf; [reflexivity|].
  cbn. rewrite (Hf x) by now left. apply IH. intros y Hy. apply Hf. now right.
Qed.

(** What [glob] lists in a fixed category after the sweep: the
    entries that were not expired. *)
Lemma glob_pkl_after_sweep self d now category :
  category ∈ fixed_categories ->
  let d' := snd (clear_expired self d now) in
  Permutation (glob_pkl d' category)
    (List.filter (fun path => negb (_is_expired self d now path)) (glob_pkl d category))
  /\ List.filter (_is_expired self d' now) (glob_pkl d' category) = [].
Proof.
  intros Hfixed. cbv zeta.
  destruct (clear_expired_files self d now) as (_ & Hdirs & Hfiles).
  cbv zeta in *. set (d' := snd (clear_expired self d now)) in *.
  assert (forall path, path ∈ glob_pkl d' category <->
            path ∈ glob_pkl d category /\ _is_expired self d now path = false) as Hin.
  { intros path. rewrite !in_glob_pkl, Hdirs, Hfiles. unfold swept.
    split.
    - intros (Hdir & Hcat & Hsome).
      rewrite Hcat in Hsome.
      rewrite (bool_decide_eq_true_2 (category ∈ fixed_categories)) in Hsome by assumption.
      rewrite (bool_decide_eq_true_2 (category ∈ dirs d)) in Hsome by assumption.
      cbn [andb] in Hsome.
      destruct (_is_expired self d now path); [now destruct Hsome|].
      repeat split; assumption.
    - intros ((Hdir & Hcat & Hsome) & Hexp). rewrite Hexp, !andb_false_r.
      repeat split; assumption. }
  split.
  - apply Permutation.NoDup_Permutation.
    + apply NoDup_glob_pkl.
    + apply List.NoDup_filter, NoDup_glob_pkl.
    + intros path. rewrite <- list_elem_of_In, Hin, List.filter_In, negb_true_iff.
      now rewrite <- list_elem_of_In.
  - apply filter_none. intros path Hpath.
    apply list_elem_of_In, Hin in Hpath as [_ Hexp].
    rewrite <- Hexp. apply is_expired_ext. rewrite Hfiles. unfold swept.
    now rewrite Hexp, !andb_false_r.
Qed.

(** The statistics around a sweep: [clear_expired] returns the sum of
    the [expired] counts that [get_stats] reports before it, and
    [get_stats] after it reports, for every category, no expired entry
    and the entries that were live before. *)
Theorem get_stats_after_clear_expired (self : CacheManager) (d : fs) (now : Z) :
  let r := clear_expired self d now in
  fst r = List.fold_right (fun st acc => expired (snd st) + acc) 0 (get_stats self d now)
  /\ get_stats self (snd r) now =
     List.map (fun st => (fst st, {| total := total (snd st) - expired (snd st);
                                     expired := 0 |}))
       (get_stats self d now).
Proof.
  cbv zeta. split.
  - destruct (clear_expired_files self d now) as (Hn & _). cbv zeta in Hn.
    rewrite Hn. unfold get_stats, count_expired. cbn. lia.
  - unfold get_stats. rewrite List.map_map. apply List.map_ext_in.
    intros category Hfixed. apply list_elem_of_In in Hfixed.
    destruct (glob_pkl_after_sweep self d now category Hfixed) as [Hperm Hnone].
    cbv zeta in *. cbn [fst snd total expired]. rewrite Hnone.
    rewrite (Permutation_length Hperm). do 2 f_equal.
    pose proof (filter_length_split (_is_expired self d now) (glob_pkl d category)).
    lia.
Qed.

Lemma set_files_other self d now key value category path :
  path <> (category, key) ->
  files (snd (set self d now key value category)) !! path = files d !! path.
Proof.
  intros Hne. unfold set. destruct (bool_decide (category ∈ dirs d)); [|reflexivity].
  cbn [snd files]. unfold _get_cache_path. now rewrite lookup_insert_ne by congruence.
Qed.

(** [set] writes one file: for keys and categories that are plain
    names, whether it succeeds or raises, every [get] of another key,
    or of the same key in another category, returns what it returned
    before. *)
Theorem set_frame (self : CacheManager) (d : fs) (now now' : Z)
    (key key' category category' : string) (value : pyobj) :
  plain_key key = true -> plain_category category = true ->
  plain_key key' = true -> plain_category category' = true ->
  (category', key') <> (category, key) ->
  get self (snd (set self d now key value category)) now' key' category'
  = get self d now' key' category'.
Proof. intros _ _ _ _ Hne. apply get_ext, set_files_other, Hne. Qed.

Lemma set_frame_witness :
  get (fst fresh_cache)
    (snd (set (fst fresh_cache) (snd fresh_cache) 100 "k" (PyInt 1) "queries"))
    200 "k" "embeddings"
  = get (fst fresh_cache) (snd fresh_cache) 200 "k" "embeddings".
Proof.
  apply (set_frame (fst fresh_cache) (snd fresh_cache) 100 200 "k" "k"
           "queries" "embeddings" (PyInt 1)); try reflexivity.
  discriminate.
Defined.

(** The three kinds of entries never shadow one another, although an
    embedding and a query result of the same text are stored under
    the same key: caching one kind leaves every lookup of the two
    other kinds as it was. *)
Theorem cache_kinds_independent `{Runtime} (self : CacheManager) (d : fs) (now now' : Z)
    (text query context response : string) (embedding result : pyobj) :
  let after_embedding := snd (cache_embedding self d now text embedding) in
  let after_query := snd (cache_query_result self d now query result) in
  let after_response := snd (cache_response self d now query context response) in
  (forall q, get_cached_query self after_embedding now' q = get_cached_query self d now' q)
  /\ (forall q c, get_cached_response self after_embedding now' q c
                  = get_cached_response self d now' q c)
  /\ (forall t, get_cached_embedding self after_query now' t
                = get_cached_embedding self d now' t)
  /\ (forall q c, get_cached_response self after_query now' q c
                  = get_cached_response self d now' q c)
  /\ (forall t, get_cached_embedding self after_response now' t
                = get_cached_embedding self d now' t)
  /\ (forall q, get_cached_query self after_response now' q
                = get_cached_query self d now' q).
Proof.
  cbv zeta.
  unfold cache_embedding, cache_query_result, cache_response,
    get_cached_embedding, get_cached_query, get_cached_response.
  repeat split; intros; apply get_ext, set_files_other; discriminate.
Qed.

End CacheMaintenance.

(** ** The paragraph and sentence strategies *)

Module PackingFacts.
Import Py Chunking ContextFacts.

Lemma append_cons a s1 s2 : (String a s1 ++ s2)%string = String a (s1 ++ s2)%string.
Proof. reflexivity. Qed.

Lemma append_assoc s1 s2 s3 :
  ((s1 ++ s2) ++ s3)%string = (s1 ++ s2 ++ s3)%string.
Proof.
  induction s1 as [|a s1 IH]; [reflexivity|]. rewrite !append_cons. now rewrite IH.
Qed.

Lemma append_nonempty_r s1 s2 : s2 <> EmptyString -> (s1 ++ s2)%string <> EmptyString.
Proof. destruct s1; [trivial|]. rewrite append_cons. discriminate. Qed.

(** A string that [strip] leaves alone and that is not empty: it
    starts with a character that is no white space, and [rstrip]
    removes nothing. *)
Definition starts_nonspace (s : string) : Prop :=
  match s with
  | EmptyString => False
  | String a _ => isspace a = false
  end.

Definition trimmed (s : string) : Prop := starts_nonspace s /\ rstrip s = s.

Lemma trimmed_nonempty s : trimmed s -> s <> EmptyString.
Proof. intros [Hs _] ->. exact Hs. Qed.

Lemma trimmed_truthy s : trimmed s -> str_truthy s = true.
Proof. intros [Hs _]. destruct s; [destruct Hs|reflexivity]. Qed.

Lemma trimmed_strip s : trimmed s -> strip s = s.
Proof.
  intros [Hs Hr]. unfold strip. destruct s as [|a s]; [destruct Hs|].
  cbn [lstrip]. cbn in Hs. now rewrite Hs.
Qed.

Lemma rstrip_idem s : rstrip (rstrip s) = rstrip s.
Proof.
  induction s as [|a s IH]; [reflexivity|]. cbn [rstrip].
  destruct (rstrip s) as [|b r] eqn:Hr.
  - destruct (isspace a) eqn:Ha; [reflexivity|]. cbn. now rewrite Ha.
  - cbn [rstrip] in *. now rewrite IH.
Qed.

Lemma lstrip_cases s : lstrip s = EmptyString \/ starts_nonspace (lstrip s).
Proof.
  induction s as [|a s IH]; [now left|]. cbn [lstrip].
  destruct (isspace a) eqn:Ha; [assumption|]. right. exact Ha.
Qed.

Lemma rstrip_starts s : starts_nonspace s -> starts_nonspace (rstrip s).
Proof.
  destruct s as [|a s]; [trivial|]. cbn. intros Ha.
  destruct (rstrip s); [rewrite Ha|]; exact Ha.
Qed.

Lemma strip_trimmed s : str_truthy (strip s) = true -> trimmed (strip s).
Proof.
  unfold strip. intros Hne. destruct (lstrip_cases s) as [Hempty|Hstart].
  - rewrite Hempty in Hne. discriminate.
  - split; [now apply rstrip_starts|apply rstrip_idem].
Qed.

Lemma rstrip_append x y :
  rstrip y <> EmptyString -> rstrip (x ++ y)%string = (x ++ rstrip y)%string.
Proof.
  intros Hy. induction x as [|a x IH]; [reflexivity|].
  rewrite !append_cons. cbn [rstrip]. rewrite IH.
  destruct (x ++ rstrip y)%string eqn:Hxy; [|reflexivity].
  exfalso. revert Hxy. now apply append_nonempty_r.
Qed.

Lemma trimmed_append x sep y : trimmed x -> trimmed y -> trimmed (x ++ sep ++ y)%string.
Proof.
  intros [Hxs Hxr] [Hys Hyr]. split.
  - destruct x as [|a x]; [destruct Hxs|]. rewrite append_cons. exact Hxs.
  - assert (y <> EmptyString) as Hy by (intros ->; exact Hys).
    assert (rstrip (sep ++ y)%string = (sep ++ y)%string) as Hsep.
    { rewrite rstrip_append; rewrite Hyr; [reflexivity|assumption]. }
    rewrite rstrip_append; rewrite Hsep; [reflexivity|].
    now apply append_nonempty_r.
Qed.

Lemma join_snoc sep g p :
  g <> [] -> join sep (g ++ [p]) = (join sep g ++ sep ++ p)%string.
Proof.
  induction g as [|a g IH]; [congruence|]. intros _.
  destruct g as [|b g]; [reflexivity|].
  change (join sep ((a :: b :: g) ++ [p]))
    with (a ++ sep ++ join sep ((b :: g) ++ [p]))%string.
  rewrite IH by discriminate.
  change (join sep (a :: b :: g)) with (a ++ sep ++ join sep (b :: g))%string.
  now rewrite !append_assoc.
Qed.

Lemma join_trimmed sep g : g <> [] -> List.Forall trimmed g -> trimmed (join sep g).
Proof.
  induction g as [|a g IH]; [congruence|]. intros _ Hall.
  apply List.Forall_cons_iff in Hall as [Ha Hg].
  destruct g as [|b g]; [exact Ha|].
  change (join sep (a :: b :: g)) with (a ++ sep ++ join sep (b :: g))%string.
  apply trimmed_append; [assumption|]. apply IH; [discriminate|assumption].
Qed.

(** The units the loop packs: the pieces of the split, stripped, the
    empty ones left out. *)
Definition units (pieces : list string) : list string :=
  List.filter str_truthy (List.map strip pieces).

Lemma units_trimmed pieces : List.Forall trimmed (units pieces).
Proof.
  apply List.Forall_forall. intros u Hu. unfold units in Hu.
  apply List.filter_In in Hu as [Hin Hne].
  apply List.in_map_iff in Hin as (p & <- & _). now apply strip_trimmed.
Qed.

(** A chunk of several units was within [chunk_size] before its last
    unit and separator were added. *)
Definition fits (sep : string) (self : DocumentChunker) (g : list string) : Prop :=
  (List.length g <= 1)%nat \/ len (join sep g) <= chunk_size self + len sep.

(** A chunk is closed only when the next unit would take it over
    [chunk_size]. *)
Fixpoint greedy (sep : string) (self : DocumentChunker) (gs : list (list string)) : Prop :=
  match gs with
  | [] => True
  | g1 :: rest =>
      match rest with
      | [] => True
      | g2 :: _ => chunk_size self < len (join sep g1) + len (hd EmptyString g2)
      end /\ greedy sep self rest
  end.

Lemma greedy_app_l sep self gs1 gs2 :
  greedy sep self (gs1 ++ gs2) -> greedy sep self gs1.
Proof.
  induction gs1 as [|g1 gs1 IH]; [constructor|].
  cbn [app greedy]. intros [Hhead Htail]. split; [|now apply IH].
  destruct gs1 as [|g2 gs1]; [trivial|exact Hhead].
Qed.

Lemma hd_app_singleton {A : Type} (gs : list A) (g' : A) :
  gs ++ [g'] = hd g' gs :: tl (gs ++ [g']).
Proof. destruct gs; reflexivity. Qed.

Lemma join_empty_iff sep g :
  List.Forall trimmed g -> (str_truthy (join sep g) = true <-> g <> []).
Proof.
  intros Hall. destruct g as [|a g]; [cbn; split; [discriminate|congruence]|].
  split; [discriminate|]. intros _. apply trimmed_truthy, join_trimmed; [discriminate|assumption].
Qed.

(** The loop, read on groups of units: [g] is the group of the
    current chunk. *)
Lemma pack_loop_groups sep self pieces : forall chunks g,
  List.Forall trimmed g -> fits sep self g ->
  exists gs g' t,
    pack_loop sep self pieces chunks (join sep g)
      = (chunks ++ List.map (join sep) gs, join sep g')
    /\ g ++ units pieces = concat gs ++ g'
    /\ hd g' gs = g ++ t
    /\ List.Forall (fun x => x <> []) gs
    /\ List.Forall trimmed g'
    /\ List.Forall (fits sep self) (gs ++ [g'])
    /\ greedy sep self (gs ++ [g']).
Proof.
  induction pieces as [|p rest IH]; intros chunks g Hg Hfit.
  - exists [], g, []. cbn. rewrite !app_nil_r.
    split; [reflexivity|]. split; [reflexivity|]. split; [reflexivity|].
    split; [constructor|]. split; [assumption|].
    split; [constructor; [assumption|constructor]|]. split; constructor.
  - cbn [pack_loop]. unfold units. cbn [List.map List.filter]. fold (units rest).
    destruct (str_truthy (strip p)) eqn:Hu; cbn [negb].
    2: { apply IH; assumption. }
    pose proof (strip_trimmed p Hu) as Htrim.
    destruct ((len (join sep g) + len (strip p) >? chunk_size self)
              && str_truthy (join sep g)) eqn:Htest.
    + apply andb_true_iff in Htest as [Hover Hcur].
      apply Z.gtb_lt in Hover.
      apply (join_empty_iff sep g Hg) in Hcur.
      rewrite (trimmed_strip _ (join_trimmed sep g Hcur Hg)).
      destruct (IH (chunks ++ [join sep g]) [strip p]) as (gs & g' & t & Hloop & Hcat
        & Hhd & Hne & Hg' & Hfits & Hgreedy).
      { repeat constructor; apply Htrim. }
      { left. cbn. lia. }
      exists (g :: gs), g', []. cbn [join] in Hloop. rewrite Hloop.
      split; [now rewrite <- app_assoc|]. split.
      { cbn [concat]. rewrite <- app_assoc, <- Hcat. reflexivity. }
      split; [cbn; now rewrite app_nil_r|].
      split; [constructor; assumption|]. split; [assumption|].
      split; [cbn [app]; constructor; assumption|].
      cbn [app greedy]. split; [|assumption].
      rewrite (hd_app_singleton gs g'), Hhd. cbn. lia.
    + assert ((if str_truthy (join sep g) then (join sep g ++ sep ++ strip p)%string
               else strip p) = join sep (g ++ [strip p])) as ->.
      { destruct g as [|a g]; [reflexivity|].
        rewrite (proj2 (join_empty_iff sep (a :: g) Hg)) by discriminate.
        now rewrite join_snoc by discriminate. }
      destruct (IH chunks (g ++ [strip p])) as (gs & g' & t & Hloop & Hcat
        & Hhd & Hne & Hg' & Hfits & Hgreedy).
      { apply List.Forall_app. split; [assumption|]. repeat constructor; apply Htrim. }
      { destruct g as [|a g]; [left; cbn; lia|]. right.
        rewrite (proj2 (join_empty_iff sep (a :: g) Hg)), andb_true_r in Htest
          by discriminate.
        rewrite Z.gtb_ltb in Htest. apply Z.ltb_ge in Htest.
        rewrite join_snoc, !len_append by discriminate. lia. }
      exists gs, g', (strip p :: t). rewrite Hloop.
      split; [reflexivity|]. split; [now rewrite <- Hcat, <- app_assoc|].
      split; [now rewrite Hhd, <- app_assoc|]. repeat split; assumption.
Qed.

(** What [pack] returns for its pieces. *)
Definition packs (sep : string) (self : DocumentChunker) (pieces chunks : list string)
    : Prop :=
  exists groups : list (list string),
    chunks = List.map (join sep) groups
    /\ concat groups = units pieces
    /\ List.Forall (fun g => g <> []) groups
    /\ List.Forall (fits sep self) groups
    /\ greedy sep self groups.

Lemma pack_groups sep self pieces :
  packs sep self pieces (pack sep self pieces)
  /\ List.Forall trimmed (pack sep self pieces).
Proof.
  destruct (pack_loop_groups sep self pieces [] []) as (gs & g' & t & Hloop & Hcat
    & Hhd & Hne & Hg' & Hfits & Hgreedy).
  { constructor. }
  { left. cbn. lia. }
  cbn [join app] in Hloop, Hcat. unfold pack. rewrite Hloop.
  assert (List.Forall (List.Forall trimmed) gs) as Hgs.
  { pose proof (units_trimmed pieces) as Hall. rewrite Hcat in Hall.
    apply List.Forall_app in Hall as [Hall _].
    clear - Hall. induction gs as [|g gs IH]; constructor.
    - cbn in Hall. now apply List.Forall_app in Hall as [? _].
    - apply IH. cbn in Hall. now apply List.Forall_app in Hall as [_ ?]. }
  assert (List.Forall trimmed (List.map (join sep) gs)) as Hchunks.
  { clear - Hgs Hne. induction gs as [|g gs IH]; cbn; constructor.
    - apply List.Forall_cons_iff in Hne as [Hg _], Hgs as [Hall _].
      now apply join_trimmed.
    - apply List.Forall_cons_iff in Hne as [_ Hne], Hgs as [_ Hgs]. now apply IH. }
  destruct g' as [|a g'].
  - cbn [join str_truthy]. rewrite app_nil_r in Hcat. split; [|assumption].
    exists gs. split; [reflexivity|]. split; [now symmetry|]. split; [assumption|].
    split; [now apply List.Forall_app in Hfits as [? _]|].
    now apply greedy_app_l in Hgreedy.
  - pose proof (join_trimmed sep (a :: g') ltac:(discriminate) Hg') as Hlast.
    rewrite (trimmed_truthy _ Hlast), (trimmed_strip _ Hlast). split.
    + exists (gs ++ [a :: g']). rewrite List.map_app. split; [reflexivity|].
      split; [rewrite concat_app; cbn [concat]; now rewrite app_nil_r|].
      split; [|split; assumption].
      apply List.Forall_app. split; [assumption|]. repeat constructor. discriminate.
    + apply List.Forall_app. split; [assumption|]. repeat constructor; apply Hlast.
Qed.

(** [chunk_by_paragraphs] and [chunk_by_sentences] lose and repeat
    nothing: the chunks are the stripped non-empty units of the split,
    in order, cut into consecutive non-empty groups, each group joined
    by the separator. A chunk of more than one unit has at most
    [chunk_size] characters plus one separator (a single unit is kept
    whole, however long), a chunk is closed only when the next unit
    would take it over [chunk_size], and every chunk is non-empty with
    no white space at either end. *)
Theorem chunks_group_units (self : DocumentChunker) (text : string) :
  packs paragraph_sep self (split_paragraphs text) (chunk_by_paragraphs self text)
  /\ packs " " self (split_sentences text) (chunk_by_sentences self text)
  /\ List.Forall (fun c => c <> EmptyString /\ strip c = c)
       (chunk_by_paragraphs self text ++ chunk_by_sentences self text).
Proof.
  unfold chunk_by_paragraphs, chunk_by_sentences.
  destruct (pack_groups paragraph_sep self (split_paragraphs text)) as [Hp Hpt].
  destruct (pack_groups " " self (split_sentences text)) as [Hs Hst].
  split; [assumption|]. split; [assumption|].
  apply List.Forall_app. split; eapply List.Forall_impl; try eassumption;
    intros c Hc; (split; [now apply trimmed_nonempty|now apply trimmed_strip]).
Qed.

(** *** No character of the text is lost *)

(** The characters of a string that are no white space, in order. *)
Definition nonspace (s : string) : list ascii :=
  List.filter (fun c => negb (isspace c)) (list_ascii_of_string s).

Definition all_nonspace (l : list string) : list ascii := List.flat_map nonspace l.

Lemma nonspace_cons a s :
  nonspace (String a s) = if isspace a then nonspace s else a :: nonspace s.
Proof. unfold nonspace. cbn. now destruct (isspace a). Qed.

Lemma nonspace_append s1 s2 : nonspace (s1 ++ s2)%string = nonspace s1 ++ nonspace s2.
Proof.
  induction s1 as [|a s1 IH]; [reflexivity|].
  rewrite append_cons, !nonspace_cons, IH. now destruct (isspace a).
Qed.

Lemma nonspace_lstrip s : nonspace (lstrip s) = nonspace s.
Proof.
  induction s as [|a s IH]; [reflexivity|]. cbn [lstrip].
  destruct (isspace a) eqn:Ha; [|reflexivity]. now rewrite nonspace_cons, Ha.
Qed.

Lemma nonspace_rstrip s : nonspace (rstrip s) = nonspace s.
Proof.
  induction s as [|a s IH]; [reflexivity|]. cbn [rstrip].
  rewrite nonspace_cons, <- IH.
  destruct (rstrip s) as [|b r].
  - destruct (isspace a) eqn:Ha; [reflexivity|]. now rewrite nonspace_cons, Ha.
  - now rewrite nonspace_cons.
Qed.

Lemma nonspace_strip s : nonspace (strip s) = nonspace s.
Proof. unfold strip. now rewrite nonspace_rstrip, nonspace_lstrip. Qed.

Lemma nonspace_falsy s : str_truthy s = false -> nonspace s = [].
Proof. now destruct s. Qed.

Lemma all_nonspace_app l1 l2 : all_nonspace (l1 ++ l2) = all_nonspace l1 ++ all_nonspace l2.
Proof. apply List.flat_map_app. Qed.

Lemma pack_loop_nonspace sep self pieces :
  nonspace sep = [] -> forall chunks current_chunk,
  let r := pack_loop sep self pieces chunks current_chunk in
  all_nonspace (fst r) ++ nonspace (snd r)
  = all_nonspace chunks ++ nonspace current_chunk ++ all_nonspace pieces.
Proof.
  intros Hsep. induction pieces as [|p rest IH]; intros chunks cur; cbv zeta.
  - cbn. now rewrite !app_nil_r.
  - cbn [pack_loop]. change (all_nonspace (p :: rest)) with (nonspace p ++ all_nonspace rest).
    rewrite <- (nonspace_strip p).
    destruct (str_truthy (strip p)) eqn:Hu; cbn [negb].
    2: { rewrite (nonspace_falsy _ Hu). apply IH. }
    destruct ((len cur + len (strip p) >? chunk_size self) && str_truthy cur).
    + specialize (IH (chunks ++ [strip cur]) (strip p)). cbv zeta in IH. rewrite IH.
      rewrite all_nonspace_app. cbn [all_nonspace List.flat_map].
      rewrite app_nil_r, nonspace_strip, <- !app_assoc. reflexivity.
    + specialize (IH chunks (if str_truthy cur then (cur ++ sep ++ strip p)%string
                             else strip p)).
      cbv zeta in IH. rewrite IH. f_equal. rewrite app_assoc. f_equal.
      destruct (str_truthy cur) eqn:Hcur.
      * now rewrite !nonspace_append, Hsep.
      * now rewrite (nonspace_falsy _ Hcur).
Qed.

Lemma pack_nonspace sep self pieces :
  nonspace sep = [] -> all_nonspace (pack sep self pieces) = all_nonspace pieces.
Proof.
  intros Hsep. pose proof (pack_loop_nonspace sep self pieces Hsep [] EmptyString) as Hloop.
  cbv zeta in Hloop. unfold pack.
  destruct (pack_loop sep self pieces [] EmptyString) as [chunks cur].
  cbn [fst snd] in Hloop. cbn in Hloop. rewrite <- Hloop.
  destruct (str_truthy cur) eqn:Hcur.
  - rewrite all_nonspace_app. cbn [all_nonspace List.flat_map].
    now rewrite app_nil_r, nonspace_strip.
  - now rewrite (nonspace_falsy _ Hcur), app_nil_r.
Qed.

(** The next [n] characters of [s] are white space. *)
Fixpoint blank_prefix (n : nat) (s : string) : Prop :=
  match n, s with
  | S k, String c r => isspace c = true /\ blank_prefix k r
  | _, _ => True
  end.

Lemma blank_gap_prefix s : forall n, blank_gap s = Some n -> blank_prefix n s.
Proof.
  induction s as [|c r IH]; intros n; cbn [blank_gap]; [discriminate|].
  destruct (isspace c) eqn:Hc; [|discriminate].
  destruct (blank_gap r) as [k|].
  - intros [= <-]. split; [assumption|]. now apply IH.
  - destruct (Ascii.eqb c "010"%char); [|discriminate].
    intros [= <-]. split; [assumption|]. now destruct r.
Qed.

Lemma split_paragraphs_nonspace s : forall skip piece,
  blank_prefix skip s ->
  all_nonspace (split_paragraphs_from s skip piece) = nonspace piece ++ nonspace s.
Proof.
  induction s as [|c r IH]; intros skip piece Hskip.
  - cbn. reflexivity.
  - cbn [split_paragraphs_from]. destruct skip as [|k].
    + assert (all_nonspace (split_paragraphs_from r 0 (piece ++ String c EmptyString)%string)
              = nonspace piece ++ nonspace (String c r)) as Hkeep.
      { rewrite IH by (now destruct r). rewrite nonspace_append, <- app_assoc.
        f_equal. rewrite !nonspace_cons. now destruct (isspace c). }
      destruct (Ascii.eqb c "010"%char) eqn:Hc; [|exact Hkeep].
      destruct (blank_gap r) as [n|] eqn:Hgap; [|exact Hkeep].
      apply Ascii.eqb_eq in Hc. subst c.
      cbn [all_nonspace List.flat_map]. fold (all_nonspace (split_paragraphs_from r n EmptyString)).
      rewrite IH by (now apply blank_gap_prefix). reflexivity.
    + destruct Hskip as [Hc Hskip]. rewrite nonspace_cons, Hc. now apply IH.
Qed.

Lemma split_sentences_nonspace s : forall after_end in_gap piece,
  all_nonspace (split_sentences_from s after_end in_gap piece)
  = nonspace piece ++ nonspace s.
Proof.
  induction s as [|c r IH]; intros after_end in_gap piece.
  - cbn. reflexivity.
  - cbn [split_sentences_from].
    destruct (isspace c && (in_gap || after_end)) eqn:Hgap.
    + apply andb_true_iff in Hgap as [Hc _]. rewrite nonspace_cons, Hc.
      destruct in_gap; [apply IH|].
      cbn [all_nonspace List.flat_map].
      fold (all_nonspace (split_sentences_from r false true EmptyString)).
      now rewrite IH.
    + rewrite IH, nonspace_append, <- app_assoc. f_equal.
      rewrite !nonspace_cons. now destruct (isspace c).
Qed.

(** Whatever [chunk_size] is, the characters of the chunks that are
    no white space are those of the text, each once and in the order
    of the text: the two strategies only drop and insert white space. *)
Theorem chunks_keep_content (self : DocumentChunker) (text : string) :
  all_nonspace (chunk_by_paragraphs self text) = nonspace text
  /\ all_nonspace (chunk_by_sentences self text) = nonspace text.
Proof.
  unfold chunk_by_paragraphs, chunk_by_sentences. split.
  - rewrite pack_nonspace by reflexivity.
    unfold split_paragraphs. now rewrite split_paragraphs_nonspace.
  - rewrite pack_nonspace by reflexivity.
    unfold split_sentences. now rewrite split_sentences_nonspace.
Qed.

Lemma trimmed_nonspace c : trimmed c -> nonspace c <> [].
Proof.
  intros [Hs _]. destruct c as [|a c]; [destruct Hs|]. cbn in Hs.
  rewrite nonspace_cons, Hs. discriminate.
Qed.

Lemma pack_blank sep self pieces :
  nonspace sep = [] -> all_nonspace pieces = [] -> pack sep self pieces = [].
Proof.
  intros Hsep Hblank. pose proof (pack_nonspace sep self pieces Hsep) as Hkeep.
  rewrite Hblank in Hkeep.
  destruct (pack_groups sep self pieces) as [_ Htrim].
  destruct (pack sep self pieces) as [|c chunks]; [reflexivity|].
  apply List.Forall_cons_iff in Htrim as [Hc _]. apply trimmed_nonspace in Hc.
  cbn in Hkeep. apply app_eq_nil in Hkeep as [Hnil _]. contradiction.
Qed.

(** A text of white space only, the empty text included, gives no
    chunk. *)
Theorem blank_text_no_chunks (self : DocumentChunker) (text : string) :
  nonspace text = [] ->
  chunk_by_paragraphs self text = [] /\ chunk_by_sentences self text = [].
Proof.
  intros Hblank. unfold chunk_by_paragraphs, chunk_by_sentences. split.
  - apply pack_blank; [reflexivity|].
    unfold split_paragraphs. now rewrite split_paragraphs_nonspace.
  - apply pack_blank; [reflexivity|].
    unfold split_sentences. now rewrite split_sentences_nonspace.
Qed.

Lemma blank_text_no_chunks_witness :
  chunk_by_paragraphs default (String "010"%char "  ") = []
  /\ chunk_by_sentences default (String "010"%char "  ") = [].
Proof. apply (blank_text_no_chunks default (String "010"%char "  ")). reflexivity. Defined.

End PackingFacts.

(** ** The chunks of the window strategy and [chunk_document] *)

Module WindowFacts.
Import Py Chunking PackingFacts.

Lemma rfind_from_bound c s : forall i lo hi best,
  rfind_from c s i lo hi best = best
  \/ (lo <= rfind_from c s i lo hi best < hi).
Proof.
  induction s as [|a s IH]; intros i lo hi best; cbn [rfind_from]; [now left|].
  destruct (IH (i + 1) lo hi
              (if (lo <=? i) && (i <? hi) && Ascii.eqb a c then i else best))
    as [Heq|Hin]; [|now right].
  rewrite Heq.
  destruct ((lo <=? i) && (i <? hi) && Ascii.eqb a c) eqn:Htest; [|now left].
  right. apply andb_true_iff in Htest as [Htest _].
  apply andb_true_iff in Htest as [Hlo Hhi]. lia.
Qed.

Lemma rfind_bound s c start stop :
  rfind s c start stop = -1
  \/ (adjust_index start (len s) <= rfind s c start stop < adjust_index stop (len s)).
Proof. apply rfind_from_bound. Qed.

Lemma substring_length s : forall n m,
  (String.length (substring n m s) <= m)%nat.
Proof.
  induction s as [|a s IH]; intros n m.
  - destruct n, m; cbn; lia.
  - destruct n as [|n].
    + destruct m as [|m]; cbn; [lia|]. specialize (IH 0%nat m). lia.
    + cbn. apply IH.
Qed.

Lemma lstrip_length s : (String.length (lstrip s) <= String.length s)%nat.
Proof.
  induction s as [|a s IH]; cbn; [lia|]. destruct (isspace a); cbn; lia.
Qed.

Lemma rstrip_length s : (String.length (rstrip s) <= String.length s)%nat.
Proof.
  induction s as [|a s IH]; cbn; [lia|].
  destruct (rstrip s); [destruct (isspace a)|]; cbn in *; lia.
Qed.

Lemma strip_len s : len (strip s) <= len s.
Proof.
  unfold len, strip. pose proof (rstrip_length (lstrip s)). pose proof (lstrip_length s).
  lia.
Qed.

(** A window never holds more than [chunk_size] characters, whether
    it was cut back to a boundary or not, and also when [start] has
    gone below zero and the slice counts it from the end. *)
Lemma window_len self text start :
  0 <= chunk_size self ->
  len (slice text start (window_end self text start)) <= chunk_size self.
Proof.
  intros Hsize. unfold slice.
  set (n := len text). assert (0 <= n) as Hn by (unfold n, len; lia).
  set (a := adjust_index start n).
  set (b := adjust_index (window_end self text start) n).
  pose proof (substring_length text (Z.to_nat a) (Z.to_nat (b - a))) as Hsub.
  enough (b - a <= chunk_size self) by (unfold len; lia).
  subst a b. unfold window_end. fold n.
  destruct (start + chunk_size self <? n) eqn:Hend.
  - apply Z.ltb_lt in Hend.
    pose proof (rfind_bound text "."%char start (start + chunk_size self)) as Hp.
    pose proof (rfind_bound text "010"%char start (start + chunk_size self)) as Hq.
    fold n in Hp, Hq.
    set (p := rfind text "."%char start (start + chunk_size self)) in *.
    set (q := rfind text "010"%char start (start + chunk_size self)) in *.
    clearbody p q.
    destruct (Z.max p q >? start) eqn:Hbreak.
    + apply Z.gtb_lt in Hbreak. unfold adjust_index in *.
      destruct (start <? 0) eqn:H1; destruct (start + chunk_size self <? 0) eqn:H2;
        destruct (Z.max p q + 1 <? 0) eqn:H3; lia.
    + unfold adjust_index.
      destruct (start <? 0) eqn:H1; destruct (start + chunk_size self <? 0) eqn:H2; lia.
  - apply Z.ltb_ge in Hend. unfold adjust_index.
    destruct (start <? 0) eqn:H1; destruct (start + chunk_size self <? 0) eqn:H2; lia.
Qed.

(** What every chunk of the window strategy satisfies. *)
Definition window_chunk (self : DocumentChunker) (c : string) : Prop :=
  c <> EmptyString /\ strip c = c /\ len c <= chunk_size self.

Lemma loop_body_chunks self text st :
  0 <= chunk_size self ->
  List.Forall (window_chunk self) (snd st) ->
  List.Forall (window_chunk self) (snd (loop_body self text st)).
Proof.
  intros Hsize Hall. destruct st as [start chunks]. cbn [loop_body snd] in *.
  destruct (str_truthy (strip (slice text start (window_end self text start)))) eqn:Hne;
    [|assumption].
  apply List.Forall_app. split; [assumption|]. constructor; [|constructor].
  pose proof (strip_trimmed _ Hne) as Htrim. split; [|split].
  - now apply trimmed_nonempty.
  - now apply trimmed_strip.
  - pose proof (strip_len (slice text start (window_end self text start))).
    pose proof (window_len self text start Hsize). lia.
Qed.

Lemma while_loop_chunks self text fuel : forall st chunks,
  0 <= chunk_size self ->
  List.Forall (window_chunk self) (snd st) ->
  while_loop fuel self text st = Some chunks ->
  List.Forall (window_chunk self) chunks.
Proof.
  induction fuel as [|fuel IH]; intros st chunks Hsize Hall; cbn [while_loop].
  - destruct (fst st <? len text); [discriminate|]. now intros [= <-].
  - destruct (fst st <? len text); [|now intros [= <-]].
    apply IH; [assumption|]. now apply loop_body_chunks.
Qed.

(** Whenever [chunk_by_tokens] returns, with [chunk_size] not
    negative, every chunk is non-empty, has no white space at either
    end and has at most [chunk_size] characters. *)
Theorem chunk_by_tokens_chunks_bounded (fuel : nat) (self : DocumentChunker)
    (text : string) (chunks : list string) :
  0 <= chunk_size self ->
  chunk_by_tokens fuel self text = Some chunks ->
  List.Forall (fun c => c <> EmptyString /\ strip c = c /\ len c <= chunk_size self) chunks.
Proof.
  intros Hsize. unfold chunk_by_tokens.
  destruct (negb (str_truthy text) || (len text =? 0)).
  - intros [= <-]. constructor.
  - apply while_loop_chunks; [assumption|constructor].
Qed.

Lemma chunk_by_tokens_chunks_bounded_witness :
  exists chunks,
    chunk_by_tokens 20 {| chunk_size := 8; chunk_overlap := 1 |}
      "One. Two words.  Three more words" = Some chunks
    /\ List.Forall (fun c => c <> EmptyString /\ strip c = c /\ len c <= 8) chunks.
Proof.
  eexists. split; [vm_compute; reflexivity|].
  apply (chunk_by_tokens_chunks_bounded 20 {| chunk_size := 8; chunk_overlap := 1 |}
           "One. Two words.  Three more words").
  - cbn. lia.
  - vm_compute. reflexivity.
Defined.

Lemma wrap_chunks_lookup all metadata : forall rest i k c,
  wrap_chunks all rest i metadata !! k = Some c ->
  rest !! k = Some (c_text c)
  /\ c_chunk_id c = i + Z.of_nat k
  /\ c_chunk_count c = Z.of_nat (List.length all)
  /\ c_metadata c = (if truthy metadata then metadata else PyDict []).
Proof.
  induction rest as [|chunk rest IH]; intros i k c; cbn [wrap_chunks]; [discriminate|].
  destruct k as [|k]; cbn.
  - intros [= <-]. cbn. repeat split. lia.
  - intros Hc. destruct (IH (i + 1) k c Hc) as (Htext & Hid & Hcount & Hmeta).
    repeat split; try assumption. lia.
Qed.

Lemma wrap_chunks_texts all metadata : forall rest i,
  List.map c_text (wrap_chunks all rest i metadata) = rest.
Proof.
  induction rest as [|chunk rest IH]; intros i; cbn; [reflexivity|]. now rewrite IH.
Qed.

(** [chunk_document] numbers the chunks of the chosen strategy from 0
    in order and gives each of them the number of chunks of the whole
    document and the metadata ([{}] when none or an empty one was
    given). The paragraph and sentence strategies always return; any
    other strategy name, not only [tokens], selects the window
    strategy and returns when that one does. *)
Theorem chunk_document_numbering (fuel : nat) (self : DocumentChunker) (text : string)
    (strategy : string) (metadata : pyobj) :
  let chunks :=
    if String.eqb strategy "paragraphs" then Some (chunk_by_paragraphs self text)
    else if String.eqb strategy "sentences" then Some (chunk_by_sentences self text)
    else chunk_by_tokens fuel self text in
  match chunk_document fuel self text strategy metadata with
  | None => chunks = None
  | Some r =>
      chunks = Some (List.map c_text r)
      /\ forall k c, r !! k = Some c ->
           c_chunk_id c = Z.of_nat k
           /\ c_chunk_count c = Z.of_nat (List.length r)
           /\ c_metadata c = (if truthy metadata then metadata else PyDict [])
  end.
Proof.
  cbv zeta. unfold chunk_document.
  destruct (if String.eqb strategy "paragraphs" then Some (chunk_by_paragraphs self text)
            else if String.eqb strategy "sentences" then Some (chunk_by_sentences self text)
            else chunk_by_tokens fuel self text) as [chunks|]; [|reflexivity].
  split; [now rewrite wrap_chunks_texts|].
  intros k c Hc. destruct (wrap_chunks_lookup _ _ _ _ _ _ Hc) as (_ & Hid & Hcount & Hmeta).
  split; [lia|]. split; [|assumption].
  rewrite Hcount. f_equal.
  now rewrite <- (List.length_map c_text (wrap_chunks chunks chunks 0 metadata)),
    wrap_chunks_texts.
Qed.

End WindowFacts.

(** ** Query expansion and re-ranking *)

Module RerankFacts.
Import Py QueryProcessor.

(** The results with the score the loop gives them, in input order. *)
Definition scored (query : string) (results : list result) : list (result * float) :=
  List.map (fun r => (r, rerank_score (terms query) r)) results.

(** [x] may stand before [y] in the re-ranked list. *)
Definition outranks (x y : result * float) : Prop := (snd y <=? snd x)%float = true.

(** When no adjusted score is a NaN, [rerank_results] returns the
    results it was given, each once and with the adjusted score
    [score + overlap * 0.01], in descending order of that score, and
    results of equal adjusted score in the order in which they were
    given. *)
Theorem rerank_results_ranked (query : string) (results : list result) :
  List.Forall (fun r => FloatFacts.is_number (rerank_score (terms query) r)) results ->
  let ranked := rerank_results query results in
  Permutation (List.map fst ranked) results
  /\ List.Forall (fun x => snd x = rerank_score (terms query) (fst x)) ranked
  /\ StronglySorted outranks ranked
  /\ forall s, List.filter (fun x => (snd x =? s)%float) ranked
               = List.filter (fun x => (snd x =? s)%float) (scored query results).
Proof.
  intros Hnum. cbv zeta. unfold rerank_results. fold (scored query results).
  pose proof (SortFacts.sort_perm rerank_lt true (scored query results)) as Hperm.
  split; [|split; [|split]].
  - rewrite Hperm. unfold scored. rewrite List.map_map. cbn [fst].
    now rewrite List.map_id.
  - rewrite Hperm. unfold scored. apply List.Forall_forall.
    intros x (r & <- & _)%List.in_map_iff. reflexivity.
  - unfold sort.
    apply (SortFacts.StronglySorted_rev (fun x y => (snd x <=? snd y)%float = true)).
    apply (SortFacts.stable_sort_strongly rerank_lt _
             (fun x => FloatFacts.is_number (snd x))).
    + intros x y. apply FloatFacts.ltb_leb.
    + intros x y Hx Hy. now apply FloatFacts.nltb_leb.
    + intros x y z. apply FloatFacts.leb_trans.
    + rewrite <- Permutation_rev. unfold scored. apply List.Forall_forall.
      intros x (r & <- & Hr)%List.in_map_iff.
      exact (proj1 (List.Forall_forall _ _) Hnum r Hr).
  - intros s. apply SortFacts.sort_filter.
    intros x y. apply FloatFacts.ltb_eqb_class.
Qed.

Lemma rerank_results_ranked_witness :
  let results :=
    [ {| r_content := "The engine is loud"; r_score := 0.8%float;
         r_metadata := PyNone; r_doc_id := "d_0" |};
      {| r_content := "Cooling the ENGINE with oil"; r_score := 0.795%float;
         r_metadata := PyNone; r_doc_id := "d_1" |} ] in
  let ranked := rerank_results "engine oil" results in
  Permutation (List.map fst ranked) results
  /\ List.Forall (fun x => snd x = rerank_score (terms "engine oil") (fst x)) ranked
  /\ StronglySorted outranks ranked
  /\ forall s, List.filter (fun x => (snd x =? s)%float) ranked
               = List.filter (fun x => (snd x =? s)%float) (scored "engine oil" results).
Proof.
  cbv zeta. apply rerank_results_ranked.
  repeat constructor; vm_compute; reflexivity.
Defined.

Lemma ends_with_question_append q : ends_with_question (q ++ "?")%string = true.
Proof.
  induction q as [|a q IH]; [reflexivity|].
  change (String a q ++ "?")%string with (String a (q ++ "?")%string).
  cbn [ends_with_question]. destruct (q ++ "?")%string eqn:Hq; [|assumption].
  destruct q; discriminate.
Qed.

(** [expand_query] returns the query first and at most one more
    variation; its last variation always ends with a question mark,
    and expanding that one adds nothing. *)
Theorem expand_query_variations (query : string) :
  hd EmptyString (expand_query query) = query
  /\ (List.length (expand_query query) <= 2)%nat
  /\ ends_with_question (List.last (expand_query query) EmptyString) = true
  /\ expand_query (List.last (expand_query query) EmptyString)
     = [List.last (expand_query query) EmptyString].
Proof.
  unfold expand_query. destruct (ends_with_question query) eqn:Hq; cbn [negb].
  - cbn. rewrite Hq. repeat split. lia.
  - cbn [hd List.length List.last]. rewrite ends_with_question_append.
    repeat split. lia.
Qed.

End RerankFacts.

(** ** Ingestion *)

Module IngestFacts.
Import Py World Cache VectorStore Chunking DocuMind VectorStoreFacts QueryFacts.

Lemma chunk_embedding_frame `{Runtime} `{Ingestion} self now text r self' called :
  chunk_embedding self now text = (r, self', called) ->
  use_cache self' = use_cache self /\ cache self' = cache self
  /\ DocuMind.vector_store self' = DocuMind.vector_store self
  /\ (use_cache self = false -> called = [text] /\ disk self' = disk self).
Proof.
  unfold chunk_embedding. destruct (use_cache self) eqn:Huse.
  - destruct (cache self) as [cm|] eqn:Hcache.
    + destruct (get_cached_embedding cm (disk self) now text) as [c|e].
      * assert (c = PyNone \/ c <> PyNone) as [->|Hc]
          by (destruct c; auto; right; discriminate).
        -- destruct (embed_text text) as [embedding_|e].
           ++ destruct (cache_embedding _ _ _ _ _) as [[[]|e] d];
                intros [= <- <- <-]; cbn; rewrite Huse, Hcache;
                repeat split; discriminate.
           ++ intros [= <- <- <-]. rewrite Huse, Hcache. repeat split; discriminate.
        -- destruct c; try congruence; intros [= <- <- <-]; rewrite Huse, Hcache;
             repeat split; discriminate.
      * intros [= <- <- <-]. rewrite Huse, Hcache. repeat split; discriminate.
    + intros [= <- <- <-]. rewrite Huse, Hcache. repeat split; discriminate.
  - destruct (embed_text text); intros [= <- <- <-]; rewrite Huse; repeat split.
Qed.

(** The loop of [process_pdf] appends one document per chunk, in
    order, and stops at the first chunk that fails. *)
Lemma ingest_loop_appends `{Runtime} `{Ingestion} file_path now :
  forall chunks self embedded r self' embedded',
  ingest_loop file_path now chunks self embedded = (r, self', embedded') ->
  use_cache self' = use_cache self /\ cache self' = cache self
  /\ dimension (DocuMind.vector_store self') = dimension (DocuMind.vector_store self)
  /\ exists (n : nat) (added : list VectorDocument),
       documents (DocuMind.vector_store self')
       = documents (DocuMind.vector_store self) ++ added
       /\ List.map id added = List.map (chunk_doc_id file_path) (List.firstn n chunks)
       /\ List.map content added = List.map c_text (List.firstn n chunks)
       /\ List.Forall
            (fun doc => shape0 (embedding doc) = dimension (DocuMind.vector_store self))
            added
       /\ (r = Ok tt ->
           n = List.length chunks
           /\ (use_cache self = false ->
               embedded' = embedded ++ List.map c_text chunks
               /\ disk self' = disk self)).
Proof.
  induction chunks as [|chunk rest IH]; intros self embedded r self' embedded'.
  - cbn [ingest_loop]. intros [= <- <- <-]. repeat split.
    exists 0%nat, []. cbn. rewrite !app_nil_r. repeat split. constructor.
  - cbn [ingest_loop].
    destruct (chunk_embedding self now (c_text chunk)) as [[er self1] called] eqn:Hce.
    apply chunk_embedding_frame in Hce as (Huse1 & Hcache1 & Hvs1 & Hcalled).
    assert (forall e, (Raise e, self1, embedded ++ called) = (r, self', embedded') ->
      use_cache self' = use_cache self /\ cache self' = cache self
      /\ dimension (DocuMind.vector_store self') = dimension (DocuMind.vector_store self)
      /\ exists (n : nat) (added : list VectorDocument),
           documents (DocuMind.vector_store self')
           = documents (DocuMind.vector_store self) ++ added
           /\ List.map id added
              = List.map (chunk_doc_id file_path) (List.firstn n (chunk :: rest))
           /\ List.map content added = List.map c_text (List.firstn n (chunk :: rest))
           /\ List.Forall
                (fun doc => shape0 (embedding doc) = dimension (DocuMind.vector_store self))
                added
           /\ (r = Ok tt ->
               n = List.length (chunk :: rest)
               /\ (use_cache self = false ->
                   embedded' = embedded ++ List.map c_text (chunk :: rest)
                   /\ disk self' = disk self))) as Hstop.
    { intros e [= <- <- <-]. rewrite Hvs1. repeat split; try assumption.
      exists 0%nat, []. cbn. rewrite app_nil_r. repeat split; try discriminate.
      constructor. }
    destruct (bind er as_array) as [embedding_|e]; [|apply Hstop].
    destruct (Z.eq_dec (shape0 embedding_) (dimension (DocuMind.vector_store self1)))
      as [Hdim|Hdim].
    + rewrite (add_document_ok _ _ _ _ _ Hdim).
      intros Hloop. apply IH in Hloop as (Huse & Hcache & Hdimension & n & added
        & Hdocs & Hids & Hcontents & Hshapes & Hok).
      cbn in Huse, Hcache, Hdimension, Hdocs, Hshapes, Hok.
      rewrite Hvs1 in *.
      split; [congruence|]. split; [congruence|]. split; [assumption|].
      exists (S n), ({| id := chunk_doc_id file_path chunk; content := c_text chunk;
                        embedding := embedding_;
                        metadata := if truthy (c_metadata chunk) then c_metadata chunk
                                    else PyDict [] |} :: added).
      split; [now rewrite Hdocs, <- app_assoc|].
      split; [cbn; now rewrite Hids|]. split; [cbn; now rewrite Hcontents|].
      split; [constructor; assumption|].
      intros Hr. destruct (Hok Hr) as [Hn Hoff]. split; [cbn; lia|].
      intros Hfalse. destruct (Hcalled Hfalse) as [-> Hdisk1].
      destruct Hoff as [-> Hdisk]; [congruence|].
      split; [cbn; now rewrite <- app_assoc|congruence].
    + destruct (add_document_mismatch (DocuMind.vector_store self1)
                  (chunk_doc_id file_path chunk) (c_text chunk) embedding_
                  (c_metadata chunk) Hdim) as (e & _ & ->).
      apply Hstop.
Qed.

Lemma lookup_map_Some {A B : Type} (f : A -> B) (l : list A) : forall k y,
  List.map f l !! k = Some y -> exists x, l !! k = Some x /\ y = f x.
Proof.
  induction l as [|a l IH]; intros k y; [destruct k; discriminate|].
  destruct k as [|k]; cbn.
  - intros [= <-]. eauto.
  - apply IH.
Qed.

Lemma lookup_map_of {A B : Type} (f : A -> B) (l : list A) : forall k x,
  l !! k = Some x -> List.map f l !! k = Some (f x).
Proof.
  induction l as [|a l IH]; intros k x; [destruct k; discriminate|].
  destruct k as [|k]; cbn.
  - now intros [= <-].
  - apply IH.
Qed.

Lemma lookup_firstn_Some {A : Type} (l : list A) : forall n k x,
  List.firstn n l !! k = Some x -> l !! k = Some x.
Proof.
  induction l as [|a l IH]; intros n k x; [destruct n, k; discriminate|].
  destruct n as [|n]; [destruct k; discriminate|].
  destruct k as [|k]; cbn; [trivial|apply IH].
Qed.

(** [process_pdf] only appends to the store, and does not roll back:
    whatever happens, the documents held before stay where they are,
    and the new ones, all of the dimension of the index, carry the
    ids [file_path_0], [file_path_1], ... and the first chunks of the
    paragraph strategy as contents, in order. When the record
    returned says [success], every chunk was added and
    [chunks_processed] is their number; with the cache disabled
    the embedding model was then called once per chunk, in order, and
    the cache directory was not touched. *)
Theorem process_pdf_appends `{Runtime} `{Collaborators} `{Ingestion}
    (chunker : DocumentChunker) (self : DocuMind.t) (now : Z) (file_path : string) :
  let '(r, self', embedded) := process_pdf chunker self now file_path in
  exists added : list VectorDocument,
    documents (DocuMind.vector_store self')
    = documents (DocuMind.vector_store self) ++ added
    /\ dimension (DocuMind.vector_store self') = dimension (DocuMind.vector_store self)
    /\ List.Forall
         (fun doc => shape0 (embedding doc) = dimension (DocuMind.vector_store self)) added
    /\ (forall k doc, added !! k = Some doc ->
          id doc = (file_path ++ "_" ++ str_of_int (Z.of_nat k))%string)
    /\ (forall text metadata_, process_document file_path = Ok (text, metadata_) ->
          exists n, List.map content added
                    = List.firstn n (chunk_by_paragraphs chunker text))
    /\ (succeeded r ->
        exists text metadata_,
          process_document file_path = Ok (text, metadata_)
          /\ List.map content added = chunk_by_paragraphs chunker text
          /\ getitem r "chunks_processed" = Ok (PyInt (Z.of_nat (List.length added)))
          /\ (use_cache self = false ->
              embedded = chunk_by_paragraphs chunker text /\ disk self' = disk self)).
Proof.
  unfold process_pdf, process_pdf_body.
  destruct (process_document file_path) as [[text metadata_]|e] eqn:Hdoc.
  2: { cbn. exists []. rewrite app_nil_r. repeat split; try discriminate. constructor. }
  change (option.default [] (Chunking.chunk_document 0 chunker text "paragraphs" metadata_))
    with (wrap_chunks (chunk_by_paragraphs chunker text)
            (chunk_by_paragraphs chunker text) 0 metadata_).
  set (texts := chunk_by_paragraphs chunker text).
  set (chunks := wrap_chunks texts texts 0 metadata_).
  destruct (ingest_loop file_path now chunks
              (emit self [LogInfo ("Processing PDF: " ++ file_path)%string]) [])
    as [[r1 self1] embedded1] eqn:Hloop.
  apply ingest_loop_appends in Hloop as (Huse & Hcache & Hdimension & n & added
    & Hdocs & Hids & Hcontents & Hshapes & Hok).
  emit_fields_in Huse. emit_fields_in Hcache. emit_fields_in Hdimension.
  emit_fields_in Hdocs. emit_fields_in Hshapes. emit_fields_in Hok.
  assert (List.map content added = List.firstn n texts) as Hfirst.
  { rewrite Hcontents, <- List.firstn_map. unfold chunks.
    now rewrite WindowFacts.wrap_chunks_texts. }
  assert (forall k doc, added !! k = Some doc ->
            id doc = (file_path ++ "_" ++ str_of_int (Z.of_nat k))%string) as Hnames.
  { intros k doc Hk. apply (lookup_map_of id) in Hk. rewrite Hids in Hk.
    apply lookup_map_Some in Hk as (chunk & Hchunk & ->).
    apply lookup_firstn_Some in Hchunk.
    apply WindowFacts.wrap_chunks_lookup in Hchunk as (_ & Hid & _).
    unfold chunk_doc_id. now rewrite Hid. }
  destruct r1 as [[]|e].
  - cbv beta iota zeta. exists added. emit_fields. split; [assumption|]. split; [assumption|].
    split; [assumption|]. split; [assumption|]. split.
    { intros text' metadata' [= <- <-]. now exists n. }
    intros _. destruct (Hok eq_refl) as [Hn Hoff].
    exists text, metadata_. split; [reflexivity|].
    assert (List.length chunks = List.length texts) as Hlen.
    { unfold chunks.
      now rewrite <- (List.length_map c_text (wrap_chunks texts texts 0 metadata_)),
        WindowFacts.wrap_chunks_texts. }
    assert (List.map content added = texts) as Hall.
    { rewrite Hfirst, Hn, Hlen. apply List.firstn_all. }
    split; [assumption|]. split.
    + cbn. do 2 f_equal. rewrite <- (List.length_map content added), Hall. lia.
    + intros Hfalse. destruct (Hoff Hfalse) as [-> Hdisk]. cbn [app].
      split; [|assumption]. unfold chunks. now rewrite WindowFacts.wrap_chunks_texts.
  - unfold handle_error. cbv beta iota zeta. exists added. emit_fields.
    split; [assumption|]. split; [assumption|].
    split; [assumption|]. split; [assumption|]. split.
    { intros text' metadata' [= <- <-]. now exists n. }
    intros Hsucc. unfold succeeded in Hsucc. cbn in Hsucc. discriminate.
Qed.

End IngestFacts.

(** ** What a query leaves alone *)

Module QueryFrame.
Import Py World Cache QueryProcessor DocuMind QueryFacts.

(** [self'] is [self] up to the trace and, when the cache is
    enabled, the entry of [question] among the cached queries. *)
Definition same_but_entry `{Runtime} (question : string) (self self' : DocuMind.t) : Prop :=
  vector_store self' = vector_store self
  /\ use_cache self' = use_cache self
  /\ cache self' = cache self
  /\ (exists evs, trace self' = trace self ++ evs)
  /\ dirs (disk self') = dirs (disk self)
  /\ (forall path, path <> ("queries", sha256_hexdigest question) ->
        files (disk self') !! path = files (disk self) !! path)
  /\ (use_cache self = false -> disk self' = disk self).

Lemma same_but_entry_refl `{Runtime} question self : same_but_entry question self self.
Proof.
  unfold same_but_entry. repeat split. exists []. now rewrite app_nil_r.
Qed.

Lemma same_but_entry_emit `{Runtime} question self self' evs :
  same_but_entry question self self' -> same_but_entry question self (emit self' evs).
Proof.
  intros (Hvs & Huse & Hcache & (evs' & Htrace) & Hdirs & Hfiles & Hoff).
  unfold same_but_entry. emit_fields. repeat split; try assumption.
  exists (evs' ++ evs). cbn. now rewrite Htrace, app_assoc.
Qed.

Lemma same_but_entry_trans `{Runtime} question self1 self2 self3 :
  same_but_entry question self1 self2 -> same_but_entry question self2 self3 ->
  same_but_entry question self1 self3.
Proof.
  intros (Hvs & Huse & Hcache & (evs1 & Htrace) & Hdirs & Hfiles & Hoff)
         (Hvs2 & Huse2 & Hcache2 & (evs2 & Htrace2) & Hdirs2 & Hfiles2 & Hoff2).
  unfold same_but_entry.
  split; [congruence|]. split; [congruence|]. split; [congruence|].
  split; [exists (evs1 ++ evs2); now rewrite Htrace2, Htrace, app_assoc|].
  split; [congruence|]. split.
  - intros path Hpath. now rewrite Hfiles2, Hfiles.
  - intros Hfalse. rewrite Hoff2 by congruence. now apply Hoff.
Qed.

Lemma set_dirs self d now key value category :
  dirs (snd (set self d now key value category)) = dirs d.
Proof. unfold set. now destruct (bool_decide _). Qed.

Lemma write_cache_frame `{Runtime} question self now result_ r self' :
  use_cache self = true ->
  write_cache self now question result_ = (r, self') ->
  same_but_entry question self self'.
Proof.
  intros Huse. unfold write_cache. destruct (cache self) as [cm|] eqn:Hcache.
  - unfold cache_query_result.
    pose proof (set_dirs cm (disk self) now (_generate_key (PyStr question)) result_
                  "queries") as Hdirs.
    pose proof (fun path => CacheMaintenance.set_files_other cm (disk self) now
                  (_generate_key (PyStr question)) result_ "queries" path) as Hfiles.
    destruct (set cm (disk self) now (_generate_key (PyStr question)) result_ "queries")
      as [w d].
    intros [= <- <-]. cbn [snd] in *. unfold same_but_entry. cbn.
    repeat split; try assumption.
    + exists []. now rewrite app_nil_r.
    + congruence.
  - intros [= <- <-]. apply same_but_entry_refl.
Qed.

Lemma compute_frame `{Runtime} `{Collaborators} question self now top_k r self' :
  compute self now question top_k = (r, self') -> same_but_entry question self self'.
Proof.
  unfold compute.
  destruct (get_context_for_generation (vector_store self) question top_k 2000)
    as [[context_data|e] evs].
  2: { intros [= <- <-]. apply same_but_entry_emit, same_but_entry_refl. }
  destruct (generate_with_sources question (c_context context_data)
              (c_sources context_data)) as [[answer sources]|e].
  2: { intros [= <- <-]. do 2 apply same_but_entry_emit. apply same_but_entry_refl. }
  set (selfE := emit (emit self evs) [Generate question (c_context context_data)]).
  assert (same_but_entry question self selfE) as Hframe
    by (do 2 apply same_but_entry_emit; apply same_but_entry_refl).
  destruct (use_cache selfE) eqn:Huse.
  - destruct (write_cache selfE now question _) as [w selfW] eqn:Hwrite.
    apply (write_cache_frame question) in Hwrite; [|assumption].
    pose proof (same_but_entry_trans _ _ _ _ Hframe Hwrite) as Hboth.
    destruct w as [[]|e]; intros [= <- <-];
      [now apply same_but_entry_emit|assumption].
  - intros [= <- <-]. now apply same_but_entry_emit.
Qed.

(** [query] never changes the knowledge base or the configuration:
    whatever it returns, the vector store, [use_cache] and the cache
    manager are as before, the trace has only grown, and of the cache
    directory at most the entry of this question among the cached
    queries has changed; with the cache disabled the directory is
    untouched. *)
Theorem query_frame `{Runtime} `{Collaborators} (self : DocuMind.t) (now : Z)
    (question : string) (top_k : Z) :
  same_but_entry question self (snd (query self now question top_k)).
Proof.
  unfold query, query_body.
  set (self0 := emit self [LogInfo ("Processing query: " ++ question)%string]).
  assert (same_but_entry question self self0) as Hframe
    by apply same_but_entry_emit, same_but_entry_refl.
  assert (forall r self1, compute self0 now question top_k = (r, self1) ->
            same_but_entry question self
              (snd match r with
                   | Ok r' => (r', self1)
                   | Raise e => handle_error self1 e "query"
                   end)) as Hcompute.
  { intros r self1 Hc. apply compute_frame in Hc.
    pose proof (same_but_entry_trans _ _ _ _ Hframe Hc) as Hboth.
    destruct r; [assumption|]. unfold handle_error. cbn [snd].
    now apply same_but_entry_emit. }
  destruct (use_cache self0) eqn:Huse.
  - destruct (read_cache self0 now question) as [c|e].
    + assert (c = PyNone \/ c <> PyNone) as [->|Hc]
        by (destruct c; auto; right; discriminate).
      * destruct (compute self0 now question top_k) as [r self1] eqn:Hc.
        apply (Hcompute r self1 eq_refl).
      * destruct c; try congruence; cbn [snd]; now apply same_but_entry_emit.
    + unfold handle_error. cbn [snd]. now apply same_but_entry_emit.
  - destruct (compute self0 now question top_k) as [r self1] eqn:Hc.
    apply (Hcompute r self1 eq_refl).
Qed.

End QueryFrame.

(** ** Clearing the cache between queries *)

Module ClearCacheFacts.
Import Py World Cache QueryProcessor DocuMind QueryFacts.

Lemma read_cache_emit `{Runtime} self evs now question :
  read_cache (emit self evs) now question = read_cache self now question.
Proof. reflexivity. Qed.

(** What the record returned by the computing path depends on. *)
Lemma compute_result_ext `{Runtime} `{Collaborators} self1 self2 now question top_k :
  use_cache self1 = use_cache self2 -> cache self1 = cache self2 ->
  vector_store self1 = vector_store self2 ->
  dirs (disk self1) = dirs (disk self2) ->
  fst (compute self1 now question top_k) = fst (compute self2 now question top_k).
Proof.
  intros Huse Hcache Hvs Hdirs. unfold compute. rewrite Hvs.
  destruct (get_context_for_generation (vector_store self2) question top_k 2000)
    as [[context_data|e] evs]; [|reflexivity].
  destruct (generate_with_sources question (c_context context_data)
              (c_sources context_data)) as [[answer sources]|e]; [|reflexivity].
  emit_fields. rewrite Huse. destruct (use_cache self2); [|reflexivity].
  unfold write_cache. emit_fields. rewrite Hcache.
  destruct (cache self2) as [cm|]; [|reflexivity].
  unfold cache_query_result, set. rewrite ?disk_emit, Hdirs.
  destruct (bool_decide _); reflexivity.
Qed.

Lemma query_result_ext `{Runtime} `{Collaborators} self1 self2 now question top_k :
  use_cache self1 = use_cache self2 -> cache self1 = cache self2 ->
  vector_store self1 = vector_store self2 ->
  dirs (disk self1) = dirs (disk self2) ->
  read_cache self1 now question = read_cache self2 now question ->
  fst (query self1 now question top_k) = fst (query self2 now question top_k).
Proof.
  intros Huse Hcache Hvs Hdirs Hread. unfold query, query_body.
  emit_fields. rewrite !read_cache_emit, Huse, Hread.
  pose proof (compute_result_ext
                (emit self1 [LogInfo ("Processing query: " ++ question)%string])
                (emit self2 [LogInfo ("Processing query: " ++ question)%string])
                now question top_k Huse Hcache Hvs Hdirs) as Hcompute.
  destruct (compute (emit self1 _) now question top_k) as [r1 s1].
  destruct (compute (emit self2 _) now question top_k) as [r2 s2].
  cbn [fst] in Hcompute. subst r2.
  assert (fst match r1 with
              | Ok r => (r, s1)
              | Raise e => handle_error s1 e "query"
              end
          = fst match r1 with
                | Ok r => (r, s2)
                | Raise e => handle_error s2 e "query"
                end) as Hsame by (destruct r1; reflexivity).
  destruct (use_cache self2); [|exact Hsame].
  destruct (read_cache self2 now question) as [c|e]; [|reflexivity].
  destruct c; try reflexivity. exact Hsame.
Qed.

(** [clear_cache] cannot be observed by a query made at the same
    time: the record that [query] returns after it is the one it
    would have returned without it, for every question and [top_k];
    and the knowledge base is as before. *)
Theorem clear_cache_invisible `{Runtime} `{Collaborators} (self : DocuMind.t) (now : Z)
    (question : string) (top_k : Z) :
  fst (query (snd (clear_cache self now)) now question top_k)
  = fst (query self now question top_k)
  /\ vector_store (snd (clear_cache self now)) = vector_store self.
Proof.
  unfold clear_cache. destruct (use_cache self) eqn:Huse; cbn [negb]; [|now split].
  destruct (cache self) as [cm|] eqn:Hcache; [|now split].
  destruct (CacheMaintenance.clear_expired_files cm (disk self) now)
    as (_ & Hdirs & Hfiles).
  cbv zeta in Hdirs, Hfiles.
  assert (forall key category,
            get cm (snd (clear_expired cm (disk self) now)) now key category
            = get cm (disk self) now key category) as Hget.
  { intros key category. specialize (Hfiles (category, key)).
    destruct (CacheMaintenance.swept fixed_categories cm (disk self) now (category, key))
      eqn:Hswept.
    - rewrite (CacheMaintenance.get_missing _ _ _ _ _ Hfiles). symmetry.
      apply CacheMaintenance.get_of_expired.
      unfold CacheMaintenance.swept in Hswept.
      now apply andb_true_iff in Hswept as [_ Hexp].
    - now apply CacheMaintenance.get_ext. }
  destruct (clear_expired cm (disk self) now) as [expired_ d] eqn:Hclear.
  cbn [snd] in *. split; [|reflexivity].
  apply query_result_ext; try reflexivity; try assumption.
  unfold read_cache. cbn. rewrite Hcache. apply Hget.
Qed.

End ClearCacheFacts.

(** ** The sources attached to an answer *)

Module SourcesFacts.
Import Py World QueryProcessor DocuMind.

Lemma slice_prefix_len s n : 0 <= n -> len (slice s 0 n) <= n.
Proof.
  intros Hn. unfold slice.
  pose proof (WindowFacts.substring_length s
                (Z.to_nat (adjust_index 0 (len s)))
                (Z.to_nat (adjust_index n (len s) - adjust_index 0 (len s)))) as Hsub.
  unfold adjust_index in *. unfold len in *.
  destruct (0 <? 0) eqn:H0; [discriminate|].
  destruct (n <? 0) eqn:Hneg; [apply Z.ltb_lt in Hneg; lia|]. lia.
Qed.

Lemma substring_all s : forall m, (String.length s <= m)%nat -> substring 0 m s = s.
Proof.
  induction s as [|a s IH]; intros m Hm; [now destruct m|].
  destruct m as [|m]; cbn in *; [lia|]. rewrite IH; [reflexivity|lia].
Qed.

Lemma slice_prefix_all s n : len s <= n -> slice s 0 n = s.
Proof.
  intros Hn. unfold slice, adjust_index. unfold len in *.
  destruct (0 <? 0) eqn:H0; [discriminate|].
  destruct (n <? 0) eqn:Hneg; [apply Z.ltb_lt in Hneg; lia|].
  rewrite Z.min_l by lia. rewrite Z.min_r by lia. cbn [Z.to_nat].
  apply substring_all. lia.
Qed.

(** An answer carries the first three of the results it was given,
    in their order, and no more. Each snippet is the first hundred
    characters of the content followed by three dots, which are
    added also when nothing was cut: a snippet has at most 103
    characters, and a content of at most a hundred characters is
    shown whole. When the language model fails, so does the call. *)
Theorem sources_attached `{Collaborators} (query context : string)
    (sources : list result) :
  match generate_with_sources query context sources with
  | Ok (answer, attached) =>
      chat_completion query context = Ok answer
      /\ attached = PyList (List.map source_entry (List.firstn 3 sources))
  | Raise e => chat_completion query context = Raise e
  end
  /\ forall src, exists snippet,
       getitem (source_entry src) "snippet" = Ok (PyStr snippet)
       /\ getitem (source_entry src) "doc_id" = Ok (PyStr (r_doc_id src))
       /\ len snippet <= 103
       /\ (len (r_content src) <= 100 -> snippet = (r_content src ++ "...")%string).
Proof.
  split.
  - unfold generate_with_sources.
    destruct (chat_completion query context) as [answer|e]; cbn [bind]; [|reflexivity].
    split; [reflexivity|]. now rewrite SearchFacts.take_slice_nonneg by lia.
  - intros src. exists (slice (r_content src) 0 100 ++ "...")%string.
    split; [reflexivity|]. split; [reflexivity|]. split.
    + rewrite ContextFacts.len_append.
      pose proof (slice_prefix_len (r_content src) 100 ltac:(lia)).
      change (len "...") with 3. lia.
    + intros Hshort. now rewrite slice_prefix_all.
Qed.

End SourcesFacts.

(** ** The document registry of [rag_pipeline.py] *)

Module RagPipelineFacts.
Import Py RagPipeline.

Lemma dict_lookup_set {V : Type} (items : list (string * V)) key value key' :
  dict_lookup (dict_set items key value) key'
  = if String.eqb key key' then Some value else dict_lookup items key'.
Proof.
  induction items as [|[k v] items IH]; cbn.
  - reflexivity.
  - destruct (String.eqb k key) eqn:Hk; cbn.
    + apply String.eqb_eq in Hk. subst k. now destruct (String.eqb key key').
    + rewrite IH. destruct (String.eqb k key') eqn:Hk'; [|reflexivity].
      apply String.eqb_eq in Hk'. subst k.
      rewrite String.eqb_sym in Hk. now rewrite Hk.
Qed.

Lemma keys_dict_set {V : Type} (items : list (string * V)) key value :
  List.map fst (dict_set items key value)
  = if bool_decide (key ∈ List.map fst items) then List.map fst items
    else List.map fst items ++ [key].
Proof.
  induction items as [|[k v] items IH]; cbn [dict_set List.map fst].
  - rewrite bool_decide_eq_false_2 by apply not_elem_of_nil. reflexivity.
  - destruct (String.eqb k key) eqn:Hk.
    + apply String.eqb_eq in Hk. subst k.
      rewrite bool_decide_eq_true_2 by (apply elem_of_cons; now left). reflexivity.
    + apply String.eqb_neq in Hk. cbn [List.map fst]. rewrite IH.
      destruct (bool_decide (key ∈ List.map fst items)) eqn:Hin.
      * apply bool_decide_eq_true in Hin.
        rewrite bool_decide_eq_true_2 by (apply elem_of_cons; now right). reflexivity.
      * apply bool_decide_eq_false in Hin.
        rewrite bool_decide_eq_false_2; [reflexivity|].
        intros [Heq|Hin']%elem_of_cons; [congruence|contradiction].
Qed.

(** [add_document] under an id that is already registered replaces
    the record that [get_document] returns and leaves the id where it
    is in [list_documents], yet appends one more entry to
    [documents]: [total_documents] counts the call, [document_ids]
    does not. Under a new id both grow by one. Every other id keeps
    its record. *)
Theorem add_document_overwrites (self : t) (content_ : string) (metadata_ : pyobj)
    (doc_id_ : string) :
  let self' := add_document self content_ metadata_ doc_id_ in
  get_document self' doc_id_
  = Some {| p_content := content_; p_metadata := metadata_; p_chunks := [] |}
  /\ (forall other, other <> doc_id_ -> get_document self' other = get_document self other)
  /\ total_documents (get_stats self') = total_documents (get_stats self) + 1
  /\ list_documents self'
     = if bool_decide (doc_id_ ∈ list_documents self) then list_documents self
       else list_documents self ++ [doc_id_].
Proof.
  cbv zeta. unfold get_document, list_documents, get_stats, add_document.
  cbn [processed_docs documents total_documents].
  split; [|split; [|split]].
  - now rewrite dict_lookup_set, String.eqb_refl.
  - intros other Hne. rewrite dict_lookup_set.
    destruct (String.eqb doc_id_ other) eqn:Heq; [|reflexivity].
    apply String.eqb_eq in Heq. congruence.
  - rewrite length_app. cbn. lia.
  - apply keys_dict_set.
Qed.

(** What holds of every pipeline. *)
Definition registry_consistent (s : t) : Prop :=
  List.NoDup (list_documents s)
  /\ (forall i, i ∈ list_documents s <-> i ∈ List.map doc_id (documents s))
  /\ (forall i, is_Some (get_document s i) <-> i ∈ list_documents s)
  /\ List.Forall (fun kv => p_chunks (snd kv) = []) (processed_docs s).

Lemma dict_lookup_keys {V : Type} (items : list (string * V)) key :
  is_Some (dict_lookup items key) <-> key ∈ List.map fst items.
Proof.
  induction items as [|[k v] items IH]; cbn.
  - split; [intros [x Hx]; discriminate|intros Hin; now apply not_elem_of_nil in Hin].
  - rewrite elem_of_cons. destruct (String.eqb k key) eqn:Hk.
    + apply String.eqb_eq in Hk. subst k. split; [now left|eauto].
    + apply String.eqb_neq in Hk. rewrite IH. split; [now right|].
      intros [Heq|Hin]; [congruence|assumption].
Qed.

Lemma dict_set_chunks (items : list (string * processed)) key value :
  p_chunks value = [] ->
  List.Forall (fun kv => p_chunks (snd kv) = []) items ->
  List.Forall (fun kv => p_chunks (snd kv) = []) (dict_set items key value).
Proof.
  intros Hvalue. induction 1 as [|[k v] items Hkv Hitems IH]; cbn.
  - repeat constructor. assumption.
  - destruct (String.eqb k key); constructor; assumption.
Qed.

Lemma registry_consistent_apply s o :
  registry_consistent s -> registry_consistent (apply s o).
Proof.
  intros (Hnd & Hids & Hget & Hchunks). destruct o as [c m i|]; cbn [apply].
  - unfold registry_consistent, list_documents, get_document, add_document in *.
    cbn [processed_docs documents] in *.
    split; [|split; [|split]].
    + rewrite keys_dict_set. destruct (bool_decide _) eqn:Hin; [assumption|].
      apply bool_decide_eq_false in Hin.
      apply NoDup_ListNoDup, NoDup_app. split; [now apply NoDup_ListNoDup|].
      split; [|apply NoDup_singleton].
      intros x Hx ->%list_elem_of_singleton. contradiction.
    + intros j. rewrite keys_dict_set, List.map_app. cbn [List.map doc_id].
      rewrite (elem_of_app (List.map doc_id (documents s))), list_elem_of_singleton.
      rewrite <- Hids.
      destruct (bool_decide _) eqn:Hin.
      * apply bool_decide_eq_true in Hin. split; [now left|].
        intros [Hj| ->]; assumption.
      * rewrite elem_of_app, list_elem_of_singleton. reflexivity.
    + intros j. apply dict_lookup_keys.
    + now apply dict_set_chunks.
  - unfold registry_consistent, clear, list_documents, get_document. cbn.
    split; [constructor|]. split; [reflexivity|]. split; [|constructor].
    intros j. split; [intros [x Hx]; discriminate|intros Hin; now apply not_elem_of_nil in Hin].
Qed.

Lemma fold_chunks_zero (items : list (string * processed)) :
  List.Forall (fun kv => p_chunks (snd kv) = []) items ->
  List.fold_left (fun acc kv => acc + Z.of_nat (List.length (p_chunks (snd kv)))) items 0
  = 0.
Proof.
  induction 1 as [|kv items Hkv _ IH]; cbn; [reflexivity|]. now rewrite Hkv.
Qed.

(** After any sequence of [add_document] and [clear] calls on a new
    pipeline: [list_documents] names every id once; an id is listed
    exactly when [documents] holds an entry for it and exactly when
    [get_document] finds it; [document_ids] is never longer than
    [total_documents] says; and [total_chunks] is zero, since nothing
    ever adds a chunk. *)
Theorem pipeline_registry_consistent (ops : list op) :
  let s := List.fold_left apply ops init in
  registry_consistent s
  /\ Z.of_nat (List.length (document_ids (get_stats s))) <= total_documents (get_stats s)
  /\ total_chunks (get_stats s) = 0.
Proof.
  cbv zeta.
  assert (registry_consistent (List.fold_left apply ops init)) as Hcons.
  { assert (registry_consistent init) as Hinit.
    { unfold registry_consistent, init, list_documents, get_document. cbn.
      split; [constructor|]. split; [reflexivity|]. split; [|constructor].
      intros j. split; [intros [x Hx]; discriminate|
                        intros Hin; now apply not_elem_of_nil in Hin]. }
    generalize dependent init. induction ops as [|o ops IH]; intros s Hs; [exact Hs|].
    cbn [List.fold_left]. apply IH. now apply registry_consistent_apply. }
  split; [exact Hcons|].
  destruct Hcons as (Hnd & Hids & _ & Hchunks).
  set (s := List.fold_left apply ops init) in *. split.
  - unfold get_stats. cbn [document_ids total_documents].
    rewrite <- (List.length_map doc_id (documents s)).
    apply inj_le. apply List.NoDup_incl_length; [assumption|].
    intros i Hi. apply list_elem_of_In, Hids, list_elem_of_In in Hi. exact Hi.
  - unfold get_stats. cbn [total_chunks]. now apply fold_chunks_zero.
Qed.

End RagPipelineFacts.
